(** * gosuresql: the connection/token pool manager

    A shallow embedding of the client package of medatechnology/gosuresql
    (pool.go, scale.go, connection.go, request.go, suresql.go and the type
    declarations of the package) together with the properties of the pool
    manager that the specification states.

    Conventions of the embedding.
    - A Go [int] is a [Z]; where an operand comes from the configuration the
      64-bit wrap-around of the subtraction is written out ([wrap64]).
    - A [*Connection] is an address ([ptr]) into a store of connections;
      two pool entries are the same connection when their addresses are
      equal, as with Go's pointer comparison.  A [nil] pointer is [None] at
      the places where the source tests for it.
    - A Go map is a [gmap]; reading a missing key yields the zero value.
      A [range] over a map visits the entries in an order the language
      leaves open: every loop over a map takes the visiting order as an
      argument, and the theorems hold for every order.
    - [time.Now()] is read from an argument ([now]) or from the clock of
      the world; a [time.Duration] is a [Z] of nanoseconds.
    - A run-time panic (index out of range, nil dereference, close of a
      closed channel) is the outcome [Crash]. *)

From stdpp Require Import gmap strings list fin_maps.
From Stdlib Require Import ZArith Lia.

Local Open Scope Z_scope.

(** ** Outcomes *)

(** Go's [(value, error)]. *)
Inductive result (A : Type) : Type :=
| Ok (a : A)
| Err (e : string).
Arguments Ok {A} a.
Arguments Err {A} e.

(** A call either returns or panics. *)
Inductive outcome (A : Type) : Type :=
| Done (a : A)
| Crash (e : string).
Arguments Done {A} a.
Arguments Crash {A} e.

#[global] Instance outcome_bind : MBind outcome := fun A B f m =>
  match m with
  | Done a => f a
  | Crash e => Crash e
  end.

(** ** Machine integers and durations *)

Definition wrap64 (z : Z) : Z := (z + 2 ^ 63) mod 2 ^ 64 - 2 ^ 63.

Definition maxDuration : Z := 2 ^ 63 - 1.
Definition minDuration : Z := - 2 ^ 63.

(** [t.Sub(u)]: the difference, saturated to the range of a Duration. *)
Definition Sub (t u : Z) : Z :=
  if maxDuration <? t - u then maxDuration
  else if t - u <? minDuration then minDuration
  else t - u.

Definition len {A} (l : list A) : Z := Z.of_nat (length l).

(** [l[i]] for a Go slice: [None] stands for the index-out-of-range panic. *)
Definition index {A} (l : list A) (i : Z) : option A :=
  if (0 <=? i) && (i <? len l) then l !! Z.to_nat i else None.

(** ** Connections and the store *)

Definition ptr := nat.

(** suresql.TokenTable: the two fields the client reads and writes. *)
Record TokenTable := mkTokenTable {
  Token : string;
  Refresh : string
}.

(** The field [Token] of the source is [ConnToken] here, [Token] being the
    field of [TokenTable]; [HTTPClient] is a handle of a transport. *)
Record Connection := mkConnection {
  URL : string;
  ConnToken : TokenTable;
  NodeID : string;
  IsLeader : bool;
  Mode : string;
  HTTPClient : nat;
  LastUsed : Z;
  LastRefresh : Z;
  Created : Z
}.

Definition Store := ptr -> Connection.

Definition store_set (st : Store) (a : ptr) (c : Connection) : Store :=
  fun b => if Nat.eqb b a then c else st b.

Definition set_LastUsed (c : Connection) (t : Z) : Connection :=
  mkConnection (URL c) (ConnToken c) (NodeID c) (IsLeader c) (Mode c)
               (HTTPClient c) t (LastRefresh c) (Created c).

Definition set_Token (c : Connection) (tok : TokenTable) (t : Z) : Connection :=
  mkConnection (URL c) tok (NodeID c) (IsLeader c) (Mode c)
               (HTTPClient c) (LastUsed c) t (Created c).

(** ** ConnectionPool (pool.go) *)

Record ConnectionPool := mkPool {
  nodeConnections : gmap string (list ptr);
  nodeRoundRobinIndices : gmap string Z;
  nodeOrder : list string;
  nodeOrderIndex : Z;
  isWritePool : bool;
  maxPool : Z;
  maxWritePool : Z;
  nodeHTTPClients : gmap string nat
}.

Definition NewConnectionPool (isWrite : bool) (maxRead maxWrite : Z) : ConnectionPool :=
  mkPool ∅ ∅ [] 0 isWrite maxRead maxWrite ∅.

(** Reading a Go map at a key that may be missing. *)
Definition conns_at (p : ConnectionPool) (nodeID : string) : list ptr :=
  default [] (nodeConnections p !! nodeID).

Definition cursor_at (p : ConnectionPool) (nodeID : string) : Z :=
  default 0 (nodeRoundRobinIndices p !! nodeID).

Definition Size (p : ConnectionPool) : Z :=
  map_fold (fun _ conns count => count + len conns) 0 (nodeConnections p).

Definition SizeForNode (p : ConnectionPool) (nodeID : string) : Z :=
  match nodeConnections p !! nodeID with
  | Some conns => len conns
  | None => 0
  end.

(** The body shared by [Add] and [AddBatch]: make the bucket if the node is
    new, then append. *)
Definition ensure_node (p : ConnectionPool) (nodeID : string) : ConnectionPool :=
  match nodeConnections p !! nodeID with
  | Some _ => p
  | None =>
      mkPool (<[nodeID := []]> (nodeConnections p))
             (<[nodeID := 0]> (nodeRoundRobinIndices p))
             (nodeOrder p ++ [nodeID])
             (nodeOrderIndex p) (isWritePool p) (maxPool p) (maxWritePool p)
             (nodeHTTPClients p)
  end.

Definition append_conns (p : ConnectionPool) (nodeID : string) (cs : list ptr)
  : ConnectionPool :=
  mkPool (<[nodeID := conns_at p nodeID ++ cs]> (nodeConnections p))
         (nodeRoundRobinIndices p) (nodeOrder p) (nodeOrderIndex p)
         (isWritePool p) (maxPool p) (maxWritePool p) (nodeHTTPClients p).

Definition Add (st : Store) (p : ConnectionPool) (conn : ptr) : ConnectionPool :=
  let nodeID := NodeID (st conn) in
  append_conns (ensure_node p nodeID) nodeID [conn].

(** First loop of [AddBatch]: group the batch by node id. *)
Definition group_by_node (st : Store) (conns : list ptr) : gmap string (list ptr) :=
  foldl (fun acc conn =>
           let nodeID := NodeID (st conn) in
           <[nodeID := default [] (acc !! nodeID) ++ [conn]]> acc)
        ∅ conns.

(** [visits m kvs]: [kvs] is an order in which a [range] may visit [m]. *)
Definition visits {V} (m : gmap string V) (kvs : list (string * V)) : Prop :=
  kvs ≡ₚ map_to_list m.

(** Second loop of [AddBatch], over the groups in the order [kvs]. *)
Definition AddBatch_loop (p : ConnectionPool) (kvs : list (string * list ptr))
  : ConnectionPool :=
  foldl (fun p kv => append_conns (ensure_node p kv.1) kv.1 kv.2) p kvs.

(** [kvs] is the order in which the second loop visits the groups. *)
Definition AddBatch (st : Store) (kvs : list (string * list ptr))
    (p : ConnectionPool) (conns : list ptr) : ConnectionPool :=
  if len conns =? 0 then p
  else AddBatch_loop p kvs.

(** The loop [for i, id := range p.nodeOrder { if id == nodeID ... break }]:
    the position of the first occurrence. *)
Fixpoint find_node (nodeID : string) (l : list string) : option nat :=
  match l with
  | [] => None
  | id :: l' => if String.eqb id nodeID then Some O
                else option_map S (find_node nodeID l')
  end.

(** The loop [for i, c := range nodeConns { if c == conn ... }]. *)
Fixpoint find_conn (conn : ptr) (l : list ptr) : option nat :=
  match l with
  | [] => None
  | c :: l' => if Nat.eqb c conn then Some O
               else option_map S (find_conn conn l')
  end.

(** [append(s[:i], s[i+1:]...)] *)
Definition cut {A} (i : nat) (l : list A) : list A := take i l ++ drop (S i) l.

(** Dropping a node from the ordered list, with the cursor adjustment; the
    same loop ends [Remove] and [RemoveIdleConnections]. *)
Definition drop_from_order (nodeID : string) (order : list string) (idx : Z)
  : list string * Z :=
  match find_node nodeID order with
  | Some i =>
      let order' := cut i order in
      (order', if (len order' <=? idx) && (0 <? len order') then 0 else idx)
  | None => (order, idx)
  end.

Definition Remove (st : Store) (p : ConnectionPool) (conn : ptr)
  : bool * ConnectionPool :=
  let nodeID := NodeID (st conn) in
  match nodeConnections p !! nodeID with
  | None => (false, p)
  | Some nodeConns =>
      match find_conn conn nodeConns with
      | None => (false, p)
      | Some i =>
          let rest := cut i nodeConns in
          if len rest =? 0 then
            let '(order', idx') := drop_from_order nodeID (nodeOrder p) (nodeOrderIndex p) in
            (true,
             mkPool (delete nodeID (nodeConnections p))
                    (delete nodeID (nodeRoundRobinIndices p))
                    order' idx'
                    (isWritePool p) (maxPool p) (maxWritePool p)
                    (if isWritePool p then delete nodeID (nodeHTTPClients p)
                     else nodeHTTPClients p))
          else
            (true,
             mkPool (<[nodeID := rest]> (nodeConnections p))
                    (nodeRoundRobinIndices p) (nodeOrder p) (nodeOrderIndex p)
                    (isWritePool p) (maxPool p) (maxWritePool p)
                    (nodeHTTPClients p))
      end
  end.

(** One round of the scan of [GetConnection], at loop counter [i]:
    [None] when the bucket is empty and the scan goes on. *)
Definition GetConnection_at (now : Z) (p : ConnectionPool) (st : Store) (i : Z)
  : option (outcome (result ptr * ConnectionPool * Store)) :=
  let nodeIdx := Z.rem (nodeOrderIndex p + i) (len (nodeOrder p)) in
  match index (nodeOrder p) nodeIdx with
  | None => Some (Crash "index out of range")
  | Some nodeID =>
      let nodeConns := conns_at p nodeID in
      if 0 <? len nodeConns then
        let connIdx := cursor_at p nodeID in
        match index nodeConns connIdx with
        | None => Some (Crash "index out of range")
        | Some conn =>
            Some (Done (Ok conn,
                      mkPool (nodeConnections p)
                             (<[nodeID := Z.rem (connIdx + 1) (len nodeConns)]>
                                (nodeRoundRobinIndices p))
                             (nodeOrder p)
                             (Z.rem (nodeIdx + 1) (len (nodeOrder p)))
                             (isWritePool p) (maxPool p) (maxWritePool p)
                             (nodeHTTPClients p),
                      store_set st conn (set_LastUsed (st conn) now)))
        end
      else None
  end.

(** [for i := 0; i < len(p.nodeOrder); i++]: [k] rounds are left, the
    counter is [i]. *)
Fixpoint GetConnection_scan (now : Z) (p : ConnectionPool) (st : Store)
    (k : nat) (i : Z) : outcome (result ptr * ConnectionPool * Store) :=
  match k with
  | O => Done (Err "no connections available in pool despite having nodes", p, st)
  | S k' =>
      match GetConnection_at now p st i with
      | Some r => r
      | None => GetConnection_scan now p st k' (i + 1)
      end
  end.

Definition GetConnection (now : Z) (p : ConnectionPool) (st : Store)
  : outcome (result ptr * ConnectionPool * Store) :=
  if len (nodeOrder p) =? 0 then Done (Err "no connections available in pool", p, st)
  else GetConnection_scan now p st (length (nodeOrder p)) 0.

Definition Clear (p : ConnectionPool) : ConnectionPool :=
  mkPool ∅ ∅ [] 0 (isWritePool p) (maxPool p) (maxWritePool p) ∅.

(** [GetConnectionForNode]: pick from one node's bucket with its cursor. *)
Definition GetConnectionForNode (now : Z) (p : ConnectionPool) (st : Store)
    (nodeID : string) : outcome (result ptr * ConnectionPool * Store) :=
  match nodeConnections p !! nodeID with
  | None => Done (Err ("no connections available for node " +:+ nodeID), p, st)
  | Some nodeConns =>
      if len nodeConns =? 0
      then Done (Err ("no connections available for node " +:+ nodeID), p, st)
      else
        let connIdx := cursor_at p nodeID in
        match index nodeConns connIdx with
        | None => Crash "index out of range"
        | Some conn =>
            Done (Ok conn,
                  mkPool (nodeConnections p)
                         (<[nodeID := Z.rem (connIdx + 1) (len nodeConns)]>
                            (nodeRoundRobinIndices p))
                         (nodeOrder p) (nodeOrderIndex p)
                         (isWritePool p) (maxPool p) (maxWritePool p)
                         (nodeHTTPClients p),
                  store_set st conn (set_LastUsed (st conn) now))
        end
  end.

(** [now.Sub(conn.LastUsed) > idleTimeout] *)
Definition is_idle (st : Store) (now idleTimeout : Z) (conn : ptr) : bool :=
  idleTimeout <? Sub now (LastUsed (st conn)).

(** The inner loop of [RemoveIdleConnections]: [(active, idle)]. *)
Definition split_idle (st : Store) (now idleTimeout : Z) (conns : list ptr)
  : list ptr * list ptr :=
  foldl (fun acc conn =>
           if is_idle st now idleTimeout conn
           then (acc.1, acc.2 ++ [conn])
           else (acc.1 ++ [conn], acc.2))
        ([], []) conns.

(** The body of the outer loop of [RemoveIdleConnections] for the entry
    [(nodeID, conns)]; the accumulator is [(removed, p)]. *)
Definition reap_node (st : Store) (now idleTimeout minSizePerNode : Z)
    (acc : Z * ConnectionPool) (kv : string * list ptr) : Z * ConnectionPool :=
  let removed := acc.1 in
  let p := acc.2 in
  let nodeID := kv.1 in
  let conns := kv.2 in
  if len conns <=? minSizePerNode then acc
  else
    let active := (split_idle st now idleTimeout conns).1 in
    let idle := (split_idle st now idleTimeout conns).2 in
    let canRemove := wrap64 (len conns - minSizePerNode) in
    let willRemove := Z.min (len idle) canRemove in
    if willRemove <=? 0 then acc
    else
      let keepIdle := len idle - willRemove in
      let newConnList :=
        if 0 <? keepIdle then active ++ take (Z.to_nat keepIdle) idle else active in
      let indices :=
        if len newConnList <=? cursor_at p nodeID
        then <[nodeID := 0]> (nodeRoundRobinIndices p)
        else nodeRoundRobinIndices p in
      if len newConnList =? 0 then
        let oi := drop_from_order nodeID (nodeOrder p) (nodeOrderIndex p) in
        (removed + willRemove,
         mkPool (delete nodeID (nodeConnections p))
                (delete nodeID indices)
                oi.1 oi.2
                (isWritePool p) (maxPool p) (maxWritePool p) (nodeHTTPClients p))
      else
        (removed + willRemove,
         mkPool (<[nodeID := newConnList]> (nodeConnections p))
                indices (nodeOrder p) (nodeOrderIndex p)
                (isWritePool p) (maxPool p) (maxWritePool p) (nodeHTTPClients p)).

(** [kvs] is the order in which the loop visits the buckets. *)
Definition RemoveIdleConnections (st : Store) (now idleTimeout minSizePerNode : Z)
    (kvs : list (string * list ptr)) (p : ConnectionPool) : Z * ConnectionPool :=
  foldl (reap_node st now idleTimeout minSizePerNode) (0, p) kvs.

(** ** The world outside the package *)

(** A decoded JSON value ([interface{}] after [encoding/json]). *)
#[local] Unset Elimination Schemes.
Inductive JSON : Type :=
| JNull
| JBool (b : bool)
| JNum (n : Z)
| JStr (s : string)
| JArr (l : list JSON)
| JObj (m : list (string * JSON)).
#[local] Set Elimination Schemes.

Fixpoint obj_get (k : string) (m : list (string * JSON)) : option JSON :=
  match m with
  | [] => None
  | (k', v) :: m' => if String.eqb k' k then Some v else obj_get k m'
  end.

(** suresql.StandardResponse, the envelope of every reply. *)
Record StandardResponse := mkEnvelope {
  Status : Z;
  Message : string;
  Data : JSON
}.

(** An [*http.Response]: the status code and what the JSON decoder makes of
    the body ([None]: the body is not an envelope). *)
Record Response := mkResponse {
  StatusCode : Z;
  Body : option StandardResponse
}.

Record Request := mkRequest {
  rMethod : string;
  rURL : string;
  rBody : option JSON;
  rAPIKey : string;
  rClientID : string;
  rAuthorization : option string
}.

(** The store of connections, the allocator, the clock and the HTTP stack.
    [script] lists what [http.Client.Do] returns, call after call, as the
    pair [(resp, err)] of its signature; [sent] records the requests handed
    to it, oldest first. *)
Record World := mkWorld {
  store : Store;
  next : ptr;
  nextClient : nat;
  clock : Z;
  requestOk : string -> string -> bool;
  script : list (option Response * option string);
  sent : list Request
}.

Definition with_store (w : World) (st : Store) : World :=
  mkWorld st (next w) (nextClient w) (clock w) (requestOk w) (script w) (sent w).

Record ClientConfig := mkClientConfig {
  ServerURL : string;
  APIKey : string;
  ClientID : string;
  Username : string;
  Password : string
}.

Definition http_StatusOK : Z := 200.
Definition http_StatusUnauthorized : Z := 401.

Definition WITH_TOKEN := true.
Definition NO_TOKEN := false.
Definition FALLBACK_LEADER := true.
Definition NO_FALLBACK := false.
Definition AUTO_REFRESH := true.
Definition NO_REFRESH := false.
Definition IS_WRITE := true.
Definition IS_READ := false.
Definition CALL_CONNECT := false.
Definition DEFAULT_AUTO_REFRESH := true.

(** ** Connections (connection.go) *)

Definition userCredentialsFromConfig (config : ClientConfig) : JSON :=
  JObj [("username", JStr (Username config)); ("password", JStr (Password config))].

(** [NewHTTPClient]: a fresh transport handle. *)
Definition NewHTTPClient (w : World) : nat * World :=
  (nextClient w,
   mkWorld (store w) (next w) (S (nextClient w)) (clock w) (requestOk w)
           (script w) (sent w)).

Definition NewConnectionWithClient (config : ClientConfig)
    (url nodeID mode : string) (leader : bool) (token : TokenTable)
    (httpClient : nat) (w : World) : ptr * World :=
  let nodeID := if String.eqb nodeID "" then "0" else nodeID in
  let mode := if String.eqb mode "" then "rw" else mode in
  let url := if String.eqb url "" then ServerURL config else url in
  let now := clock w in
  (next w,
   mkWorld (store_set (store w) (next w)
              (mkConnection url token nodeID leader mode httpClient now now now))
           (S (next w)) (nextClient w) (clock w) (requestOk w)
           (script w) (sent w)).

Definition NewConnection (config : ClientConfig) (url nodeID mode : string)
    (leader : bool) (token : TokenTable) (w : World) : ptr * World :=
  let cw := NewHTTPClient w in
  NewConnectionWithClient config url nodeID mode leader token cw.1 cw.2.

(** [createHttpRequest]: the request bodies of this package always
    marshal, so the only failure is [http.NewRequest]'s. *)
Definition createHttpRequest (c : Connection) (method endpoint : string)
    (data : option JSON) (config : ClientConfig) (w : World) : result Request :=
  let fullUrl := URL c +:+ endpoint in
  if requestOk w method fullUrl
  then Ok (mkRequest method fullUrl data (APIKey config) (ClientID config) None)
  else Err "failed to create request".

(** [c.HTTPClient.Do(req)] *)
Definition Do (req : Request) (w : World)
  : option Response * option string * World :=
  match script w with
  | [] => (None, Some "connection refused",
           mkWorld (store w) (next w) (nextClient w) (clock w) (requestOk w)
                   [] (sent w ++ [req]))
  | r :: rest => (r.1, r.2,
           mkWorld (store w) (next w) (nextClient w) (clock w) (requestOk w)
                   rest (sent w ++ [req]))
  end.

Definition sendHttpRequest (conn : ptr) (method endpoint : string)
    (data : option JSON) (config : ClientConfig) (withToken : bool) (w : World)
  : option Response * option string * World :=
  let c := store w conn in
  match createHttpRequest c method endpoint data config w with
  | Err e => (None, Some e, w)
  | Ok req =>
      let req :=
        if withToken && negb (String.eqb (Token (ConnToken c)) "")
        then mkRequest (rMethod req) (rURL req) (rBody req) (rAPIKey req)
                       (rClientID req)
                       (Some ("Bearer " +:+ Token (ConnToken c)))
        else req in
      Do req w
  end.

Definition getAndCheckResponseData (resp : option Response)
  : outcome (result JSON) :=
  match resp with
  | None => Crash "nil pointer dereference"
  | Some resp =>
      match Body resp with
      | None => Done (Err "failed to decode response")
      | Some result =>
          if Status result =? http_StatusOK then Done (Ok (Data result))
          else Done (Err ("request error: " +:+ Message result))
      end
  end.

Definition getAndCheckToken (c : Connection) (withToken : bool) : option string :=
  if withToken then
    if String.eqb (Token (ConnToken c)) ""
    then Some ("authentication required but no token available for " +:+ NodeID c)
    else None
  else None.

(** Modelled from the spec: [object.MapToStructSlow[suresql.TokenTable]] is
    code of the goutil and suresql modules; by section 6 of the
    specification the token mapping carries the access token under [token]
    and the refresh token under [refresh].  A field that is missing or is
    not a string is left at the zero value. *)
Definition str_field (k : string) (m : list (string * JSON)) : string :=
  match obj_get k m with
  | Some (JStr s) => s
  | _ => ""
  end.

Definition MapToStructSlow (m : list (string * JSON)) : TokenTable :=
  mkTokenTable (str_field "token" m) (str_field "refresh" m).

(** [convertDataToToken]: the token object and the error ([None] is nil). *)
Definition convertDataToToken (data : JSON) : TokenTable * option string :=
  match data with
  | JObj tokenData =>
      let tokenObj := MapToStructSlow tokenData in
      if String.eqb (Token tokenObj) "" || String.eqb (Refresh tokenObj) ""
      then (tokenObj, Some "token not found in response")
      else (tokenObj, None)
  | _ => (mkTokenTable "" "", Some "unexpected response format")
  end.

(** [newOrRefreshToken]: the error ([None] is nil) and the world after. *)
Definition newOrRefreshToken (conn : ptr) (config : ClientConfig)
    (refresh : bool) (w : World) : outcome (option string * World) :=
  '(resp, w1) ←
    (if refresh then
       if String.eqb (Refresh (ConnToken (store w conn))) ""
       then Done (inl "no refresh token available for connection", w)
       else
         let refreshReq :=
           JObj [("refresh_token", JStr (Refresh (ConnToken (store w conn))))] in
         let r := sendHttpRequest conn "POST" "/db/refresh" (Some refreshReq)
                                  config NO_TOKEN w in
         match r.1.2 with
         | Some err =>
             match r.1.1 with
             | None => Crash "nil pointer dereference"
             | Some _ => Done (inl ("refresh request failed: " +:+ err), r.2)
             end
         | None => Done (inr r.1.1, r.2)
         end
     else
       let r := sendHttpRequest conn "POST" "/db/connect"
                                (Some (userCredentialsFromConfig config))
                                config NO_TOKEN w in
       match r.1.2 with
       | Some err => Done (inl ("connect (new token) request failed: " +:+ err), r.2)
       | None => Done (inr r.1.1, r.2)
       end);
  match resp with
  | inl err => Done (Some err, w1)
  | inr resp =>
      data ← getAndCheckResponseData resp;
      match data with
      | Err err => Done (Some err, w1)
      | Ok data =>
          match convertDataToToken data with
          | (_, Some err) => Done (Some err, w1)
          | (tokenObj, None) =>
              Done (None,
                    with_store w1
                      (store_set (store w1) conn
                         (set_Token (store w1 conn) tokenObj (clock w1))))
          end
      end
  end.

Definition tryRefreshAndRenew (conn : ptr) (config : ClientConfig) (w : World)
  : outcome (option string * World) :=
  '(err, w1) ← newOrRefreshToken conn config true w;
  match err with
  | Some _ => newOrRefreshToken conn config false w1
  | None => Done (None, w1)
  end.

(** ** The client (type declarations of the package) *)

Record PoolConfig := mkPoolConfig {
  MinPoolSize : Z;
  MaxPoolSize : Z;
  MaxWritePoolSize : Z;
  ScaleUpThreshold : Z;
  IdleTimeout : Z;
  ScaleDownInterval : Z;
  ConnectionTTL : Z;
  ScaleUpBatchSize : Z;
  UsageWindowSize : Z;
  NodeUseMultiClient : bool
}.

Record ConnectionStats := mkStats {
  sNodeID : string;
  CurrentConnections : Z;
  ActiveRequests : Z;
  LastScaleUp : Z;
  LastScaleDown : Z;
  UsageHistory : list Z;
  HistoryWindow : Z;
  LastCleanup : Z;
  ScaleUpEvents : Z;
  ScaleDownEvents : Z
}.

(** orm.NodeStatusStruct: the fields the package reads. *)
Record PeerStatus := mkPeer {
  peerURL : string;
  peerNodeID : string;
  peerMode : string;
  peerIsLeader : bool;
  peerMaxPool : Z
}.

Record NodeStatus := mkStatus {
  statusURL : string;
  statusNodeID : string;
  statusMode : string;
  statusIsLeader : bool;
  statusMaxPool : Z;
  Peers : list PeerStatus
}.

(** A [*time.Timer]: whether it is still running and whether an expiry
    waits in its channel. *)
Record Timer := mkTimer {
  running : bool;
  fired : bool
}.

(** A [chan struct{}] that is only ever closed. *)
Inductive Chan : Type := ChNil | ChOpen | ChClosed.

(** The field [PoolConfig] of the source is [poolConfig] here. *)
Record Client := mkClient {
  Config : ClientConfig;
  Connected : bool;
  leaderConn : option ptr;
  readPool : ConnectionPool;
  writePool : ConnectionPool;
  poolConfig : PoolConfig;
  statsPerNodeRead : gmap string ConnectionStats;
  statsPerNodeWrite : gmap string ConnectionStats;
  status : option NodeStatus;
  cleanupTimer : option Timer;
  cleanupDone : Chan
}.

Definition with_leaderConn (c : Client) (l : option ptr) : Client :=
  mkClient (Config c) (Connected c) l (readPool c) (writePool c) (poolConfig c)
           (statsPerNodeRead c) (statsPerNodeWrite c) (status c)
           (cleanupTimer c) (cleanupDone c).

Definition with_Connected (c : Client) (b : bool) : Client :=
  mkClient (Config c) b (leaderConn c) (readPool c) (writePool c) (poolConfig c)
           (statsPerNodeRead c) (statsPerNodeWrite c) (status c)
           (cleanupTimer c) (cleanupDone c).

Definition with_pools (c : Client) (r w : ConnectionPool) : Client :=
  mkClient (Config c) (Connected c) (leaderConn c) r w (poolConfig c)
           (statsPerNodeRead c) (statsPerNodeWrite c) (status c)
           (cleanupTimer c) (cleanupDone c).

Definition with_stats (c : Client) (r w : gmap string ConnectionStats) : Client :=
  mkClient (Config c) (Connected c) (leaderConn c) (readPool c) (writePool c)
           (poolConfig c) r w (status c) (cleanupTimer c) (cleanupDone c).

Definition with_status (c : Client) (s : option NodeStatus) : Client :=
  mkClient (Config c) (Connected c) (leaderConn c) (readPool c) (writePool c)
           (poolConfig c) (statsPerNodeRead c) (statsPerNodeWrite c) s
           (cleanupTimer c) (cleanupDone c).

Definition with_cleanup (c : Client) (t : option Timer) (d : Chan) : Client :=
  mkClient (Config c) (Connected c) (leaderConn c) (readPool c) (writePool c)
           (poolConfig c) (statsPerNodeRead c) (statsPerNodeWrite c) (status c)
           t d.

(** [NewClient], after the configuration has been resolved to [config]
    and [pc]. *)
Definition NewClient (config : ClientConfig) (pc : PoolConfig) (w : World)
  : Client * World :=
  let lw := NewConnection config "" "" "" true (mkTokenTable "" "") w in
  (mkClient config false (Some lw.1)
            (NewConnectionPool IS_READ (MaxPoolSize pc) (MaxWritePoolSize pc))
            (NewConnectionPool IS_WRITE (MaxPoolSize pc) (MaxWritePoolSize pc))
            pc ∅ ∅ None None ChNil,
   lw.2).

(** ** Requests (request.go) *)

Definition is_unauthorized (resp : option Response) : bool :=
  match resp with
  | Some r => StatusCode r =? http_StatusUnauthorized
  | None => false
  end.

(** The body of [sendRequestToPool].  [leader] is the call
    [c.sendRequestToLeader(method, endpoint, body, withToken, autorefresh)]
    of the fallback branch, given the flag [autorefresh] as it stands there. *)
Definition sendRequestToPool_body
    (leader : bool -> Client -> World -> outcome (result JSON * Client * World))
    (c : Client) (conn : option ptr) (method endpoint : string)
    (body : option JSON) (withToken autorefresh fallback : bool) (w : World)
  : outcome (result JSON * Client * World) :=
  match conn with
  | None => Done (Err "no DB connection", c, w)
  | Some conn =>
      let autorefresh := if negb withToken && autorefresh then false else autorefresh in
      match getAndCheckToken (store w conn) withToken with
      | Some err => Done (Err err, c, w)
      | None =>
          let r := sendHttpRequest conn method endpoint body (Config c) withToken w in
          let resp := r.1.1 in
          let w1 := r.2 in
          match r.1.2 with
          | None =>
              data ← getAndCheckResponseData resp; Done (data, c, w1)
          | Some err =>
              (* the auto-refresh block: an early return, or the
                 [resp], [err] and world it leaves behind *)
              '(early, resp2, err2, w2) ←
                (if autorefresh && is_unauthorized resp && withToken then
                   '(rerr, wr) ← tryRefreshAndRenew conn (Config c) w1;
                   match rerr with
                   | Some e => Done (None, resp, Some e, wr)
                   | None =>
                       let r2 := sendHttpRequest conn method endpoint body
                                                 (Config c) withToken wr in
                       match r2.1.2 with
                       | Some e2 =>
                           match r2.1.1 with
                           | None => Crash "nil pointer dereference"
                           | Some _ =>
                               Done (Some (Err ("api-call failed, after refresh success, err: " +:+ e2)),
                                     r2.1.1, Some e2, r2.2)
                           end
                       | None => Done (None, r2.1.1, None, r2.2)
                       end
                   end
                 else Done (None, resp, Some err, w1));
              match early with
              | Some ret => Done (ret, c, w2)
              | None =>
                  match err2 with
                  | Some e =>
                      if fallback && negb (bool_decide (leaderConn c = Some conn))
                      then
                        '(data, c', w3) ← leader autorefresh c w2;
                        match data with
                        | Err le =>
                            Done (Err ("api-call fallback to leader failed, err:" +:+ le), c', w3)
                        | Ok d => Done (Ok d, c', w3)
                        end
                      else Done (Err ("api-call failed, err: " +:+ e), c, w2)
                  | None =>
                      data ← getAndCheckResponseData resp2; Done (data, c, w2)
                  end
              end
          end
      end
  end.

(** [sendRequestToLeader] passes [NO_FALLBACK], so its call of the body
    never reaches the fallback branch. *)
Definition sendRequestToLeader (c : Client) (method endpoint : string)
    (body : option JSON) (withToken autorefresh : bool) (w : World)
  : outcome (result JSON * Client * World) :=
  let cw :=
    match leaderConn c with
    | Some _ => (c, w)
    | None =>
        let lw := NewConnection (Config c) "" "" "" true (mkTokenTable "" "") w in
        (with_leaderConn c (Some lw.1), lw.2)
    end in
  sendRequestToPool_body (fun _ c w => Done (Err "no fallback", c, w))
    cw.1 (leaderConn cw.1) method endpoint body withToken autorefresh NO_FALLBACK cw.2.

Definition sendRequestToPool (c : Client) (conn : option ptr)
    (method endpoint : string) (body : option JSON)
    (withToken autorefresh fallback : bool) (w : World)
  : outcome (result JSON * Client * World) :=
  sendRequestToPool_body
    (fun autorefresh c w =>
       sendRequestToLeader c method endpoint body withToken autorefresh w)
    c conn method endpoint body withToken autorefresh fallback w.

(** ** Scaling (scale.go) *)

(** [startCleanupTimer]: a fresh done-channel and a running timer.  The
    goroutine that waits on them is not part of the client state. *)
Definition startCleanupTimer (c : Client) : Client :=
  with_cleanup c (Some (mkTimer true false)) ChOpen.

Definition getOrCreateNodeStats (c : Client) (nodeID : string) (isWrite : bool)
    (now : Z) : ConnectionStats * Client :=
  let found := if isWrite then statsPerNodeWrite c !! nodeID
               else statsPerNodeRead c !! nodeID in
  match found with
  | Some stats => (stats, c)
  | None =>
      let stats := mkStats nodeID 0 0 0 0 [] (UsageWindowSize (poolConfig c)) now 0 0 in
      (stats,
       if isWrite
       then with_stats c (statsPerNodeRead c) (<[nodeID := stats]> (statsPerNodeWrite c))
       else with_stats c (<[nodeID := stats]> (statsPerNodeRead c)) (statsPerNodeWrite c))
  end.

(** A write through the [*ConnectionStats] that [getOrCreateNodeStats]
    returned: the entry of the map changes. *)
Definition put_stats (c : Client) (nodeID : string) (isWrite : bool)
    (stats : ConnectionStats) : Client :=
  if isWrite
  then with_stats c (statsPerNodeRead c) (<[nodeID := stats]> (statsPerNodeWrite c))
  else with_stats c (<[nodeID := stats]> (statsPerNodeRead c)) (statsPerNodeWrite c).

Fixpoint find_peer (nodeID : string) (peers : list PeerStatus) : option PeerStatus :=
  match peers with
  | [] => None
  | p :: peers' => if String.eqb nodeID (peerNodeID p) then Some p
                   else find_peer nodeID peers'
  end.

Definition findMaxPoolsByNodeID (c : Client) (nodeID : string) : outcome Z :=
  match status c with
  | None => Crash "nil pointer dereference"
  | Some s =>
      if String.eqb nodeID (statusNodeID s) then Done (statusMaxPool s)
      else match find_peer nodeID (Peers s) with
           | Some p => Done (peerMaxPool p)
           | None => Done (MaxPoolSize (poolConfig c))
           end
  end.

Definition with_clients (p : ConnectionPool) (m : gmap string nat) : ConnectionPool :=
  mkPool (nodeConnections p) (nodeRoundRobinIndices p) (nodeOrder p)
         (nodeOrderIndex p) (isWritePool p) (maxPool p) (maxWritePool p) m.

Definition getOrCreateNodeHTTPClient (c : Client) (nodeID : string) (w : World)
  : nat * Client * World :=
  match nodeHTTPClients (readPool c) !! nodeID with
  | Some client => (client, c, w)
  | None =>
      let cw := NewHTTPClient w in
      (cw.1,
       with_pools c
         (with_clients (readPool c) (<[nodeID := cw.1]> (nodeHTTPClients (readPool c))))
         (with_clients (writePool c) (<[nodeID := cw.1]> (nodeHTTPClients (writePool c)))),
       cw.2)
  end.

Definition createAndConnectNewConnection (c : Client) (url nodeID mode : string)
    (leader : bool) (w : World) : outcome (result ptr * Client * World) :=
  let '(conn, c1, w1) :=
    if NodeUseMultiClient (poolConfig c) then
      let cw := NewConnection (Config c) url nodeID mode leader (mkTokenTable "" "") w in
      (cw.1, c, cw.2)
    else
      let '(httpClient, c1, w1) := getOrCreateNodeHTTPClient c nodeID w in
      let cw := NewConnectionWithClient (Config c) url nodeID mode leader
                                        (mkTokenTable "" "") httpClient w1 in
      (cw.1, c1, cw.2) in
  '(err, w2) ← newOrRefreshToken conn (Config c1) CALL_CONNECT w1;
  match err with
  | Some e => Done (Err e, c1, w2)
  | None => Done (Ok conn, c1, w2)
  end.

(** The loop of [createPoolConnections], with [n] rounds left. *)
Fixpoint createPoolConnections_loop (c : Client) (nodeURL nodeID nodeMode : string)
    (isLeader : bool) (n : nat) (connections : list ptr) (w : World)
  : outcome (list ptr * Client * World) :=
  match n with
  | O => Done (connections, c, w)
  | S n' =>
      '(conn, c1, w1) ← createAndConnectNewConnection c nodeURL nodeID nodeMode isLeader w;
      match conn with
      | Err _ => createPoolConnections_loop c1 nodeURL nodeID nodeMode isLeader n' connections w1
      | Ok conn =>
          createPoolConnections_loop c1 nodeURL nodeID nodeMode isLeader n'
                                     (connections ++ [conn]) w1
      end
  end.

Definition createPoolConnections (c : Client) (nodeURL nodeID nodeMode : string)
    (isLeader : bool) (count : Z) (w : World) : outcome (list ptr * Client * World) :=
  if count <=? 0 then Done ([], c, w)
  else createPoolConnections_loop c nodeURL nodeID nodeMode isLeader (Z.to_nat count) [] w.

Definition add_scale_up (stats : ConnectionStats) (n : Z) : ConnectionStats :=
  mkStats (sNodeID stats) (CurrentConnections stats + n) (ActiveRequests stats)
          (LastScaleUp stats) (LastScaleDown stats) (UsageHistory stats)
          (HistoryWindow stats) (LastCleanup stats)
          (ScaleUpEvents stats + 1) (ScaleDownEvents stats).

(** [scaleUpNode].  The batch it adds holds connections of one node only,
    so the second loop of [AddBatch] has a single entry to visit. *)
Definition scaleUpNode (c : Client) (conn : ptr) (isWrite : bool) (w : World)
  : outcome (Client * World) :=
  let nodeID := NodeID (store w conn) in
  maxPool ← findMaxPoolsByNodeID c nodeID;
  let maxPool := if isWrite then maxWritePool (readPool c) else maxPool in
  let pool := if isWrite then writePool c else readPool c in
  let currentSize := SizeForNode pool nodeID in
  let addCount := Z.min (ScaleUpBatchSize (poolConfig c)) (wrap64 (maxPool - currentSize)) in
  if addCount <=? 0 then Done (c, w)
  else
    '(connections, c1, w1) ←
      createPoolConnections c (URL (store w conn)) nodeID (Mode (store w conn))
                            (IsLeader (store w conn)) addCount w;
    if 0 <? len connections then
      let pool := if isWrite then writePool c1 else readPool c1 in
      let pool' := AddBatch (store w1)
                            (map_to_list (group_by_node (store w1) connections))
                            pool connections in
      let c2 := if isWrite then with_pools c1 (readPool c1) pool'
                else with_pools c1 pool' (writePool c1) in
      let sc := getOrCreateNodeStats c2 nodeID isWrite (clock w1) in
      Done (put_stats sc.2 nodeID isWrite (add_scale_up sc.1 (len connections)), w1)
    else Done (c1, w1).

(** ** Periodic cleanup and shutdown (pool.go, suresql.go) *)

Definition scaled_down (stats : ConnectionStats) (current now : Z) : ConnectionStats :=
  mkStats (sNodeID stats) current (ActiveRequests stats)
          (LastScaleUp stats) now (UsageHistory stats)
          (HistoryWindow stats) now
          (ScaleUpEvents stats) (ScaleDownEvents stats + 1).

(** The two stats loops of [cleanupIdleConnections]; [from_write] tells
    which pool the counter is read from. *)
Definition cleanup_stats_step (from_write : bool) (now : Z) (c : Client)
    (nodeID : string) : Client :=
  let sc := getOrCreateNodeStats c nodeID IS_READ now in
  let current := if from_write then SizeForNode (writePool sc.2) nodeID
                 else SizeForNode (readPool sc.2) nodeID in
  put_stats sc.2 nodeID IS_READ (scaled_down sc.1 current now).

(** [ordR] and [ordW] are the orders in which the two reaps visit the
    buckets, [ord1] and [ord2] the orders in which the two stats loops
    visit the keys of [statsPerNodeRead]. *)
Definition cleanupIdleConnections (ordR ordW : list (string * list ptr))
    (ord1 ord2 : list string) (c : Client) (w : World) : Client :=
  let now := clock w in
  match status c with
  | None => c
  | Some _ =>
      let rr := RemoveIdleConnections (store w) now (IdleTimeout (poolConfig c))
                                      (MinPoolSize (poolConfig c)) ordR (readPool c) in
      let wr := RemoveIdleConnections (store w) now (IdleTimeout (poolConfig c))
                                      (MinPoolSize (poolConfig c)) ordW (writePool c) in
      let c1 := with_pools c rr.2 wr.2 in
      let c2 := if 0 <? rr.1 then foldl (cleanup_stats_step true now) c1 ord1 else c1 in
      if 0 <? wr.1 then foldl (cleanup_stats_step false now) c2 ord2 else c2
  end.

(** [t.Stop()] and the non-blocking drain of [t.C]. *)
Definition Stop (t : Timer) : bool * Timer := (running t, mkTimer false (fired t)).
Definition drain (t : Timer) : Timer := mkTimer (running t) false.

Definition close_chan (d : Chan) : outcome Chan :=
  match d with
  | ChOpen => Done ChClosed
  | ChClosed => Crash "close of closed channel"
  | ChNil => Crash "close of nil channel"
  end.

Definition CloseConnections (c : Client) : outcome Client :=
  c1 ← match cleanupTimer c with
       | Some t =>
           let s := Stop t in
           let t' := if negb s.1 then drain s.2 else s.2 in
           d ← close_chan (cleanupDone c);
           Done (with_cleanup c (Some t') d)
       | None => Done c
       end;
  Done (with_Connected
          (with_pools (with_leaderConn c1 None) (Clear (readPool c1)) (Clear (writePool c1)))
          false).

Definition Close (c : Client) : outcome Client :=
  c1 ← CloseConnections c;
  Done (with_Connected c1 false).

(** ** Bootstrap (suresql.go, pool.go) *)

Definition bool_field (k : string) (m : list (string * JSON)) : bool :=
  match obj_get k m with
  | Some (JBool b) => b
  | _ => false
  end.

Definition num_field (k : string) (m : list (string * JSON)) : Z :=
  match obj_get k m with
  | Some (JNum n) => n
  | _ => 0
  end.

Definition decode_peer (j : JSON) : PeerStatus :=
  match j with
  | JObj m => mkPeer (str_field "URL" m) (str_field "NodeID" m) (str_field "Mode" m)
                     (bool_field "IsLeader" m) (num_field "MaxPool" m)
  | _ => mkPeer "" "" "" false 0
  end.

(** Modelled from the spec: [object.MapToStruct[orm.NodeStatusStruct]] is
    code of the goutil and simpleorm modules; section 6 of the
    specification gives the status reply as
    [{URL, NodeID, Mode, IsLeader, MaxPool, Peers:[{URL, NodeID, Mode, IsLeader, MaxPool}]}]. *)
Definition MapToStruct (m : list (string * JSON)) : NodeStatus :=
  mkStatus (str_field "URL" m) (str_field "NodeID" m) (str_field "Mode" m)
           (bool_field "IsLeader" m) (num_field "MaxPool" m)
           (match obj_get "Peers" m with
            | Some (JArr l) => decode_peer <$> l
            | _ => []
            end).

Definition getStatusWithoutLock (c : Client) (w : World)
  : outcome (result NodeStatus * Client * World) :=
  '(data, c1, w1) ← sendRequestToLeader c "GET" "/db/api/status" None WITH_TOKEN NO_REFRESH w;
  match data with
  | Err e => Done (Err e, c1, w1)
  | Ok (JObj statusData) => Done (Ok (MapToStruct statusData), c1, w1)
  | Ok _ => Done (Err "error: unexpected response format", c1, w1)
  end.

(** The two calls of [scaleUpNode] that [InitializePool] makes for a node. *)
Definition initialize_node (c : Client) (url nodeID mode : string) (leader : bool)
    (w : World) : outcome (Client * World) :=
  let cw := NewConnection (Config c) url nodeID mode leader (mkTokenTable "" "") w in
  '(c1, w1) ← scaleUpNode c cw.1 IS_WRITE cw.2;
  scaleUpNode c1 cw.1 IS_READ w1.

Fixpoint initialize_peers (c : Client) (peers : list PeerStatus) (w : World)
  : outcome (Client * World) :=
  match peers with
  | [] => Done (c, w)
  | peer :: peers' =>
      '(c1, w1) ← initialize_node c (peerURL peer) (peerNodeID peer) (peerMode peer)
                                  (peerIsLeader peer) w;
      initialize_peers c1 peers' w1
  end.

Definition InitializePool (c : Client) (w : World)
  : outcome (option string * Client * World) :=
  '(st, c1, w1) ← getStatusWithoutLock c w;
  match st with
  | Err e => Done (Some ("failed to get status for pool initialization: " +:+ e), c1, w1)
  | Ok st =>
      let c2 := with_status c1 (Some st) in
      '(c3, w3) ← initialize_node c2 (statusURL st) (statusNodeID st) (statusMode st)
                                  (statusIsLeader st) w1;
      '(c4, w4) ← initialize_peers c3 (Peers st) w3;
      Done (None,
            match cleanupTimer c4 with
            | None => startCleanupTimer c4
            | Some _ => c4
            end,
            w4)
  end.

Definition userCredentialsDefault (c : Client) (username password : string) : JSON :=
  if String.eqb username "" || String.eqb password ""
  then userCredentialsFromConfig (Config c)
  else JObj [("username", JStr username); ("password", JStr password)].

Definition Connect (c : Client) (username password : string) (w : World)
  : outcome (option string * Client * World) :=
  if Connected c
  then Done (Some "already connected, no need to call again", c, w)
  else
    '(data, c1, w1) ← sendRequestToLeader c "POST" "/db/connect"
                        (Some (userCredentialsDefault c username password))
                        NO_TOKEN DEFAULT_AUTO_REFRESH w;
    match data with
    | Err e => Done (Some e, c1, w1)
    | Ok data =>
        match convertDataToToken data with
        | (_, Some e) => Done (Some e, c1, w1)
        | (tokenObj, None) =>
            match leaderConn c1 with
            | None => Crash "nil pointer dereference"
            | Some l =>
                let w2 := with_store w1
                            (store_set (store w1) l
                               (set_Token (store w1 l) tokenObj (clock w1))) in
                InitializePool (with_Connected c1 true) w2
            end
        end
    end.

(** ** Enumerations of the pool (pool.go) *)

(** [GetAllConnections]; [kvs] is the order in which the loop visits the
    buckets of the pool. *)
Definition GetAllConnections (kvs : list (string * list ptr)) : list ptr :=
  foldl (fun result kv => result ++ kv.2) [] kvs.

(** [GetAllConnectionsForNode]: a copy of the bucket, or the empty slice. *)
Definition GetAllConnectionsForNode (p : ConnectionPool) (nodeID : string) : list ptr :=
  match nodeConnections p !! nodeID with
  | Some conns => conns
  | None => []
  end.

(** [GetIdleConnections]; [kvs] is the order in which the outer loop visits
    the buckets. *)
Definition GetIdleConnections (st : Store) (now idleTimeout : Z)
    (kvs : list (string * list ptr)) : list ptr :=
  foldl (fun idle kv =>
           foldl (fun idle conn =>
                    if is_idle st now idleTimeout conn then idle ++ [conn] else idle)
                 idle kv.2)
        [] kvs.


(** ** Usage tracking (scale.go) *)

(** A call started with [go]: the callee and its arguments, evaluated when
    the statement runs. *)
Inductive Task : Type :=
| GoScaleUpNode (conn : ptr) (isWrite : bool)
| GoRecordNodeUsage (nodeID : string) (isWrite : bool)
| GoBeginRequest (conn : ptr) (isWrite : bool)
| GoEndRequest (nodeID : string) (isWrite : bool).


Definition set_UsageHistory (stats : ConnectionStats) (h : list Z) : ConnectionStats :=
  mkStats (sNodeID stats) (CurrentConnections stats) (ActiveRequests stats)
          (LastScaleUp stats) (LastScaleDown stats) h
          (HistoryWindow stats) (LastCleanup stats)
          (ScaleUpEvents stats) (ScaleDownEvents stats).



(** [recordNodeUsage]; [now] is the reading of the clock.  The slice
    expression [h[len(h)-window:]] panics when its low bound is out of
    range. *)
Definition recordNodeUsage (c : Client) (nodeID : string) (isWrite : bool) (now : Z)
  : outcome Client :=
  let sc := getOrCreateNodeStats c nodeID isWrite now in
  let history := UsageHistory sc.1 ++ [now] in
  if HistoryWindow sc.1 <? len history then
    let low := wrap64 (len history - HistoryWindow sc.1) in
    if (0 <=? low) && (low <=? len history)
    then Done (put_stats sc.2 nodeID isWrite
                 (set_UsageHistory sc.1 (drop (Z.to_nat low) history)))
    else Crash "slice bounds out of range"
  else Done (put_stats sc.2 nodeID isWrite (set_UsageHistory sc.1 history)).



Definition markRequestComplete (conn : ptr) (isWrite : bool) (w : World) : list Task :=
  [GoEndRequest (NodeID (store w conn)) isWrite].

(** ** Picking a session for a request (pool.go) *)

(** [getReadConnection]: the session or the error, the client and the
    world after the call, and the goroutines it started. *)
Definition getReadConnection (c : Client) (w : World)
  : outcome (result ptr * Client * World * list Task) :=
  '(ok, c1, w1) ←
    (if Size (readPool c) =? 0 then
       '(err, c1, w1) ← InitializePool c w;
       match err with
       | Some _ => Done (false, c1, w1)
       | None => Done (negb (Size (readPool c1) =? 0), c1, w1)
       end
     else Done (true, c, w));
  if negb ok then Done (Err "no read connections available", c1, w1, [])
  else
    '(r, p', st') ← GetConnection (clock w1) (readPool c1) (store w1);
    match r with
    | Err e => Done (Err e, with_pools c1 p' (writePool c1), with_store w1 st', [])
    | Ok conn =>
        Done (Ok conn, with_pools c1 p' (writePool c1), with_store w1 st',
              [GoRecordNodeUsage (NodeID (st' conn)) IS_READ;
               GoBeginRequest conn IS_READ])
    end.

Definition getWriteConnection (c : Client) (w : World)
  : outcome (result ptr * Client * World * list Task) :=
  '(ok, c1, w1) ←
    (if Size (writePool c) =? 0 then
       '(err, c1, w1) ← InitializePool c w;
       match err with
       | Some _ => Done (false, c1, w1)
       | None => Done (negb (Size (writePool c1) =? 0), c1, w1)
       end
     else Done (true, c, w));
  if negb ok then Done (Err "no write connections available", c1, w1, [])
  else
    '(r, p', st') ← GetConnection (clock w1) (writePool c1) (store w1);
    match r with
    | Err e => Done (Err e, with_pools c1 (readPool c1) p', with_store w1 st', [])
    | Ok conn =>
        Done (Ok conn, with_pools c1 (readPool c1) p', with_store w1 st',
              [GoRecordNodeUsage (NodeID (st' conn)) IS_WRITE;
               GoBeginRequest conn IS_WRITE])
    end.

(** ** Resolving the pool configuration (client types) *)





(** ** Notions used in the statements *)

(** The node that round [i] of the scan looks at. *)
Definition scanned (p : ConnectionPool) (i : Z) : option string :=
  nodeOrder p !! Z.to_nat ((nodeOrderIndex p + i) mod len (nodeOrder p)).

Definition total (kvs : list (string * list ptr)) : Z :=
  foldr (fun kv n => n + len kv.2) 0 kvs.

(** The nodes of the ordered list are distinct and each has a bucket. *)
Definition order_ok (p : ConnectionPool) : Prop :=
  NoDup (nodeOrder p) /\
  forall n, n ∈ nodeOrder p -> is_Some (nodeConnections p !! n).

(** The cursors of a pool are in range: the node cursor is not negative,
    a node's cursor points into its bucket, and it is 0 where there is no
    session. *)
Definition cursors_ok (p : ConnectionPool) : Prop :=
  0 <= nodeOrderIndex p /\
  forall n, 0 <= cursor_at p n /\
            (conns_at p n <> [] -> cursor_at p n < len (conns_at p n)) /\
            (conns_at p n = [] -> cursor_at p n = 0).

(** The invariant of section 3 of the specification. *)
Definition pool_inv (p : ConnectionPool) : Prop := order_ok p /\ cursors_ok p.

(** What the loop body makes of one bucket: [None] when it moves on
    without touching the node, otherwise the new list of the node. *)
Definition reap_bucket (st : Store) (now idleTimeout minSizePerNode : Z)
    (conns : list ptr) : option (list ptr) :=
  if len conns <=? minSizePerNode then None
  else
    let si := split_idle st now idleTimeout conns in
    let willRemove := Z.min (len si.2) (wrap64 (len conns - minSizePerNode)) in
    if willRemove <=? 0 then None
    else Some (si.1 ++ take (Z.to_nat (len si.2 - willRemove)) si.2).

(** The pool after the loop body has replaced the bucket of [nodeID]. *)
Definition reaped_pool (p : ConnectionPool) (nodeID : string) (newConnList : list ptr)
  : ConnectionPool :=
  let indices :=
    if len newConnList <=? cursor_at p nodeID
    then <[nodeID := 0]> (nodeRoundRobinIndices p)
    else nodeRoundRobinIndices p in
  if len newConnList =? 0 then
    let oi := drop_from_order nodeID (nodeOrder p) (nodeOrderIndex p) in
    mkPool (delete nodeID (nodeConnections p)) (delete nodeID indices) oi.1 oi.2
           (isWritePool p) (maxPool p) (maxWritePool p) (nodeHTTPClients p)
  else
    mkPool (<[nodeID := newConnList]> (nodeConnections p)) indices
           (nodeOrder p) (nodeOrderIndex p)
           (isWritePool p) (maxPool p) (maxWritePool p) (nodeHTTPClients p).

Definition well_behaved (w : World) : Prop :=
  Forall (fun r => r <> (None, None)) (script w).

(** [same_but_clients c c1]: [c1] is [c] up to the per-node transports of
    the two pools. *)
Definition same_but_clients (c c1 : Client) : Prop :=
  exists mr mw,
    c1 = with_pools c (with_clients (readPool c) mr) (with_clients (writePool c) mw).

Definition node_or_leader (nodeID : string) : string :=
  if String.eqb nodeID "" then "0" else nodeID.


(** Successive calls of [GetConnectionForNode] on one node, one per clock
    reading of [nows]; the results are collected in order. *)
Fixpoint GetConnectionForNode_calls (nows : list Z) (p : ConnectionPool) (st : Store)
    (nodeID : string) : outcome (list (result ptr) * ConnectionPool * Store) :=
  match nows with
  | [] => Done ([], p, st)
  | now :: nows' =>
      '(r, p1, st1) ← GetConnectionForNode now p st nodeID;
      '(rs, p2, st2) ← GetConnectionForNode_calls nows' p1 st1 nodeID;
      Done (r :: rs, p2, st2)
  end.

(** Successive calls of [GetConnection], one per clock reading of [nows]. *)
Fixpoint GetConnection_calls (nows : list Z) (p : ConnectionPool) (st : Store)
  : outcome (list (result ptr) * ConnectionPool * Store) :=
  match nows with
  | [] => Done ([], p, st)
  | now :: nows' =>
      '(r, p1, st1) ← GetConnection now p st;
      '(rs, p2, st2) ← GetConnection_calls nows' p1 st1;
      Done (r :: rs, p2, st2)
  end.

(** The pool that [GetConnection] leaves when it serves [nodeID] at
    position [nodeIdx] of the ordered list. *)
Definition served (p : ConnectionPool) (nodeIdx : Z) (nodeID : string) : ConnectionPool :=
  mkPool (nodeConnections p)
         (<[nodeID := (cursor_at p nodeID + 1) mod len (conns_at p nodeID)]>
            (nodeRoundRobinIndices p))
         (nodeOrder p)
         ((nodeIdx + 1) mod len (nodeOrder p))
         (isWritePool p) (maxPool p) (maxWritePool p) (nodeHTTPClients p).

(** The transport never hands back an error together with a 401
    response. *)
Definition no_401_with_error (w : World) : Prop :=
  Forall (fun r => is_Some r.2 -> is_unauthorized r.1 = false) (script w).

(** [w'] is [w] after at most [n] more requests were handed to the
    transport. *)
Definition sends_at_most (n : nat) (w w' : World) : Prop :=
  exists new, sent w' = sent w ++ new /\ (length new <= n)%nat.

(** The statistics of a node for one intent. *)
Definition stats_at (c : Client) (isWrite : bool) (nodeID : string)
  : option ConnectionStats :=
  if isWrite then statsPerNodeWrite c !! nodeID else statsPerNodeRead c !! nodeID.

(** What a session that [createAndConnectNewConnection] hands out looks
    like: it is logged in and carries the data of its node. *)
Definition logged_in (config : ClientConfig) (url nodeID : string) (leader : bool)
    (c : Connection) : Prop :=
  Token (ConnToken c) <> "" /\ Refresh (ConnToken c) <> "" /\
  NodeID c = node_or_leader nodeID /\
  URL c = (if String.eqb url "" then ServerURL config else url) /\
  IsLeader c = leader.


(** ** States and worlds of the examples *)

Definition pool_c10 : ConnectionPool :=
  mkPool {["n1" := [1%nat; 2%nat]]} {["n1" := 1]} ["n1"] 0 true 10 1 {["n1" := 7%nat]}.

Definition store_c10 : Store :=
  fun a => mkConnection "http://n1" (mkTokenTable "t" "r")
                        (if Nat.eqb a 5 then "n2" else "n1")
                        false "rw" 7%nat 0 0 0.

Definition world_c8 : World :=
  mkWorld (fun _ => mkConnection "http://n1" (mkTokenTable "old" "oldr") "1"
                                 false "rw" 0%nat 5 6 7)
          1%nat 1%nat 100 (fun _ _ => true)
          [(Some (mkResponse 200
                    (Some (mkEnvelope 200 "ok" (JObj [("token", JStr "fresh")])))),
            None)]
          [].

Definition client_c1 : Client :=
  mkClient (mkClientConfig "http://leader" "k" "id" "admin" "admin") true (Some 0%nat)
           (NewConnectionPool IS_READ 10 1) (NewConnectionPool IS_WRITE 10 1)
           (mkPoolConfig 5 10 1 10 300 60 3600 3 100 true)
           ∅ ∅ None None ChNil.

Definition unauthorized : Response :=
  mkResponse 401 (Some (mkEnvelope 401 "token expired" JNull)).

Definition granted : Response :=
  mkResponse 200 (Some (mkEnvelope 200 "ok"
                          (JObj [("token", JStr "t2"); ("refresh", JStr "r2")]))).

Definition answer : Response :=
  mkResponse 200 (Some (mkEnvelope 200 "ok" (JStr "rows"))).

(** The server answers 401, would grant a refresh and would then answer
    the retried request. *)
Definition world_c1 : World :=
  mkWorld (fun _ => mkConnection "http://n1" (mkTokenTable "t1" "r1") "1"
                                 false "r" 0%nat 0 0 0)
          2%nat 1%nat 100 (fun _ _ => true)
          [(Some unauthorized, None); (Some granted, None); (Some answer, None)]
          [].

(** Two peers with two sessions each; the node cursor stands at the second
    peer and that peer's cursor at its second session. *)
Definition pool_c4 : ConnectionPool :=
  mkPool {["P1" := [1%nat; 2%nat]; "P2" := [3%nat; 4%nat]]}
         {["P1" := 0; "P2" := 1]}
         ["P1"; "P2"] 1 false 10 1 ∅.

Definition store_c4 : Store :=
  fun a => mkConnection "http://peer" (mkTokenTable "t" "r")
                        (if Nat.leb a 2 then "P1" else "P2")
                        false "r" 0%nat 0 0 0.

Definition store_c7 : Store :=
  fun a => mkConnection "http://peer" (mkTokenTable "t" "r")
                        (if Nat.leb a 6 then "P1" else "P3")
                        false "r" 0%nat 0 0 0.

(** Node P1 holds one recently used session and two idle ones, with its
    cursor on the last; node P2 holds a single session. *)
Definition pool_c6 : ConnectionPool :=
  mkPool {["P1" := [1%nat; 2%nat; 3%nat]; "P2" := [4%nat]]}
         {["P1" := 2; "P2" := 0]}
         ["P1"; "P2"] 0 false 10 1 ∅.

Definition store_c6 : Store :=
  fun a => mkConnection "http://peer" (mkTokenTable "t" "r")
                        (if Nat.leb a 3 then "P1" else "P2")
                        false "r" 0%nat
                        (if Nat.eqb a 1 then 990 else 0) 0 0.

Definition pool_c9w : ConnectionPool :=
  mkPool {["P1" := [5%nat]]} {["P1" := 0]} ["P1"] 0 true 10 1 ∅.

Definition stats_c9 (n : string) (current : Z) : ConnectionStats :=
  mkStats n current 0 0 0 [] 100 0 1 0.

Definition client_c9 : Client :=
  mkClient (mkClientConfig "http://leader" "k" "id" "admin" "admin") true (Some 0%nat)
           pool_c6 pool_c9w
           (mkPoolConfig 2 10 1 10 300 60 3600 3 100 true)
           {["P1" := stats_c9 "P1" 3; "P2" := stats_c9 "P2" 1]}
           {["P1" := stats_c9 "P1" 1]}
           (Some (mkStatus "http://leader" "P1" "rw" true 10 []))
           (Some (mkTimer true false)) ChOpen.

Definition world_c9 : World :=
  mkWorld store_c6 10%nat 1%nat 1000 (fun _ _ => true) [] [].

Definition client_c5 : Client :=
  mkClient (mkClientConfig "http://leader" "k" "id" "admin" "admin") true (Some 0%nat)
           (NewConnectionPool IS_READ 10 1) (NewConnectionPool IS_WRITE 10 1)
           (mkPoolConfig 5 10 1 10 300 60 3600 3 100 true)
           ∅ ∅
           (Some (mkStatus "http://leader" "P1" "rw" true 10 []))
           None ChNil.

Definition world_c5 : World :=
  mkWorld (fun _ => mkConnection "http://leader" (mkTokenTable "" "") "P1"
                                 true "rw" 0%nat 0 0 0)
          1%nat 1%nat 100 (fun _ _ => true)
          [(Some granted, None); (Some granted, None); (Some granted, None)]
          [].

(** The configuration asks for a batch size (the documented minimum) of 3
    and carries the deprecated [MinPoolSize] 1. *)
Definition client_c3 : Client :=
  mkClient (mkClientConfig "http://leader" "k" "id" "admin" "admin") true (Some 0%nat)
           (mkPool {["P1" := [1%nat; 2%nat; 3%nat]]} {["P1" := 0]} ["P1"] 0
                   false 10 1 ∅)
           (NewConnectionPool IS_WRITE 10 1)
           (mkPoolConfig 1 10 1 10 300 60 3600 3 100 true)
           ∅ ∅
           (Some (mkStatus "http://leader" "P1" "rw" true 10 []))
           (Some (mkTimer true false)) ChOpen.

Definition status_reply : Response :=
  mkResponse 200
    (Some (mkEnvelope 200 "ok"
             (JObj [("URL", JStr "http://leader"); ("NodeID", JStr "1");
                    ("Mode", JStr "rw"); ("IsLeader", JBool true);
                    ("MaxPool", JNum 2); ("Peers", JArr [])]))).

(** The leader grants the login, reports a cluster of one node and grants
    the logins of the warm-up. *)
Definition world_boot : World :=
  mkWorld (fun _ => mkConnection "" (mkTokenTable "" "") "" false "" 0%nat 0 0 0)
          0%nat 0%nat 100 (fun _ _ => true)
          [(Some granted, None); (Some status_reply, None);
           (Some granted, None); (Some granted, None); (Some granted, None)]
          [].



(** As [client_c5], but the sessions of a node share one transport. *)
Definition client_shared : Client :=
  mkClient (mkClientConfig "http://leader" "k" "id" "admin" "admin") true (Some 0%nat)
           (NewConnectionPool IS_READ 10 1) (NewConnectionPool IS_WRITE 10 1)
           (mkPoolConfig 5 10 1 10 300 60 3600 3 100 false)
           ∅ ∅
           (Some (mkStatus "http://leader" "P1" "rw" true 10 []))
           None ChNil.

(** * Properties *)

(** ** Slices, machine integers *)

(** Goals about the lengths of explicit slices. *)
Ltac len_lia := unfold len in *; simpl in *; lia.

Lemma len_nonneg {A} (l : list A) : 0 <= len l.
Proof. unfold len. lia. Qed.

Lemma len_nil {A} : len (@nil A) = 0.
Proof. reflexivity. Qed.

Lemma len_app {A} (l k : list A) : len (l ++ k) = len l + len k.
Proof. unfold len. rewrite length_app. lia. Qed.

Lemma len_nil_iff {A} (l : list A) : len l = 0 <-> l = [].
Proof. unfold len. destruct l; simpl; split; intros; try done; lia. Qed.

Lemma index_Some {A} (l : list A) (i : Z) (x : A) :
  index l i = Some x <-> 0 <= i < len l /\ l !! Z.to_nat i = Some x.
Proof.
  unfold index.
  destruct (Z.leb_spec 0 i); destruct (Z.ltb_spec i (len l)); simpl.
  - split; [intros H'; split; [lia | exact H'] | intros [_ H']; exact H'].
  - split; [discriminate | intros [? _]; lia].
  - split; [discriminate | intros [? _]; lia].
  - split; [discriminate | intros [? _]; lia].
Qed.

Lemma index_in_range {A} (l : list A) (i : Z) :
  0 <= i < len l -> exists x, index l i = Some x /\ l !! Z.to_nat i = Some x.
Proof.
  intros Hi. destruct (lookup_lt_is_Some_2 l (Z.to_nat i)) as [x Hx].
  { unfold len in Hi. lia. }
  exists x. split; [|done]. by apply index_Some.
Qed.

Lemma wrap64_id (z : Z) : - 2 ^ 63 <= z < 2 ^ 63 -> wrap64 z = z.
Proof.
  intros Hz. unfold wrap64. rewrite Z.mod_small; lia.
Qed.

Lemma wrap64_range (z : Z) : - 2 ^ 63 <= wrap64 z < 2 ^ 63.
Proof.
  unfold wrap64.
  pose proof (Z.mod_pos_bound (z + 2 ^ 63) (2 ^ 64) ltac:(lia)). lia.
Qed.

(** ** Searching a bucket *)

Lemma find_conn_None (conn : ptr) (l : list ptr) :
  find_conn conn l = None <-> conn ∉ l.
Proof.
  induction l as [|c l IH]; simpl.
  - split; [intros _; apply not_elem_of_nil | done].
  - destruct (Nat.eqb_spec c conn) as [->|Hne].
    + split; [done | intros H; exfalso; apply H; left].
    + rewrite not_elem_of_cons. destruct (find_conn conn l); simpl.
      * split; [done | intros [_ H]; by apply IH in H].
      * split; [intros _; split; [congruence | by apply IH] | done].
Qed.

(** C10.  When the pool has no bucket for the node of the connection, or
    the bucket of that node does not hold this very connection, [Remove]
    returns false and the pool it leaves is the pool it was given: buckets,
    per-node cursors, ordered node list, node cursor and per-node
    transports are all as before. *)
Theorem Remove_absent_unchanged (st : Store) (p : ConnectionPool) (conn : ptr) :
  nodeConnections p !! NodeID (st conn) = None \/
  (exists nodeConns, nodeConnections p !! NodeID (st conn) = Some nodeConns
                     /\ conn ∉ nodeConns) ->
  Remove st p conn = (false, p).
Proof.
  intros [Hnone | (nodeConns & Hsome & Hnotin)]; unfold Remove.
  - by rewrite Hnone.
  - rewrite Hsome. apply find_conn_None in Hnotin. by rewrite Hnotin.
Qed.

Lemma Remove_absent_unchanged_witness :
  Remove store_c10 pool_c10 5%nat = (false, pool_c10) /\
  Remove store_c10 pool_c10 3%nat = (false, pool_c10).
Proof.
  split.
  - apply Remove_absent_unchanged. left. reflexivity.
  - apply Remove_absent_unchanged. right. exists [1%nat; 2%nat].
    split; [reflexivity|]. intros H. 
    apply elem_of_cons in H as [H|H]; [discriminate|].
    apply elem_of_cons in H as [H|H]; [discriminate|].
    by apply not_elem_of_nil in H.
Defined.

(** ** Shutdown *)

(** A client whose reaper was never started can be closed any number of
    times. *)
Lemma Close_without_timer (c : Client) :
  cleanupTimer c = None ->
  exists c1, Close c = Done c1 /\ Close c1 = Done c1.
Proof.
  intros Ht. destruct c as [cfg con l rp wp pc sr sw st t d]. simpl in Ht. subst t.
  eexists. split; reflexivity.
Qed.

(** C2.  Once the reaper has been started (as [InitializePool] does), the
    first [Close] completes and leaves the pools cleared, the leader
    session dropped and the client disconnected, but the second [Close]
    panics: the timer reference is still set, so the done-channel is
    closed again. *)
Theorem Close_twice_crashes (c : Client) :
  exists c1,
    Close (startCleanupTimer c) = Done c1 /\
    readPool c1 = Clear (readPool c) /\
    writePool c1 = Clear (writePool c) /\
    leaderConn c1 = None /\
    Connected c1 = false /\
    Close c1 = Crash "close of closed channel".
Proof.
  eexists. split; [reflexivity|]. repeat split; reflexivity.
Qed.

(** ** Token extraction *)

Lemma str_field_nonempty (k : string) (m : list (string * JSON)) :
  String.eqb (str_field k m) "" = false <->
  exists s, obj_get k m = Some (JStr s) /\ s <> "".
Proof.
  unfold str_field. split.
  - destruct (obj_get k m) as [[| | |s| |]|]; try discriminate.
    intros H. exists s. split; [done|]. by apply String.eqb_neq.
  - intros (s & -> & Hs). by apply String.eqb_neq.
Qed.

Lemma convertDataToToken_ok (data : JSON) :
  (convertDataToToken data).2 = None <->
  exists m t r, data = JObj m /\
                obj_get "token" m = Some (JStr t) /\ t <> "" /\
                obj_get "refresh" m = Some (JStr r) /\ r <> "".
Proof.
  split.
  - destruct data as [| | | | |m]; try discriminate. simpl.
    destruct (String.eqb (str_field "token" m) "") eqn:Ht; [discriminate|].
    destruct (String.eqb (str_field "refresh" m) "") eqn:Hr; [discriminate|].
    intros _. apply str_field_nonempty in Ht as (t & Ht & Hne).
    apply str_field_nonempty in Hr as (r & Hr & Hne').
    by exists m, t, r.
  - intros (m & t & r & -> & Ht & Hne & Hr & Hne'). simpl.
    assert (String.eqb (str_field "token" m) "" = false) as ->
      by (apply str_field_nonempty; eauto).
    assert (String.eqb (str_field "refresh" m) "" = false) as ->
      by (apply str_field_nonempty; eauto).
    reflexivity.
Qed.

Lemma convertDataToToken_error (data : JSON) (e : string) :
  (convertDataToToken data).2 = Some e ->
  e = "token not found in response" \/ e = "unexpected response format".
Proof.
  destruct data as [| | | | |m]; simpl; try (intros [= <-]; by right).
  destruct (_ || _); simpl; [intros [= <-]; by left | discriminate].
Qed.

Lemma sendHttpRequest_store (conn : ptr) (method endpoint : string)
    (data : option JSON) (config : ClientConfig) (withToken : bool) (w : World) :
  store (sendHttpRequest conn method endpoint data config withToken w).2 = store w.
Proof.
  unfold sendHttpRequest. destruct (createHttpRequest _ _ _ _ _ _); [|done].
  unfold Do. by destruct (script w).
Qed.

(** An error from [newOrRefreshToken] leaves every connection as it was. *)
Lemma newOrRefreshToken_error_store (conn : ptr) (config : ClientConfig)
    (refresh : bool) (w w' : World) (e : string) :
  newOrRefreshToken conn config refresh w = Done (Some e, w') ->
  store w' = store w.
Proof.
  unfold newOrRefreshToken.
  set (rr := sendHttpRequest conn "POST" "/db/refresh" _ config NO_TOKEN w).
  set (rc := sendHttpRequest conn "POST" "/db/connect" _ config NO_TOKEN w).
  assert (store rr.2 = store w) as Hrr by apply sendHttpRequest_store.
  assert (store rc.2 = store w) as Hrc by apply sendHttpRequest_store.
  assert (forall (resp : option Response) (w1 : World),
            store w1 = store w ->
            (data ← getAndCheckResponseData resp;
             match data with
             | Err err => Done (Some err, w1)
             | Ok data =>
                 match convertDataToToken data with
                 | (_, Some err) => Done (Some err, w1)
                 | (tokenObj, None) =>
                     Done (None,
                           with_store w1
                             (store_set (store w1) conn
                                (set_Token (store w1 conn) tokenObj (clock w1))))
                 end
             end) = Done (Some e, w') -> store w' = store w) as Htail.
  { intros resp w1 Hw1. destruct resp as [resp|]; [|discriminate]. simpl.
    destruct (Body resp) as [env|]; simpl; [|by intros [= _ <-]].
    destruct (Status env =? http_StatusOK); simpl; [|by intros [= _ <-]].
    destruct (convertDataToToken (Data env)) as [tok [err|]]; [|discriminate].
    by intros [= _ <-]. }
  destruct refresh.
  - destruct (String.eqb _ ""); simpl; [by intros [= _ <-]|].
    destruct (rr.1.2); simpl.
    + destruct (rr.1.1); simpl; [|discriminate]. by intros [= _ <-].
    + apply Htail, Hrr.
  - destruct (rc.1.2); simpl; [by intros [= _ <-]|]. apply Htail, Hrc.
Qed.

(** C8.  Token extraction succeeds exactly when the data is a mapping whose
    [token] and [refresh] fields are both present and non-empty strings,
    and then yields that pair; otherwise it fails with one of the two
    malformed-token errors.  When the server's reply is an accepted
    envelope whose data fails the extraction, [newOrRefreshToken] returns
    that error and the connection keeps its token pair and last-refresh
    time. *)
Theorem token_extraction (data : JSON) :
  ((convertDataToToken data).2 = None <->
   exists m t r, data = JObj m /\
                 obj_get "token" m = Some (JStr t) /\ t <> "" /\
                 obj_get "refresh" m = Some (JStr r) /\ r <> "" /\
                 (convertDataToToken data).1 = mkTokenTable t r) /\
  (forall e, (convertDataToToken data).2 = Some e ->
     (e = "token not found in response" \/ e = "unexpected response format") /\
     forall (conn : ptr) (config : ClientConfig) (refresh : bool) (w : World)
            (resp : Response) (env : StandardResponse)
            (rest : list (option Response * option string)),
       (refresh = true -> Refresh (ConnToken (store w conn)) <> "") ->
       requestOk w "POST" (URL (store w conn) +:+
                           (if refresh then "/db/refresh" else "/db/connect")) = true ->
       script w = (Some resp, None) :: rest ->
       Body resp = Some env ->
       Status env = http_StatusOK ->
       Data env = data ->
       exists w',
         newOrRefreshToken conn config refresh w = Done (Some e, w') /\
         ConnToken (store w' conn) = ConnToken (store w conn) /\
         LastRefresh (store w' conn) = LastRefresh (store w conn)).
Proof.
  split.
  - rewrite convertDataToToken_ok. split.
    + intros (m & t & r & -> & Ht & Hne & Hr & Hne').
      exists m, t, r. repeat split; try done.
      simpl. unfold MapToStructSlow, str_field. rewrite Ht, Hr.
      by destruct (_ || _).
    + intros (m & t & r & ? & ? & ? & ? & ? & _). by exists m, t, r.
  - intros e He. split; [by apply convertDataToToken_error in He|].
    intros conn config refresh w resp env rest Href Hok Hscript Hbody Hstatus Hdata.
    assert (exists w', newOrRefreshToken conn config refresh w = Done (Some e, w'))
      as [w' Hw'].
    { unfold newOrRefreshToken, sendHttpRequest, createHttpRequest, Do.
      destruct refresh.
      - assert (String.eqb (Refresh (ConnToken (store w conn))) "" = false) as ->
          by (apply String.eqb_neq; auto).
        rewrite Hok, Hscript. simpl. rewrite Hbody. simpl.
        rewrite Hstatus. simpl. rewrite Hdata.
        destruct (convertDataToToken data) as [tok o]. simpl in He. subst o.
        eauto.
      - rewrite Hok, Hscript. simpl. rewrite Hbody. simpl.
        rewrite Hstatus. simpl. rewrite Hdata.
        destruct (convertDataToToken data) as [tok o]. simpl in He. subst o.
        eauto. }
    exists w'. split; [done|].
    apply newOrRefreshToken_error_store in Hw'. by rewrite Hw'.
Qed.

Lemma token_extraction_witness :
  exists w',
    newOrRefreshToken 0%nat (mkClientConfig "http://n1" "k" "id" "admin" "admin")
                      true world_c8
      = Done (Some "token not found in response", w') /\
    ConnToken (store w' 0%nat) = mkTokenTable "old" "oldr" /\
    LastRefresh (store w' 0%nat) = 6.
Proof.
  apply (proj2 (token_extraction (JObj [("token", JStr "fresh")]))
               "token not found in response" eq_refl)
    with (resp := mkResponse 200
                    (Some (mkEnvelope 200 "ok" (JObj [("token", JStr "fresh")]))))
         (env := mkEnvelope 200 "ok" (JObj [("token", JStr "fresh")]))
         (rest := []);
    try reflexivity.
  intros _. discriminate.
Defined.

(** ** The dispatcher *)

(** With [NO_FALLBACK] the body of [sendRequestToPool] never calls the
    leader, whatever stands for that call. *)
Lemma sendRequestToPool_body_no_fallback
    (leader1 leader2 : bool -> Client -> World -> outcome (result JSON * Client * World))
    (c : Client) (conn : option ptr) (method endpoint : string) (body : option JSON)
    (withToken autorefresh : bool) (w : World) :
  sendRequestToPool_body leader1 c conn method endpoint body withToken autorefresh
                         NO_FALLBACK w =
  sendRequestToPool_body leader2 c conn method endpoint body withToken autorefresh
                         NO_FALLBACK w.
Proof.
  unfold sendRequestToPool_body. destruct conn as [conn|]; [|done].
  destruct (getAndCheckToken _ _); [done|].
  destruct (sendHttpRequest _ _ _ _ _ _ _).1.2; [|done].
  match goal with |- mbind _ ?m = mbind _ ?m => destruct m as [[[[early r] e] w2]|]; [|done] end.
  simpl. destruct early; [done|]. by destruct e.
Qed.

(** C1.  A token-bearing request with auto-refresh enabled whose exchange
    succeeds at the transport level ([Do] returns a response and a nil
    error) with HTTP 401: the dispatcher hands the 401 response to the
    envelope decoder at once.  One request is sent; no refresh, no
    reconnect and no retry follow, and every connection keeps its tokens. *)
Theorem sendRequestToPool_401_no_refresh (c : Client) (conn : ptr)
    (method endpoint : string) (body : option JSON) (fallback : bool) (w : World)
    (resp : Response) (rest : list (option Response * option string)) :
  Token (ConnToken (store w conn)) <> "" ->
  requestOk w method (URL (store w conn) +:+ endpoint) = true ->
  script w = (Some resp, None) :: rest ->
  StatusCode resp = http_StatusUnauthorized ->
  exists w',
    sendRequestToPool c (Some conn) method endpoint body WITH_TOKEN AUTO_REFRESH
                      fallback w
      = (data ← getAndCheckResponseData (Some resp); Done (data, c, w')) /\
    script w' = rest /\
    sent w' = sent w ++
                [mkRequest method (URL (store w conn) +:+ endpoint) body
                           (APIKey (Config c)) (ClientID (Config c))
                           (Some ("Bearer " +:+ Token (ConnToken (store w conn))))] /\
    store w' = store w.
Proof.
  intros Htok Hok Hscript H401.
  apply String.eqb_neq in Htok.
  eexists. split.
  - unfold sendRequestToPool, sendRequestToPool_body, getAndCheckToken,
      sendHttpRequest, createHttpRequest, Do. simpl.
    rewrite Htok, Hok, Hscript. simpl. reflexivity.
  - simpl. done.
Qed.

Lemma sendRequestToPool_401_no_refresh_witness :
  exists w',
    sendRequestToPool client_c1 (Some 1%nat) "POST" "/db/api/query" None
                      WITH_TOKEN AUTO_REFRESH NO_FALLBACK world_c1
      = Done (Err "request error: token expired", client_c1, w') /\
    script w' = [(Some granted, None); (Some answer, None)] /\
    sent w' = [mkRequest "POST" "http://n1/db/api/query" None "k" "id"
                         (Some "Bearer t1")] /\
    store w' = store world_c1.
Proof.
  destruct (sendRequestToPool_401_no_refresh client_c1 1%nat "POST" "/db/api/query"
              None NO_FALLBACK world_c1 unauthorized
              [(Some granted, None); (Some answer, None)])
    as (w' & Hrun & Hscript & Hsent & Hstore); try reflexivity.
  - discriminate.
  - exists w'. repeat split; assumption.
Defined.

(** The refresh and the single retry are there, but behind a non-nil error:
    had [Do] returned the 401 response together with an error, the
    dispatcher would refresh once, retry once and return the data. *)
Example sendRequestToPool_refresh_behind_error :
  match sendRequestToPool client_c1 (Some 1%nat) "POST" "/db/api/query" None
          WITH_TOKEN AUTO_REFRESH NO_FALLBACK
          (mkWorld (store world_c1) 2%nat 1%nat 100 (fun _ _ => true)
                   [(Some unauthorized, Some "unauthorized"); (Some granted, None);
                    (Some answer, None)] [])
  with
  | Done (data, _, w') =>
      (data, rURL <$> sent w', ConnToken (store w' 1%nat))
  | Crash _ => (Err "", [], mkTokenTable "" "")
  end
  = (Ok (JStr "rows"),
     ["http://n1/db/api/query"; "http://n1/db/refresh"; "http://n1/db/api/query"],
     mkTokenTable "t2" "r2").
Proof. vm_compute. reflexivity. Qed.

(** ** Round-robin selection *)


Lemma GetConnection_scan_hit (now : Z) (p : ConnectionPool) (st : Store) (k : nat) (i0 i : Z) r :
  i0 <= i < i0 + Z.of_nat k ->
  (forall j, i0 <= j < i -> GetConnection_at now p st j = None) ->
  GetConnection_at now p st i = Some r ->
  GetConnection_scan now p st k i0 = r.
Proof.
  revert i0. induction k as [|k IH]; intros i0 Hi Hmiss Hhit; simpl; [lia|].
  destruct (decide (i = i0)) as [->|Hne].
  - by rewrite Hhit.
  - rewrite Hmiss by lia. apply IH; [lia | | done].
    intros j Hj. apply Hmiss. lia.
Qed.

Lemma GetConnection_at_node (now : Z) (p : ConnectionPool) (st : Store) (i : Z) :
  0 <= nodeOrderIndex p -> 0 <= i -> 0 < len (nodeOrder p) ->
  exists nodeID,
    scanned p i = Some nodeID /\
    index (nodeOrder p) (Z.rem (nodeOrderIndex p + i) (len (nodeOrder p)))
      = Some nodeID.
Proof.
  intros Hidx Hi Hn. rewrite Z.rem_mod_nonneg by lia.
  destruct (index_in_range (nodeOrder p)
              ((nodeOrderIndex p + i) mod len (nodeOrder p))) as (nodeID & H1 & H2).
  { apply Z.mod_pos_bound. lia. }
  exists nodeID. by split.
Qed.




(** The in-range condition on the cursors is needed, and [Remove] does not
    keep it: after two sessions are added to a node, one is handed out and
    the second is removed, the node's cursor points past its bucket and the
    next [GetConnection] panics. *)
Example GetConnection_after_Remove :
  let st : Store := fun a => mkConnection "http://peer" (mkTokenTable "t" "r") "P1"
                                          false "r" 0%nat 0 0 0 in
  let p0 := Add st (Add st (NewConnectionPool IS_READ 10 1) 1%nat) 2%nat in
  match GetConnection 10 p0 st with
  | Done (Ok _, p1, st1) =>
      let p2 := (Remove st1 p1 2%nat).2 in
      (cursor_at p2 "P1", conns_at p2 "P1", GetConnection 20 p2 st1)
  | _ => (0, [], Crash "")
  end
  = (1, [1%nat], Crash "index out of range").
Proof. vm_compute. reflexivity. Qed.

(** ** Pool size and the ordered node list *)

Lemma total_perm (kvs kvs' : list (string * list ptr)) :
  kvs ≡ₚ kvs' -> total kvs = total kvs'.
Proof.
  induction 1; simpl; lia.
Qed.

Lemma Size_total (p : ConnectionPool) :
  Size p = total (map_to_list (nodeConnections p)).
Proof.
  unfold Size, total. rewrite map_fold_foldr.
  induction (map_to_list (nodeConnections p)) as [|[k v] l IH]; simpl; [done|].
  by rewrite IH.
Qed.

Lemma total_insert (m : gmap string (list ptr)) (k : string) (v : list ptr) :
  total (map_to_list (<[k := v]> m)) =
  total (map_to_list m) - len (default [] (m !! k)) + len v.
Proof.
  destruct (m !! k) as [old|] eqn:Hk; simpl.
  - rewrite <- (insert_delete_eq m k v).
    rewrite (total_perm _ _ (map_to_list_insert (delete k m) k v (lookup_delete_eq m k))).
    rewrite <- (total_perm _ _ (map_to_list_delete m k old Hk)). simpl. lia.
  - rewrite (total_perm _ _ (map_to_list_insert m k v Hk)). simpl.
    rewrite len_nil. lia.
Qed.

Lemma conns_at_ensure_node (p : ConnectionPool) (n : string) :
  conns_at (ensure_node p n) n = conns_at p n.
Proof.
  unfold ensure_node, conns_at. destruct (nodeConnections p !! n) eqn:H.
  - by rewrite H.
  - simpl. by rewrite lookup_insert_eq.
Qed.

Lemma Size_ensure_node (p : ConnectionPool) (n : string) :
  Size (ensure_node p n) = Size p.
Proof.
  unfold ensure_node. destruct (nodeConnections p !! n) eqn:H; [done|].
  rewrite !Size_total. simpl. rewrite total_insert, H. simpl.
  rewrite len_nil. lia.
Qed.

Lemma Size_append_conns (p : ConnectionPool) (n : string) (cs : list ptr) :
  Size (append_conns p n cs) = Size p + len cs.
Proof.
  rewrite !Size_total. unfold append_conns. simpl.
  rewrite total_insert, len_app. unfold conns_at. lia.
Qed.

Lemma Size_AddBatch_loop (kvs : list (string * list ptr)) (p : ConnectionPool) :
  Size (AddBatch_loop p kvs) = Size p + total kvs.
Proof.
  unfold AddBatch_loop. revert p.
  induction kvs as [|kv kvs IH]; intros p; simpl; [lia|].
  rewrite IH, Size_append_conns, Size_ensure_node. lia.
Qed.

Lemma total_group_by_node (st : Store) (conns : list ptr) :
  total (map_to_list (group_by_node st conns)) = len conns.
Proof.
  unfold group_by_node.
  enough (forall acc : gmap string (list ptr),
            total (map_to_list
                     (foldl (fun acc conn =>
                               <[NodeID (st conn) :=
                                   default [] (acc !! NodeID (st conn)) ++ [conn]]> acc)
                            acc conns))
            = total (map_to_list acc) + len conns) as H.
  { rewrite H, map_to_list_empty. simpl. lia. }
  induction conns as [|c conns IH]; intros acc; simpl.
  - rewrite len_nil. lia.
  - rewrite IH, total_insert, len_app. unfold len. simpl. lia.
Qed.

Lemma order_ok_ensure_node (p : ConnectionPool) (n : string) :
  order_ok p -> order_ok (ensure_node p n).
Proof.
  intros [Hnd Hin]. unfold ensure_node.
  destruct (nodeConnections p !! n) eqn:H; [done|].
  split; simpl.
  - apply NoDup_app. split; [done|]. split; [|apply NoDup_singleton].
    intros x Hx Hx'. apply list_elem_of_singleton in Hx' as ->.
    destruct (Hin n Hx) as [? ?]. congruence.
  - intros x Hx. apply elem_of_app in Hx as [Hx|Hx].
    + destruct (decide (n = x)) as [->|Hne].
      * rewrite lookup_insert_eq. eauto.
      * rewrite lookup_insert_ne by done. auto.
    + apply list_elem_of_singleton in Hx as ->. rewrite lookup_insert_eq. eauto.
Qed.

Lemma order_ok_append_conns (p : ConnectionPool) (n : string) (cs : list ptr) :
  order_ok p -> order_ok (append_conns p n cs).
Proof.
  intros [Hnd Hin]. split; simpl; [done|].
  intros x Hx. destruct (decide (n = x)) as [->|Hne].
  - rewrite lookup_insert_eq. eauto.
  - rewrite lookup_insert_ne by done. auto.
Qed.

Lemma order_ok_AddBatch_loop (kvs : list (string * list ptr)) (p : ConnectionPool) :
  order_ok p -> order_ok (AddBatch_loop p kvs).
Proof.
  unfold AddBatch_loop. revert p.
  induction kvs as [|kv kvs IH]; intros p Hp; simpl; [done|].
  apply IH. by apply order_ok_append_conns, order_ok_ensure_node.
Qed.

(** C7.  Whatever the order [kvs] in which the groups of the batch are
    visited, [AddBatch] increases the size of the pool by exactly the
    number of sessions of the batch, and if the node ids of the ordered
    list were distinct (each with its bucket) they still are. *)
Theorem AddBatch_size_and_order (st : Store) (kvs : list (string * list ptr))
    (p : ConnectionPool) (conns : list ptr) :
  visits (group_by_node st conns) kvs ->
  order_ok p ->
  Size (AddBatch st kvs p conns) = Size p + len conns /\
  NoDup (nodeOrder (AddBatch st kvs p conns)) /\
  order_ok (AddBatch st kvs p conns).
Proof.
  intros Hv Hok. unfold AddBatch.
  destruct (Z.eqb_spec (len conns) 0) as [H0|H0].
  - split; [lia|]. split; [apply Hok | done].
  - split.
    + rewrite Size_AddBatch_loop, (total_perm _ _ Hv), total_group_by_node. done.
    + pose proof (order_ok_AddBatch_loop kvs p Hok) as H. split; [apply H | done].
Qed.

Lemma AddBatch_size_and_order_witness :
  let kvs := map_to_list (group_by_node store_c7 [5%nat; 7%nat; 6%nat]) in
  Size (AddBatch store_c7 kvs pool_c4 [5%nat; 7%nat; 6%nat]) = Size pool_c4 + 3 /\
  NoDup (nodeOrder (AddBatch store_c7 kvs pool_c4 [5%nat; 7%nat; 6%nat])) /\
  order_ok (AddBatch store_c7 kvs pool_c4 [5%nat; 7%nat; 6%nat]).
Proof.
  apply (AddBatch_size_and_order store_c7
           (map_to_list (group_by_node store_c7 [5%nat; 7%nat; 6%nat]))
           pool_c4 [5%nat; 7%nat; 6%nat]).
  - unfold visits. reflexivity.
  - split.
    + apply (bool_decide_unpack _). vm_compute. reflexivity.
    + intros n Hin. simpl in Hin.
      apply elem_of_cons in Hin as [->|Hin]; [eexists; reflexivity|].
      apply elem_of_cons in Hin as [->|Hin]; [eexists; reflexivity|].
      by apply not_elem_of_nil in Hin.
Defined.

Example AddBatch_new_node_appended :
  nodeOrder (AddBatch store_c7
               (map_to_list (group_by_node store_c7 [5%nat; 7%nat; 6%nat]))
               pool_c4 [5%nat; 7%nat; 6%nat]) = ["P1"; "P2"; "P3"] /\
  conns_at (AddBatch store_c7
              (map_to_list (group_by_node store_c7 [5%nat; 7%nat; 6%nat]))
              pool_c4 [5%nat; 7%nat; 6%nat]) "P1" = [1%nat; 2%nat; 5%nat; 6%nat].
Proof. split; vm_compute; reflexivity. Qed.

(** ** Reaping idle sessions *)

Lemma wrap64_le (z : Z) : 0 <= z -> wrap64 z <= z.
Proof.
  intros Hz. unfold wrap64.
  pose proof (Z.mod_le (z + 2 ^ 63) (2 ^ 64) ltac:(lia) ltac:(lia)). lia.
Qed.

Lemma split_idle_filter (st : Store) (now t : Z) (conns : list ptr) :
  split_idle st now t conns =
  (filter (fun c => is_idle st now t c = false) conns,
   filter (fun c => is_idle st now t c = true) conns).
Proof.
  unfold split_idle.
  enough (forall acc : list ptr * list ptr,
            foldl (fun acc conn =>
                     if is_idle st now t conn
                     then (acc.1, acc.2 ++ [conn])
                     else (acc.1 ++ [conn], acc.2)) acc conns
            = (acc.1 ++ filter (fun c => is_idle st now t c = false) conns,
               acc.2 ++ filter (fun c => is_idle st now t c = true) conns)) as H.
  { by rewrite H. }
  induction conns as [|c conns IH]; intros [a i]; simpl.
  - by rewrite !app_nil_r.
  - rewrite IH. rewrite !filter_cons.
    destruct (is_idle st now t c) eqn:Hc; simpl.
    + destruct (decide (true = false)); [done|].
      destruct (decide (true = true)); [|done].
      by rewrite <- app_assoc.
    + destruct (decide (false = false)); [|done].
      destruct (decide (false = true)); [done|].
      by rewrite <- app_assoc.
Qed.

Lemma split_idle_len (st : Store) (now t : Z) (conns : list ptr) :
  len (split_idle st now t conns).1 + len (split_idle st now t conns).2 = len conns.
Proof.
  rewrite split_idle_filter. simpl. unfold len.
  induction conns as [|c conns IH]; simpl; [done|].
  rewrite !filter_cons.
  destruct (is_idle st now t c); simpl.
  - destruct (decide (true = false)); [done|].
    destruct (decide (true = true)); [|done]. simpl. lia.
  - destruct (decide (false = false)); [|done].
    destruct (decide (false = true)); [done|]. simpl. lia.
Qed.

Lemma reap_node_bucket (st : Store) (now t m : Z) (acc : Z * ConnectionPool)
    (kv : string * list ptr) :
  (reap_node st now t m acc kv).2 =
  match reap_bucket st now t m kv.2 with
  | None => acc.2
  | Some new => reaped_pool acc.2 kv.1 new
  end.
Proof.
  unfold reap_node, reap_bucket, reaped_pool.
  destruct (len kv.2 <=? m); [done|].
  set (si := split_idle st now t kv.2).
  set (willRemove := Z.min (len si.2) (wrap64 (len kv.2 - m))).
  destruct (Z.leb_spec willRemove 0) as [Hle|Hlt]; [done|].
  assert ((if 0 <? len si.2 - willRemove
           then si.1 ++ take (Z.to_nat (len si.2 - willRemove)) si.2
           else si.1)
          = si.1 ++ take (Z.to_nat (len si.2 - willRemove)) si.2) as ->.
  { destruct (Z.ltb_spec 0 (len si.2 - willRemove)) as [H|H]; [done|].
    replace (Z.to_nat (len si.2 - willRemove)) with O by lia.
    by rewrite take_0, app_nil_r. }
  by destruct (len (si.1 ++ _) =? 0).
Qed.

(** The new list of a reaped bucket: nothing new, only idle sessions gone,
    every active session kept, at least the minimum left, and shorter
    than before. *)
Lemma reap_bucket_Some (st : Store) (now t m : Z) (conns new : list ptr) :
  reap_bucket st now t m conns = Some new ->
  (forall c, c ∈ new -> c ∈ conns) /\
  (forall c, c ∈ conns -> c ∉ new -> is_idle st now t c = true) /\
  (forall c, c ∈ conns -> is_idle st now t c = false -> c ∈ new) /\
  m <= len new /\
  len new < len conns.
Proof.
  unfold reap_bucket.
  destruct (Z.leb_spec (len conns) m) as [|Hm]; [done|].
  pose proof (split_idle_len st now t conns) as Hlen.
  rewrite split_idle_filter in *. simpl in *.
  set (active := filter (fun c => is_idle st now t c = false) conns) in *.
  set (idle := filter (fun c => is_idle st now t c = true) conns) in *.
  set (willRemove := Z.min (len idle) (wrap64 (len conns - m))).
  destruct (Z.leb_spec willRemove 0) as [|Hw]; [done|].
  intros [= <-].
  pose proof (wrap64_le (len conns - m) ltac:(lia)) as Hwrap.
  assert (len (active ++ take (Z.to_nat (len idle - willRemove)) idle)
          = len conns - willRemove) as Hnew.
  { rewrite len_app. unfold len at 2. rewrite length_take_le; unfold len in *; lia. }
  repeat split.
  - intros c Hc. apply elem_of_app in Hc as [Hc|Hc].
    + by apply list_elem_of_filter in Hc as [_ Hc].
    + apply subseteq_take in Hc. by apply list_elem_of_filter in Hc as [_ Hc].
  - intros c Hc Hnot. destruct (is_idle st now t c) eqn:Hidle; [done|].
    exfalso. apply Hnot, elem_of_app. left. by apply list_elem_of_filter.
  - intros c Hc Hidle. apply elem_of_app. left. by apply list_elem_of_filter.
  - lia.
  - lia.
Qed.

Lemma find_node_not_in (n : string) (l : list string) :
  find_node n l = None -> n ∉ l.
Proof.
  induction l as [|id l IH]; simpl; [intros _; apply not_elem_of_nil|].
  destruct (String.eqb_spec id n) as [->|Hne]; [done|].
  destruct (find_node n l); [done|]. intros _.
  apply not_elem_of_cons. split; [congruence | by apply IH].
Qed.

Lemma find_node_cut (n : string) (l : list string) (i : nat) :
  NoDup l -> find_node n l = Some i -> n ∉ cut i l.
Proof.
  revert i. induction l as [|id l IH]; intros i Hnd; simpl; [done|].
  apply NoDup_cons in Hnd as [Hid Hnd].
  destruct (String.eqb_spec id n) as [->|Hne].
  - intros [= <-]. unfold cut. simpl. by rewrite drop_0.
  - destruct (find_node n l) as [j|] eqn:Hj; [|done]. intros [= <-].
    unfold cut. simpl. apply not_elem_of_cons. split; [congruence|].
    by apply IH.
Qed.

Lemma cut_sublist {A} (i : nat) (l : list A) : cut i l `sublist_of` l.
Proof. unfold cut. rewrite <- delete_take_drop. apply sublist_delete. Qed.

Lemma drop_from_order_sublist (n : string) (l : list string) (idx : Z) :
  (drop_from_order n l idx).1 `sublist_of` l.
Proof.
  unfold drop_from_order. destruct (find_node n l); simpl; [apply cut_sublist | done].
Qed.

Lemma drop_from_order_not_in (n : string) (l : list string) (idx : Z) :
  NoDup l -> n ∉ (drop_from_order n l idx).1.
Proof.
  intros Hnd. unfold drop_from_order.
  destruct (find_node n l) as [i|] eqn:Hi; simpl.
  - by apply find_node_cut.
  - by apply find_node_not_in.
Qed.

Lemma reaped_pool_at (p : ConnectionPool) (k : string) (new : list ptr) :
  conns_at (reaped_pool p k new) k = new /\
  (new = [] ->
   nodeConnections (reaped_pool p k new) !! k = None /\
   nodeRoundRobinIndices (reaped_pool p k new) !! k = None /\
   (NoDup (nodeOrder p) -> k ∉ nodeOrder (reaped_pool p k new))) /\
  (new <> [] -> nodeConnections (reaped_pool p k new) !! k = Some new) /\
  cursor_at (reaped_pool p k new) k =
    (if (len new =? 0) || (len new <=? cursor_at p k) then 0 else cursor_at p k).
Proof.
  unfold reaped_pool, conns_at, cursor_at.
  destruct (Z.eqb_spec (len new) 0) as [H0|H0]; simpl.
  - apply len_nil_iff in H0 as ->. rewrite !lookup_delete_eq. simpl.
    repeat split; try done.
    intros Hnd. by apply drop_from_order_not_in.
  - assert (new <> []) as Hne by (intros ->; by rewrite len_nil in H0).
    rewrite lookup_insert_eq. simpl. repeat split; try done.
    destruct (len new <=? _); [by rewrite lookup_insert_eq | done].
Qed.

Lemma reaped_pool_frame (p : ConnectionPool) (k k' : string) (new : list ptr) :
  k' <> k ->
  nodeConnections (reaped_pool p k new) !! k' = nodeConnections p !! k' /\
  nodeRoundRobinIndices (reaped_pool p k new) !! k' = nodeRoundRobinIndices p !! k'.
Proof.
  intros Hne. unfold reaped_pool.
  destruct (len new =? 0); simpl;
    destruct (len new <=? cursor_at p k);
    rewrite ?lookup_delete_ne, ?lookup_insert_ne by done; done.
Qed.

Lemma reaped_pool_order (p : ConnectionPool) (k : string) (new : list ptr) :
  nodeOrder (reaped_pool p k new) `sublist_of` nodeOrder p.
Proof.
  unfold reaped_pool. destruct (len new =? 0); simpl; [|done].
  apply drop_from_order_sublist.
Qed.

Section reap_fold.
Variables (st : Store) (now t m : Z).

Let F := reap_node st now t m.

Lemma reap_node_frame (acc : Z * ConnectionPool) (kv : string * list ptr) (k : string) :
  k <> kv.1 ->
  nodeConnections (F acc kv).2 !! k = nodeConnections acc.2 !! k /\
  nodeRoundRobinIndices (F acc kv).2 !! k = nodeRoundRobinIndices acc.2 !! k.
Proof.
  intros Hne. unfold F. rewrite reap_node_bucket.
  destruct (reap_bucket _ _ _ _ _); [by apply reaped_pool_frame | done].
Qed.

Lemma reap_node_order (acc : Z * ConnectionPool) (kv : string * list ptr) :
  nodeOrder (F acc kv).2 `sublist_of` nodeOrder acc.2.
Proof.
  unfold F. rewrite reap_node_bucket.
  destruct (reap_bucket _ _ _ _ _); [apply reaped_pool_order | done].
Qed.

Lemma reap_fold_frame (kvs : list (string * list ptr)) (acc : Z * ConnectionPool)
    (k : string) :
  k ∉ kvs.*1 ->
  nodeConnections (foldl F acc kvs).2 !! k = nodeConnections acc.2 !! k /\
  nodeRoundRobinIndices (foldl F acc kvs).2 !! k = nodeRoundRobinIndices acc.2 !! k.
Proof.
  revert acc. induction kvs as [|kv kvs IH]; intros acc Hk; simpl; [done|].
  rewrite fmap_cons in Hk. apply not_elem_of_cons in Hk as [Hne Hk].
  destruct (IH (F acc kv) Hk) as [-> ->]. by apply reap_node_frame.
Qed.

Lemma reap_fold_order (kvs : list (string * list ptr)) (acc : Z * ConnectionPool) :
  nodeOrder (foldl F acc kvs).2 `sublist_of` nodeOrder acc.2.
Proof.
  revert acc. induction kvs as [|kv kvs IH]; intros acc; simpl; [done|].
  etrans; [apply IH | apply reap_node_order].
Qed.

(** The final state at a visited key is the state right after its visit,
    and that visit found the key as it was at the start. *)
Lemma reap_fold_at (kvs : list (string * list ptr)) (acc : Z * ConnectionPool)
    (k : string) (conns : list ptr) :
  NoDup kvs.*1 -> (k, conns) ∈ kvs ->
  exists acc1 : Z * ConnectionPool,
    nodeConnections acc1.2 !! k = nodeConnections acc.2 !! k /\
    nodeRoundRobinIndices acc1.2 !! k = nodeRoundRobinIndices acc.2 !! k /\
    nodeOrder acc1.2 `sublist_of` nodeOrder acc.2 /\
    nodeConnections (foldl F acc kvs).2 !! k
      = nodeConnections (F acc1 (k, conns)).2 !! k /\
    nodeRoundRobinIndices (foldl F acc kvs).2 !! k
      = nodeRoundRobinIndices (F acc1 (k, conns)).2 !! k /\
    nodeOrder (foldl F acc kvs).2 `sublist_of` nodeOrder (F acc1 (k, conns)).2.
Proof.
  intros Hnd Hin.
  apply list_elem_of_split in Hin as (l1 & l2 & ->).
  rewrite fmap_app, fmap_cons in Hnd. simpl in Hnd.
  apply NoDup_app in Hnd as (_ & Hl1 & Hnd).
  apply NoDup_cons in Hnd as [Hl2 _].
  assert (k ∉ l1.*1) as Hk1 by (intros H; apply (Hl1 k H); left).
  exists (foldl F acc l1).
  destruct (reap_fold_frame l1 acc k Hk1) as [-> ->].
  rewrite foldl_app. simpl.
  destruct (reap_fold_frame l2 (F (foldl F acc l1) (k, conns)) k Hl2) as [-> ->].
  repeat split; try done; apply reap_fold_order.
Qed.
End reap_fold.



Example RemoveIdleConnections_run :
  let r := RemoveIdleConnections store_c6 1000 300 2
             (map_to_list (nodeConnections pool_c6)) pool_c6 in
  (r.1, conns_at r.2 "P1", cursor_at r.2 "P1", conns_at r.2 "P2", nodeOrder r.2)
  = (1, [1%nat; 2%nat], 0, [4%nat], ["P1"; "P2"]).
Proof. vm_compute. reflexivity. Qed.

(** With no minimum every idle session goes, and a node left without
    sessions leaves the mapping and the ordered list. *)
Example RemoveIdleConnections_empties :
  let st : Store := fun a => mkConnection "http://peer" (mkTokenTable "t" "r")
                               (if Nat.leb a 3 then "P1" else "P2")
                               false "r" 0%nat (if Nat.leb a 3 then 0 else 990) 0 0 in
  let r := RemoveIdleConnections st 1000 300 0
             (map_to_list (nodeConnections pool_c6)) pool_c6 in
  (r.1, nodeConnections r.2 !! "P1", nodeRoundRobinIndices r.2 !! "P1",
   nodeOrder r.2, conns_at r.2 "P2")
  = (3, None, None, ["P2"], [4%nat]).
Proof. vm_compute. reflexivity. Qed.

(** ** Cleanup and the per-node statistics *)

Lemma elem_of_keys {V} (m : gmap string V) (k : string) :
  k ∈ (map_to_list m).*1 <-> is_Some (m !! k).
Proof.
  rewrite list_elem_of_fmap. split.
  - intros ([k' v] & -> & Hin). apply elem_of_map_to_list in Hin. simpl. eauto.
  - intros [v Hv]. exists (k, v). split; [done|]. by apply elem_of_map_to_list.
Qed.

Lemma cleanup_stats_step_present (from_write : bool) (now : Z) (c : Client)
    (k : string) (s : ConnectionStats) :
  statsPerNodeRead c !! k = Some s ->
  cleanup_stats_step from_write now c k =
  with_stats c
    (<[k := scaled_down s
              (if from_write then SizeForNode (writePool c) k
               else SizeForNode (readPool c) k) now]> (statsPerNodeRead c))
    (statsPerNodeWrite c).
Proof.
  intros Hs. unfold cleanup_stats_step, getOrCreateNodeStats, put_stats, IS_READ.
  rewrite Hs. simpl. reflexivity.
Qed.

Lemma cleanup_stats_fold (from_write : bool) (now : Z) (ord : list string) (c : Client) :
  NoDup ord ->
  (forall k, k ∈ ord -> is_Some (statsPerNodeRead c !! k)) ->
  let c' := foldl (cleanup_stats_step from_write now) c ord in
  readPool c' = readPool c /\
  writePool c' = writePool c /\
  statsPerNodeWrite c' = statsPerNodeWrite c /\
  forall k,
    statsPerNodeRead c' !! k =
    if bool_decide (k ∈ ord)
    then (fun s => scaled_down s
                     (if from_write then SizeForNode (writePool c) k
                      else SizeForNode (readPool c) k) now)
           <$> statsPerNodeRead c !! k
    else statsPerNodeRead c !! k.
Proof.
  revert c. induction ord as [|k0 ord IH]; intros c Hnd Hin; simpl.
  - repeat split; try done.
  - apply NoDup_cons in Hnd as [Hk0 Hnd].
    destruct (Hin k0 ltac:(left)) as [s0 Hs0].
    rewrite (cleanup_stats_step_present _ _ _ _ _ Hs0).
    set (c1 := with_stats c _ _).
    destruct (IH c1 Hnd) as (Hr & Hw & Hsw & Hall).
    { intros k Hk. subst c1. simpl.
      destruct (decide (k0 = k)) as [->|Hne].
      - rewrite lookup_insert_eq. eauto.
      - rewrite lookup_insert_ne by done. apply Hin. by right. }
    repeat split; try done.
    intros k. rewrite Hall. subst c1. simpl.
    destruct (decide (k = k0)) as [->|Hne].
    + rewrite (bool_decide_eq_false_2 _ Hk0).
      rewrite (bool_decide_eq_true_2 (k0 ∈ k0 :: ord)) by left.
      rewrite lookup_insert_eq, Hs0. done.
    + rewrite lookup_insert_ne by done.
      destruct (decide (k ∈ ord)) as [Hk|Hk].
      * rewrite (bool_decide_eq_true_2 _ Hk).
        rewrite (bool_decide_eq_true_2 (k ∈ k0 :: ord)) by (by right). done.
      * rewrite (bool_decide_eq_false_2 _ Hk).
        rewrite (bool_decide_eq_false_2 (k ∈ k0 :: ord)); [done|].
        intros H. apply elem_of_cons in H as [?|?]; done.
Qed.

(** C9.  When the cleanup removed idle read-pool sessions, every entry of
    the read-intent statistics gets as its connection counter the size of
    the WRITE pool for its node; when it removed idle write-pool sessions,
    every entry of the read-intent statistics (again) gets the size of the
    READ pool for its node; each update stamps the scale-down and cleanup
    times and counts one scale-down event.  The write-intent statistics
    are never touched.  This holds for every order in which the loops
    visit the buckets and the statistics. *)
Theorem cleanupIdleConnections_stats (ordR ordW : list (string * list ptr))
    (ord1 ord2 : list string) (c : Client) (w : World) :
  is_Some (status c) ->
  ord1 ≡ₚ (map_to_list (statsPerNodeRead c)).*1 ->
  ord2 ≡ₚ (map_to_list (statsPerNodeRead c)).*1 ->
  let now := clock w in
  let rr := RemoveIdleConnections (store w) now (IdleTimeout (poolConfig c))
                                  (MinPoolSize (poolConfig c)) ordR (readPool c) in
  let wr := RemoveIdleConnections (store w) now (IdleTimeout (poolConfig c))
                                  (MinPoolSize (poolConfig c)) ordW (writePool c) in
  let c' := cleanupIdleConnections ordR ordW ord1 ord2 c w in
  readPool c' = rr.2 /\
  writePool c' = wr.2 /\
  statsPerNodeWrite c' = statsPerNodeWrite c /\
  (forall nodeID,
     statsPerNodeRead c' !! nodeID =
     (fun s =>
        let s1 := if 0 <? rr.1
                  then scaled_down s (SizeForNode (writePool c') nodeID) now else s in
        if 0 <? wr.1
        then scaled_down s1 (SizeForNode (readPool c') nodeID) now else s1)
       <$> statsPerNodeRead c !! nodeID) /\
  (forall nodeID s',
     statsPerNodeRead c' !! nodeID = Some s' ->
     (0 < rr.1 -> wr.1 <= 0 ->
      CurrentConnections s' = SizeForNode (writePool c') nodeID) /\
     (0 < wr.1 ->
      CurrentConnections s' = SizeForNode (readPool c') nodeID)).
Proof.
  intros [st0 Hst] H1 H2 now rr wr c'.
  assert (forall ord : list string, ord ≡ₚ (map_to_list (statsPerNodeRead c)).*1 ->
            NoDup ord /\ forall k, k ∈ ord <-> is_Some (statsPerNodeRead c !! k)) as Hord.
  { intros ord Hp. split.
    - rewrite Hp. apply NoDup_fst_map_to_list.
    - intros k. rewrite Hp. apply elem_of_keys. }
  destruct (Hord ord1 H1) as [Hnd1 Hin1]. destruct (Hord ord2 H2) as [Hnd2 Hin2].
  set (c1 := with_pools c rr.2 wr.2).
  set (c2 := if 0 <? rr.1 then foldl (cleanup_stats_step true now) c1 ord1 else c1).
  assert (c' = if 0 <? wr.1 then foldl (cleanup_stats_step false now) c2 ord2 else c2)
    as Hc'.
  { unfold c', cleanupIdleConnections. by rewrite Hst. }
  (* the first loop *)
  assert (readPool c2 = rr.2 /\ writePool c2 = wr.2 /\
          statsPerNodeWrite c2 = statsPerNodeWrite c /\
          forall k, statsPerNodeRead c2 !! k =
                    (fun s => if 0 <? rr.1
                              then scaled_down s (SizeForNode wr.2 k) now else s)
                      <$> statsPerNodeRead c !! k) as (Hr2 & Hw2 & Hsw2 & Hs2).
  { unfold c2. destruct (0 <? rr.1).
    - destruct (cleanup_stats_fold true now ord1 c1 Hnd1) as (Hr & Hw & Hsw & Hall).
      { intros k Hk. by apply Hin1. }
      repeat split; try done. intros k. rewrite Hall. simpl.
      destruct (decide (k ∈ ord1)) as [Hk|Hk].
      + by rewrite (bool_decide_eq_true_2 _ Hk).
      + rewrite (bool_decide_eq_false_2 _ Hk).
        destruct (statsPerNodeRead c !! k) eqn:Hl; [|done].
        exfalso. apply Hk, Hin1. eauto.
    - repeat split; try done. intros k. simpl.
      by destruct (statsPerNodeRead c !! k). }
  (* the second loop *)
  assert (readPool c' = rr.2 /\ writePool c' = wr.2 /\
          statsPerNodeWrite c' = statsPerNodeWrite c /\
          forall k, statsPerNodeRead c' !! k =
                    (fun s => if 0 <? wr.1
                              then scaled_down s (SizeForNode rr.2 k) now else s)
                      <$> statsPerNodeRead c2 !! k) as (Hr' & Hw' & Hsw' & Hs').
  { rewrite Hc'. destruct (0 <? wr.1).
    - destruct (cleanup_stats_fold false now ord2 c2 Hnd2) as (Hr & Hw & Hsw & Hall).
      { intros k Hk. rewrite Hs2. apply Hin2 in Hk as [s ->]. simpl. eauto. }
      rewrite Hr, Hw, Hsw. repeat split; try done. intros k. rewrite Hall, Hr2.
      destruct (decide (k ∈ ord2)) as [Hk|Hk].
      + by rewrite (bool_decide_eq_true_2 _ Hk).
      + rewrite (bool_decide_eq_false_2 _ Hk).
        destruct (statsPerNodeRead c2 !! k) eqn:Hl; [|done].
        exfalso. apply Hk, Hin2. rewrite Hs2 in Hl.
        destruct (statsPerNodeRead c !! k); [eauto | done].
    - repeat split; try done. intros k.
      by destruct (statsPerNodeRead c2 !! k). }
  assert (forall nodeID,
     statsPerNodeRead c' !! nodeID =
     (fun s =>
        let s1 := if 0 <? rr.1
                  then scaled_down s (SizeForNode (writePool c') nodeID) now else s in
        if 0 <? wr.1
        then scaled_down s1 (SizeForNode (readPool c') nodeID) now else s1)
       <$> statsPerNodeRead c !! nodeID) as Hall.
  { intros k. rewrite Hs', Hs2, Hr', Hw'.
    by destruct (statsPerNodeRead c !! k). }
  repeat split; try done.
  - rewrite Hall in H. destruct (statsPerNodeRead c !! nodeID) as [s|]; [|done].
    simpl in H. injection H as <-. intros Hrr Hwr.
    assert ((0 <? rr.1) = true) as -> by (by apply Z.ltb_lt).
    assert ((0 <? wr.1) = false) as -> by (by apply Z.ltb_ge).
    reflexivity.
  - rewrite Hall in H. destruct (statsPerNodeRead c !! nodeID) as [s|]; [|done].
    simpl in H. injection H as <-. intros Hwr.
    assert ((0 <? wr.1) = true) as -> by (by apply Z.ltb_lt).
    reflexivity.
Qed.

(** The read pool loses one idle session of P1 and keeps two; the entry of
    P1 in the read statistics is nevertheless set to 1, the size of the
    write pool for P1. *)
Lemma cleanupIdleConnections_stats_witness :
  let c' := cleanupIdleConnections
              (map_to_list (nodeConnections (readPool client_c9)))
              (map_to_list (nodeConnections (writePool client_c9)))
              (map_to_list (statsPerNodeRead client_c9)).*1
              (map_to_list (statsPerNodeRead client_c9)).*1
              client_c9 world_c9 in
  SizeForNode (readPool c') "P1" = 2 /\
  SizeForNode (writePool c') "P1" = 1 /\
  statsPerNodeWrite c' = statsPerNodeWrite client_c9 /\
  CurrentConnections <$> statsPerNodeRead c' !! "P1" = Some 1.
Proof.
  intros c'.
  destruct (cleanupIdleConnections_stats
              (map_to_list (nodeConnections (readPool client_c9)))
              (map_to_list (nodeConnections (writePool client_c9)))
              (map_to_list (statsPerNodeRead client_c9)).*1
              (map_to_list (statsPerNodeRead client_c9)).*1
              client_c9 world_c9)
    as (Hr & Hw & Hsw & Hall & Hcur).
  - eexists. reflexivity.
  - reflexivity.
  - reflexivity.
  - fold c' in Hr, Hw, Hsw, Hall, Hcur.
    split; [vm_compute; reflexivity|]. split; [vm_compute; reflexivity|].
    split; [exact Hsw|].
    destruct (statsPerNodeRead c' !! "P1") as [s'|] eqn:Hs'.
    + destruct (Hcur "P1" s' Hs') as [H1 _]. simpl. f_equal.
      rewrite H1; [vm_compute; reflexivity | vm_compute; reflexivity
                   | vm_compute; discriminate].
    + exfalso. rewrite Hall in Hs'. vm_compute in Hs'. discriminate.
Defined.

(** ** Scale-up of the write pool *)

Lemma sendHttpRequest_inv (conn : ptr) (method endpoint : string)
    (data : option JSON) (config : ClientConfig) (withToken : bool) (w : World) :
  let r := sendHttpRequest conn method endpoint data config withToken w in
  store r.2 = store w /\ next r.2 = next w /\
  (well_behaved w -> well_behaved r.2 /\ r.1 <> (None, None)).
Proof.
  unfold sendHttpRequest, well_behaved.
  destruct (createHttpRequest _ _ _ _ _ _); simpl.
  - unfold Do. destruct (script w) as [|[resp err] rest] eqn:Hs; simpl.
    + repeat split; try done.
    + repeat split; try done.
      * by apply Forall_cons in H as [_ H].
      * apply Forall_cons in H as [H _]. done.
  - repeat split; try done.
Qed.

(** [newOrRefreshToken] with [CALL_CONNECT] changes the token and the
    refresh time of its connection only, and panics only when the
    transport breaks its contract. *)
Lemma newOrRefreshToken_connect (conn : ptr) (config : ClientConfig) (w : World) :
  match newOrRefreshToken conn config CALL_CONNECT w with
  | Done (_, w') =>
      next w' = next w /\
      (forall a, NodeID (store w' a) = NodeID (store w a)) /\
      (well_behaved w -> well_behaved w')
  | Crash _ => ~ well_behaved w
  end.
Proof.
  unfold newOrRefreshToken, CALL_CONNECT.
  pose proof (sendHttpRequest_inv conn "POST" "/db/connect"
                (Some (userCredentialsFromConfig config)) config NO_TOKEN w) as Hr.
  simpl in Hr.
  destruct (sendHttpRequest conn "POST" "/db/connect" _ config NO_TOKEN w)
    as [[resp err] w1].
  simpl in *. destruct Hr as (Hst & Hnx & Hwb).
  destruct err as [e|]; simpl.
  - repeat split; try done; [by rewrite Hst | intros H; by apply Hwb].
  - destruct resp as [resp|]; simpl.
    + destruct (Body resp) as [env|]; simpl;
        [|repeat split; try done; [by rewrite Hst | intros H; by apply Hwb]].
      destruct (Status env =? http_StatusOK); simpl;
        [|repeat split; try done; [by rewrite Hst | intros H; by apply Hwb]].
      destruct (convertDataToToken (Data env)) as [tok [e|]];
        [repeat split; try done; [by rewrite Hst | intros H; by apply Hwb]|].
      simpl. repeat split; try done.
      * intros a. unfold store_set. destruct (Nat.eqb a conn) eqn:Ha.
        -- apply Nat.eqb_eq in Ha as ->. simpl. by rewrite Hst.
        -- by rewrite Hst.
      * intros H. by apply Hwb.
    + intros H. destruct (Hwb H) as [_ Hne]. done.
Qed.

Lemma same_but_clients_refl (c : Client) : same_but_clients c c.
Proof.
  exists (nodeHTTPClients (readPool c)), (nodeHTTPClients (writePool c)).
  destruct c as [cfg con l [] [] pc sr sw st t d]. reflexivity.
Qed.

Lemma same_but_clients_trans (c c1 c2 : Client) :
  same_but_clients c c1 -> same_but_clients c1 c2 -> same_but_clients c c2.
Proof.
  intros (mr & mw & ->) (mr' & mw' & ->). by exists mr', mw'.
Qed.

Lemma getOrCreateNodeHTTPClient_inv (c : Client) (nodeID : string) (w : World) :
  let r := getOrCreateNodeHTTPClient c nodeID w in
  same_but_clients c r.1.2 /\ store r.2 = store w /\ next r.2 = next w /\
  script r.2 = script w.
Proof.
  unfold getOrCreateNodeHTTPClient.
  destruct (nodeHTTPClients (readPool c) !! nodeID); simpl.
  - split; [apply same_but_clients_refl | done].
  - split; [|done]. by eexists _, _.
Qed.

Lemma createAndConnectNewConnection_inv (c : Client) (url nodeID mode : string)
    (leader : bool) (w : World) :
  match createAndConnectNewConnection c url nodeID mode leader w with
  | Done (r, c1, w1) =>
      next w1 = S (next w) /\
      (forall a, (a < next w)%nat -> NodeID (store w1 a) = NodeID (store w a)) /\
      (forall conn, r = Ok conn ->
                    conn = next w /\ NodeID (store w1 conn) = node_or_leader nodeID) /\
      same_but_clients c c1 /\
      (well_behaved w -> well_behaved w1)
  | Crash _ => ~ well_behaved w
  end.
Proof.
  unfold createAndConnectNewConnection.
  set (pre := if NodeUseMultiClient (poolConfig c) then _ else _).
  assert (exists c1 w0,
            pre = (next w, c1, w0) /\ same_but_clients c c1 /\
            next w0 = S (next w) /\ script w0 = script w /\
            (forall a, (a < next w)%nat -> NodeID (store w0 a) = NodeID (store w a)) /\
            NodeID (store w0 (next w)) = node_or_leader nodeID)
    as (c1 & w0 & -> & Hsame & Hnx & Hscr & Hold & Hnew).
  { subst pre. destruct (NodeUseMultiClient (poolConfig c)).
    - eexists _, _. split; [reflexivity|].
      split; [apply same_but_clients_refl|]. simpl.
      repeat split; try done.
      + intros a Ha. unfold store_set.
        destruct (Nat.eqb_spec a (next w)); [lia | done].
      + unfold store_set. by rewrite Nat.eqb_refl.
    - pose proof (getOrCreateNodeHTTPClient_inv c nodeID w) as H. simpl in H.
      destruct (getOrCreateNodeHTTPClient c nodeID w) as [[hc c1] w1].
      simpl in H. destruct H as (Hsame & Hst & Hnx & Hscr).
      exists c1, (NewConnectionWithClient (Config c) url nodeID mode leader
                    (mkTokenTable "" "") hc w1).2.
      simpl. rewrite Hnx, Hst. split; [reflexivity|].
      split; [done|]. repeat split; try done.
      + intros a Ha. unfold store_set.
        destruct (Nat.eqb_spec a (next w)); [lia | done].
      + unfold store_set. by rewrite Nat.eqb_refl. }
  pose proof (newOrRefreshToken_connect (next w) (Config c1) w0) as Htok.
  destruct (newOrRefreshToken (next w) (Config c1) CALL_CONNECT w0)
    as [[err w2]|e]; simpl.
  - destruct Htok as (Hnx2 & Hid & Hwb).
    assert (well_behaved w -> well_behaved w2) as Hwb'.
    { intros H. apply Hwb. unfold well_behaved. by rewrite Hscr. }
    destruct err; simpl; repeat split; try done; try congruence.
    + intros a Ha. rewrite Hid. by apply Hold.
    + intros a Ha. rewrite Hid. by apply Hold.
  - intros H. apply Htok. unfold well_behaved. by rewrite Hscr.
Qed.






Lemma getOrCreateNodeStats_pools (c : Client) (n : string) (isWrite : bool) (now : Z) :
  let c' := (getOrCreateNodeStats c n isWrite now).2 in
  readPool c' = readPool c /\ writePool c' = writePool c /\
  poolConfig c' = poolConfig c /\ status c' = status c.
Proof.
  unfold getOrCreateNodeStats.
  destruct isWrite; [destruct (statsPerNodeWrite c !! n) | destruct (statsPerNodeRead c !! n)];
    simpl; done.
Qed.


(** [NewClient] builds both pools with the configured write ceiling, and
    [NewConnection] never leaves the node id empty. *)
Lemma NewClient_write_ceiling (config : ClientConfig) (pc : PoolConfig) (w : World) :
  let c := (NewClient config pc w).1 in
  maxWritePool (readPool c) = MaxWritePoolSize (poolConfig c) /\
  forall n, SizeForNode (writePool c) n = 0.
Proof.
  simpl. split; [done|]. intros n. unfold SizeForNode. simpl. by rewrite lookup_empty.
Qed.



(** The batch size is 3 and the ceiling 1: the first scale-up adds one
    write session, a second one adds none. *)
Example scaleUpNode_write_run :
  match scaleUpNode client_c5 0%nat IS_WRITE world_c5 with
  | Done (c1, w1) =>
      match scaleUpNode c1 0%nat IS_WRITE w1 with
      | Done (c2, w2) =>
          (conns_at (writePool c1) "P1", conns_at (writePool c2) "P1",
           length (sent w1), length (sent w2))
      | Crash _ => ([], [], O, O)
      end
  | Crash _ => ([], [], O, O)
  end
  = ([1%nat], [1%nat], 1%nat, 1%nat).
Proof. vm_compute. reflexivity. Qed.

(** ** The minimum the reaper keeps *)

Lemma cleanup_stats_fold_pools (from_write : bool) (now : Z) (ord : list string)
    (c : Client) :
  readPool (foldl (cleanup_stats_step from_write now) c ord) = readPool c /\
  writePool (foldl (cleanup_stats_step from_write now) c ord) = writePool c.
Proof.
  revert c. induction ord as [|k ord IH]; intros c; simpl; [done|].
  destruct (IH (cleanup_stats_step from_write now c k)) as [-> ->].
  unfold cleanup_stats_step, put_stats. simpl.
  destruct (getOrCreateNodeStats_pools c k IS_READ now) as (Hr & Hw & _).
  simpl in Hr, Hw. by rewrite Hr, Hw.
Qed.

(** The reaper is run with [MinPoolSize], whatever [ScaleUpBatchSize] is. *)
Lemma cleanupIdleConnections_pools (ordR ordW : list (string * list ptr))
    (ord1 ord2 : list string) (c : Client) (w : World) :
  is_Some (status c) ->
  let c' := cleanupIdleConnections ordR ordW ord1 ord2 c w in
  readPool c' =
    (RemoveIdleConnections (store w) (clock w) (IdleTimeout (poolConfig c))
                           (MinPoolSize (poolConfig c)) ordR (readPool c)).2 /\
  writePool c' =
    (RemoveIdleConnections (store w) (clock w) (IdleTimeout (poolConfig c))
                           (MinPoolSize (poolConfig c)) ordW (writePool c)).2.
Proof.
  intros [s Hs]. unfold cleanupIdleConnections. rewrite Hs.
  destruct (0 <? _); destruct (0 <? _);
    rewrite ?(proj1 (cleanup_stats_fold_pools _ _ _ _)),
            ?(proj2 (cleanup_stats_fold_pools _ _ _ _)); done.
Qed.

(** C3.  One reap tick on a node that holds [ScaleUpBatchSize] = 3 read
    sessions, one of them used 10 time units ago and two idle for longer
    than the timeout, with [MinPoolSize] = 1: the reaper is run with the
    minimum 1 and leaves the node a single session, below
    [ScaleUpBatchSize], whatever the order of the visits. *)
Theorem cleanup_reaps_below_ScaleUpBatchSize (ordR ordW : list (string * list ptr))
    (ord1 ord2 : list string) :
  visits (nodeConnections (readPool client_c3)) ordR ->
  let c' := cleanupIdleConnections ordR ordW ord1 ord2 client_c3 world_c9 in
  ScaleUpBatchSize (poolConfig client_c3) = 3 /\
  SizeForNode (readPool client_c3) "P1" = 3 /\
  is_idle (store world_c9) (clock world_c9) (IdleTimeout (poolConfig client_c3)) 1%nat
    = false /\
  conns_at (readPool c') "P1" = [1%nat] /\
  SizeForNode (readPool c') "P1" = 1.
Proof.
  intros Hv c'.
  assert (ordR = [("P1", [1%nat; 2%nat; 3%nat])]) as ->.
  { unfold visits in Hv. simpl in Hv. rewrite map_to_list_singleton in Hv.
    by apply Permutation_singleton_r in Hv. }
  destruct (cleanupIdleConnections_pools [("P1", [1%nat; 2%nat; 3%nat])] ordW ord1 ord2
              client_c3 world_c9) as [Hr _]; [by eexists|].
  fold c' in Hr.
  split; [reflexivity|]. split; [reflexivity|]. split; [reflexivity|].
  unfold conns_at, SizeForNode. rewrite Hr. split; vm_compute; reflexivity.
Qed.

Lemma cleanup_reaps_below_ScaleUpBatchSize_witness :
  let c' := cleanupIdleConnections
              (map_to_list (nodeConnections (readPool client_c3))) [] [] []
              client_c3 world_c9 in
  SizeForNode (readPool client_c3) "P1" = 3 /\
  SizeForNode (readPool c') "P1" = 1.
Proof.
  destruct (cleanup_reaps_below_ScaleUpBatchSize
              (map_to_list (nodeConnections (readPool client_c3))) [] [] [])
    as (_ & H3 & _ & _ & H1).
  - unfold visits. reflexivity.
  - split; assumption.
Defined.

(** ** A full run: connect, then close twice *)

Example Connect_then_Close_twice :
  let cw := NewClient (mkClientConfig "http://leader" "k" "id" "admin" "admin")
                      (mkPoolConfig 5 10 1 10 300 60 3600 3 100 true) world_boot in
  match Connect cw.1 "admin" "admin" cw.2 with
  | Done (None, c1, w1) =>
      (Connected c1, Size (writePool c1), Size (readPool c1),
       match Close c1 with
       | Done c2 => (Some (Connected c2, Size (writePool c2), Size (readPool c2),
                           leaderConn c2),
                     match Close c2 with
                     | Done _ => "returned"
                     | Crash e => e
                     end)
       | Crash e => (None, e)
       end)
  | _ => (false, 0, 0, (None, ""))
  end
  = (true, 1, 2, (Some (false, 0, 0, None), "close of closed channel")).
Proof. vm_compute. reflexivity. Qed.

(** ** The invariant of the pool

    The operations the client applies to its pools ([AddBatch],
    [GetConnection], [RemoveIdleConnections], [Clear]) keep the invariant
    under which the theorems above are stated. *)

Lemma pool_inv_new (isWrite : bool) (maxRead maxWrite : Z) :
  pool_inv (NewConnectionPool isWrite maxRead maxWrite).
Proof.
  split; [split|split]; simpl.
  - apply NoDup_nil_2.
  - intros n Hn. by apply not_elem_of_nil in Hn.
  - done.
  - intros n. unfold cursor_at, conns_at. simpl. rewrite !lookup_empty. simpl.
    repeat split; done.
Qed.

Lemma pool_inv_Clear (p : ConnectionPool) : pool_inv (Clear p).
Proof. apply pool_inv_new. Qed.

Lemma cursors_ok_ensure_node (p : ConnectionPool) (n : string) :
  cursors_ok p -> cursors_ok (ensure_node p n).
Proof.
  intros [Hidx Hcur]. unfold ensure_node.
  destruct (nodeConnections p !! n) eqn:Hn; [done|].
  split; [done|]. intros n'. unfold cursor_at, conns_at. simpl.
  destruct (decide (n = n')) as [<-|Hne].
  - rewrite !lookup_insert_eq. simpl. repeat split; done.
  - rewrite !lookup_insert_ne by done. apply Hcur.
Qed.

Lemma cursors_ok_append_conns (p : ConnectionPool) (n : string) (cs : list ptr) :
  cursors_ok p -> cursors_ok (append_conns p n cs).
Proof.
  intros [Hidx Hcur]. split; [done|]. intros n'.
  destruct (Hcur n') as (H0 & Hlt & Hz).
  unfold append_conns. simpl. unfold cursor_at, conns_at in *. simpl.
  destruct (decide (n = n')) as [<-|Hne].
  - rewrite lookup_insert_eq. simpl.
    destruct (default [] (nodeConnections p !! n)) as [|a l] eqn:Hl.
    + specialize (Hz eq_refl). rewrite Hz. simpl.
      split; [done|]. split; [|done].
      intros Hcs. destruct cs; [done|]. unfold len. simpl. lia.
    + assert (a :: l <> []) as Hal by done. specialize (Hlt Hal).
      split; [done|]. split; [|done].
      intros _. rewrite len_app. pose proof (len_nonneg cs). lia.
  - rewrite lookup_insert_ne by done. done.
Qed.

Lemma pool_inv_AddBatch (st : Store) (kvs : list (string * list ptr))
    (p : ConnectionPool) (conns : list ptr) :
  pool_inv p -> pool_inv (AddBatch st kvs p conns).
Proof.
  intros [Ho Hc]. unfold AddBatch. destruct (len conns =? 0); [done|].
  split; [by apply order_ok_AddBatch_loop|].
  unfold AddBatch_loop. revert p Ho Hc.
  induction kvs as [|kv kvs IH]; intros p Ho Hc; simpl; [done|].
  apply IH.
  - by apply order_ok_append_conns, order_ok_ensure_node.
  - by apply cursors_ok_append_conns, cursors_ok_ensure_node.
Qed.

Lemma GetConnection_scan_cases (now : Z) (p : ConnectionPool) (st : Store)
    (k : nat) (i : Z) (r : result ptr) (p' : ConnectionPool) (st' : Store) :
  GetConnection_scan now p st k i = Done (r, p', st') ->
  p' = p \/ exists j, GetConnection_at now p st j = Some (Done (r, p', st')).
Proof.
  revert i. induction k as [|k IH]; intros i; simpl.
  - intros [= _ <- _]. by left.
  - destruct (GetConnection_at now p st i) as [o|] eqn:Hat.
    + intros ->. right. eauto.
    + apply IH.
Qed.

Lemma pool_inv_GetConnection (now : Z) (p : ConnectionPool) (st : Store)
    (r : result ptr) (p' : ConnectionPool) (st' : Store) :
  pool_inv p -> GetConnection now p st = Done (r, p', st') -> pool_inv p'.
Proof.
  intros [Ho [Hidx Hcur]]. unfold GetConnection.
  destruct (len (nodeOrder p) =? 0); [by intros [= _ <- _]|].
  intros Hrun. apply GetConnection_scan_cases in Hrun as [->|[j Hat]]; [done|].
  unfold GetConnection_at in Hat.
  destruct (index (nodeOrder p) _) as [nodeID|] eqn:Hnode; [|done].
  apply index_Some in Hnode as [Hrange _].
  destruct (Z.ltb_spec 0 (len (conns_at p nodeID))) as [Hpos|]; [|done].
  destruct (index (conns_at p nodeID) (cursor_at p nodeID)) as [conn|] eqn:Hconn; [|done].
  apply index_Some in Hconn as [Hcrange _].
  injection Hat as <- <- <-.
  split; [exact Ho|]. split; simpl.
  - apply Z.rem_nonneg; lia.
  - intros n. unfold cursor_at, conns_at. simpl.
    destruct (decide (nodeID = n)) as [<-|Hne].
    + rewrite lookup_insert_eq. simpl.
      pose proof (Z.rem_bound_pos (cursor_at p nodeID + 1) (len (conns_at p nodeID))
                    ltac:(lia) ltac:(lia)) as Hrem.
      unfold cursor_at, conns_at in Hrem, Hpos.
      split; [lia|]. split; [intros _; lia|].
      intros Hnil. rewrite Hnil in Hpos. len_lia.
    + rewrite lookup_insert_ne by done. apply Hcur.
Qed.

Lemma reap_fold_index (st : Store) (now idleTimeout minSizePerNode : Z)
    (kvs : list (string * list ptr)) (acc : Z * ConnectionPool) :
  0 <= nodeOrderIndex acc.2 ->
  0 <= nodeOrderIndex (foldl (reap_node st now idleTimeout minSizePerNode) acc kvs).2.
Proof.
  revert acc. induction kvs as [|kv l IH]; intros acc Hacc; simpl; [done|].
  apply IH. rewrite reap_node_bucket.
  destruct (reap_bucket _ _ _ _ _) as [new|]; [|done].
  unfold reaped_pool. destruct (len new =? 0); simpl; [|done].
  unfold drop_from_order. destruct (find_node _ _); simpl; [|done].
  by destruct (_ && _).
Qed.


(** ** The write ceiling through the bootstrap

    [scaleUpNode] is the only operation that adds sessions, so the bound of
    the write pool carries through [InitializePool]. *)

Lemma createPoolConnections_loop_world (nodeURL nodeID nodeMode : string)
    (isLeader : bool) (n : nat) (c : Client) (connections : list ptr) (w : World) :
  match createPoolConnections_loop c nodeURL nodeID nodeMode isLeader n connections w with
  | Done (_, c1, w1) =>
      same_but_clients c c1 /\
      (next w <= next w1)%nat /\
      (forall a, (a < next w)%nat -> NodeID (store w1 a) = NodeID (store w a))
  | Crash _ => True
  end.
Proof.
  revert c connections w. induction n as [|n IH]; intros c connections w; simpl.
  - split; [apply same_but_clients_refl|]. split; [lia | done].
  - pose proof (createAndConnectNewConnection_inv c nodeURL nodeID nodeMode isLeader w)
      as Hstep.
    destruct (createAndConnectNewConnection c nodeURL nodeID nodeMode isLeader w)
      as [[[r c1] w1]|e]; simpl; [|done].
    destruct Hstep as (Hnx & Hold & _ & Hsame & _).
    assert (forall conns,
              match createPoolConnections_loop c1 nodeURL nodeID nodeMode isLeader n conns w1
              with
              | Done (_, c2, w2) =>
                  same_but_clients c c2 /\
                  (next w <= next w2)%nat /\
                  (forall a, (a < next w)%nat -> NodeID (store w2 a) = NodeID (store w a))
              | Crash _ => True
              end) as Hrest.
    { intros conns. specialize (IH c1 conns w1).
      destruct (createPoolConnections_loop c1 nodeURL nodeID nodeMode isLeader n conns w1)
        as [[[conns' c2] w2]|e']; [|done].
      destruct IH as (Hsame2 & Hnx2 & Hold2).
      split; [by eapply same_but_clients_trans|]. split; [lia|].
      intros a Ha. rewrite Hold2 by lia. by apply Hold. }
    destruct r; apply Hrest.
Qed.

Lemma AddBatch_maxWritePool (st : Store) (kvs : list (string * list ptr))
    (p : ConnectionPool) (conns : list ptr) :
  maxWritePool (AddBatch st kvs p conns) = maxWritePool p.
Proof.
  unfold AddBatch. destruct (len conns =? 0); [done|].
  unfold AddBatch_loop. revert p.
  induction kvs as [|kv kvs IH]; intros p; simpl; [done|].
  rewrite IH. simpl. unfold ensure_node. by destruct (nodeConnections p !! kv.1).
Qed.

(** What a scale-up leaves alone. *)
Lemma scaleUpNode_frame (c : Client) (conn : ptr) (isWrite : bool) (w : World)
    (c' : Client) (w' : World) :
  scaleUpNode c conn isWrite w = Done (c', w') ->
  status c' = status c /\
  poolConfig c' = poolConfig c /\
  maxWritePool (readPool c') = maxWritePool (readPool c) /\
  (isWrite = false ->
   forall n, SizeForNode (writePool c') n = SizeForNode (writePool c) n) /\
  (next w <= next w')%nat /\
  (forall a, (a < next w)%nat -> NodeID (store w' a) = NodeID (store w a)).
Proof.
  unfold scaleUpNode.
  destruct (findMaxPoolsByNodeID c (NodeID (store w conn))) as [m|e]; simpl; [|done].
  destruct (Z.min _ _ <=? 0) eqn:Hadd.
  { intros [= <- <-]. repeat split; try done. }
  unfold createPoolConnections. rewrite Hadd.
  match goal with
  | |- context [createPoolConnections_loop c ?u ?n0 ?m0 ?l0 ?k [] w] =>
      pose proof (createPoolConnections_loop_world u n0 m0 l0 k c [] w) as Hloop;
      destruct (createPoolConnections_loop c u n0 m0 l0 k [] w)
        as [[[connections c1] w1]|e]; simpl; [|done]
  end.
  destruct Hloop as ((mr & mw & Hc1) & Hnx & Hold).
  destruct (0 <? len connections).
  - match goal with
    | |- context [getOrCreateNodeStats ?c2 ?n0 ?b ?t] =>
        destruct (getOrCreateNodeStats_pools c2 n0 b t) as (Hr & Hw & Hpc & Hst)
    end.
    simpl in Hr, Hw, Hpc, Hst.
    intros [= <- <-]. unfold put_stats.
    destruct isWrite; simpl; rewrite ?Hr, ?Hw, ?Hpc, ?Hst; simpl;
      rewrite ?AddBatch_maxWritePool, Hc1; simpl; repeat split; try done.
  - intros [= <- <-]. rewrite Hc1. simpl. repeat split; try done.
Qed.



Lemma sendRequestToPool_body_client
    (leader : bool -> Client -> World -> outcome (result JSON * Client * World))
    (c : Client) (conn : option ptr) (method endpoint : string) (body : option JSON)
    (withToken autorefresh : bool) (w : World) (r : result JSON) (c' : Client)
    (w' : World) :
  sendRequestToPool_body leader c conn method endpoint body withToken autorefresh
                         NO_FALLBACK w = Done (r, c', w') ->
  c' = c.
Proof.
  unfold sendRequestToPool_body. destruct conn as [conn|]; [|by intros [= _ <- _]].
  destruct (getAndCheckToken _ _); [by intros [= _ <- _]|].
  destruct (sendHttpRequest _ _ _ _ _ _ _).1.2.
  - match goal with
    | |- mbind _ ?m = _ -> _ => destruct m as [[[[early resp2] err2] w2]|]; [|done]
    end.
    simpl. destruct early; [by intros [= _ <- _]|].
    destruct err2; [by intros [= _ <- _]|].
    destruct (getAndCheckResponseData resp2); simpl; [by intros [= _ <- _] | done].
  - destruct (getAndCheckResponseData _); simpl; [by intros [= _ <- _] | done].
Qed.


(** * Further properties of the pool *)

(** ** Removing one session *)

Lemma find_conn_Some (conn : ptr) (l : list ptr) (i : nat) :
  find_conn conn l = Some i -> l !! i = Some conn /\ conn ∉ take i l.
Proof.
  revert i. induction l as [|c l IH]; intros i; simpl; [done|].
  destruct (Nat.eqb_spec c conn) as [->|Hne].
  - intros [= <-]. split; [done|]. simpl. apply not_elem_of_nil.
  - destruct (find_conn conn l) as [j|]; [|done]. intros [= <-].
    destruct (IH j eq_refl) as [Hj Hnot]. split; [done|]. simpl.
    apply not_elem_of_cons. split; [congruence | done].
Qed.

Lemma find_conn_elem (conn : ptr) (l : list ptr) :
  conn ∈ l -> exists i, find_conn conn l = Some i.
Proof.
  intros Hin. destruct (find_conn conn l) as [i|] eqn:Hf; [eauto|].
  by apply find_conn_None in Hf.
Qed.

Lemma len_cut {A} (i : nat) (l : list A) (x : A) :
  l !! i = Some x -> len (cut i l) = len l - 1.
Proof.
  intros Hi. apply lookup_lt_Some in Hi. unfold cut, len.
  rewrite length_app, length_take, length_drop. lia.
Qed.

Lemma total_delete (m : gmap string (list ptr)) (k : string) :
  total (map_to_list (delete k m)) =
  total (map_to_list m) - len (default [] (m !! k)).
Proof.
  destruct (m !! k) as [old|] eqn:Hk; simpl.
  - rewrite <- (total_perm _ _ (map_to_list_delete m k old Hk)). simpl. lia.
  - rewrite delete_id by done. rewrite len_nil. lia.
Qed.

(** X1.  When the bucket of the connection's node holds the connection,
    [Remove] returns true and takes out its first occurrence only: the
    other buckets and cursors are untouched and the size of the pool drops
    by exactly one.  If that was the node's last session, the node leaves
    the mapping, the cursors and (node ids being distinct) the ordered
    list, and its shared transport is dropped by the write pool only;
    otherwise the node keeps its cursor, the ordered list and the
    transports as they were. *)
Theorem Remove_present (st : Store) (p : ConnectionPool) (conn : ptr)
    (nodeConns : list ptr) :
  nodeConnections p !! NodeID (st conn) = Some nodeConns ->
  conn ∈ nodeConns ->
  let nodeID := NodeID (st conn) in
  let p' := (Remove st p conn).2 in
  exists i,
    nodeConns !! i = Some conn /\ (conn ∉ take i nodeConns) /\
    (Remove st p conn).1 = true /\
    conns_at p' nodeID = cut i nodeConns /\
    Size p' = Size p - 1 /\
    (forall n, n <> nodeID ->
               nodeConnections p' !! n = nodeConnections p !! n /\
               nodeRoundRobinIndices p' !! n = nodeRoundRobinIndices p !! n) /\
    (cut i nodeConns = [] ->
     nodeConnections p' !! nodeID = None /\
     nodeRoundRobinIndices p' !! nodeID = None /\
     (NoDup (nodeOrder p) -> nodeID ∉ nodeOrder p') /\
     nodeHTTPClients p' =
       (if isWritePool p then delete nodeID (nodeHTTPClients p)
        else nodeHTTPClients p)) /\
    (cut i nodeConns <> [] ->
     nodeConnections p' !! nodeID = Some (cut i nodeConns) /\
     nodeRoundRobinIndices p' = nodeRoundRobinIndices p /\
     nodeOrder p' = nodeOrder p /\ nodeOrderIndex p' = nodeOrderIndex p /\
     nodeHTTPClients p' = nodeHTTPClients p).
Proof.
  intros Hsome Hin nodeID p'.
  destruct (find_conn_elem conn nodeConns Hin) as [i Hi].
  destruct (find_conn_Some conn nodeConns i Hi) as [Hlk Hnot].
  exists i. split; [done|]. split; [done|].
  pose proof (len_cut i nodeConns conn Hlk) as Hlen.
  unfold p', Remove. fold nodeID. fold nodeID in Hsome. rewrite Hsome, Hi.
  destruct (Z.eqb_spec (len (cut i nodeConns)) 0) as [H0|H0].
  - apply len_nil_iff in H0 as Hnil.
    destruct (drop_from_order nodeID (nodeOrder p) (nodeOrderIndex p))
      as [order' idx'] eqn:Hdrop.
    simpl. split; [done|]. split.
    { unfold conns_at. simpl. by rewrite lookup_delete_eq, Hnil. }
    split.
    { rewrite !Size_total. simpl. rewrite total_delete, Hsome. simpl. lia. }
    split.
    { intros n Hn. by rewrite !lookup_delete_ne. }
    split; [|done]. intros _. rewrite !lookup_delete_eq.
    split; [done|]. split; [done|]. split; [|done].
    intros Hnd. pose proof (drop_from_order_not_in nodeID (nodeOrder p)
                              (nodeOrderIndex p) Hnd) as Hx.
    by rewrite Hdrop in Hx.
  - assert (cut i nodeConns <> []) as Hne by (intros E; by rewrite E in H0).
    simpl. split; [done|]. split.
    { unfold conns_at. simpl. by rewrite lookup_insert_eq. }
    split.
    { rewrite !Size_total. simpl. rewrite total_insert, Hsome. simpl. lia. }
    split.
    { intros n Hn. by rewrite lookup_insert_ne. }
    split; [done|]. intros _. by rewrite lookup_insert_eq.
Qed.

Lemma Remove_present_witness :
  (Remove store_c4 pool_c4 2%nat).1 = true /\
  conns_at (Remove store_c4 pool_c4 2%nat).2 "P1" = [1%nat] /\
  Size (Remove store_c4 pool_c4 2%nat).2 = Size pool_c4 - 1.
Proof.
  destruct (Remove_present store_c4 pool_c4 2%nat [1%nat; 2%nat]) as (i & Hi & _ & Hb & Hc & Hs & _).
  - reflexivity.
  - apply (bool_decide_unpack _). vm_compute. reflexivity.
  - split; [exact Hb|]. split; [|exact Hs].
    destruct i as [|[|i]]; [discriminate Hi | exact Hc | discriminate Hi].
Defined.

(** X2.  [Remove] never moves the cursor of a node that keeps sessions.
    So when the cursor stands on the last slot of a bucket of two or more
    sessions and one of them is removed, the cursor is left one past the
    end, and the next [GetConnectionForNode] on that node panics with an
    index out of range instead of returning a session. *)
Theorem Remove_then_GetConnectionForNode_panics (st st' : Store) (now : Z)
    (p : ConnectionPool) (conn : ptr) (nodeConns : list ptr) :
  nodeConnections p !! NodeID (st conn) = Some nodeConns ->
  conn ∈ nodeConns ->
  1 < len nodeConns ->
  cursor_at p (NodeID (st conn)) = len nodeConns - 1 ->
  GetConnectionForNode now (Remove st p conn).2 st' (NodeID (st conn))
  = Crash "index out of range".
Proof.
  intros Hsome Hin Hlen Hcur.
  destruct (find_conn_elem conn nodeConns Hin) as [i Hi].
  destruct (find_conn_Some conn nodeConns i Hi) as [Hlk _].
  pose proof (len_cut i nodeConns conn Hlk) as Hcut.
  unfold Remove. rewrite Hsome, Hi.
  destruct (Z.eqb_spec (len (cut i nodeConns)) 0) as [H0|H0]; [lia|].
  unfold GetConnectionForNode. simpl. rewrite lookup_insert_eq.
  destruct (Z.eqb_spec (len (cut i nodeConns)) 0) as [H1|_]; [lia|].
  unfold cursor_at in *. simpl. rewrite Hcur.
  destruct (index (cut i nodeConns) (len nodeConns - 1)) as [x|] eqn:Hx; [|done].
  apply index_Some in Hx. lia.
Qed.

Lemma Remove_then_GetConnectionForNode_panics_witness :
  GetConnectionForNode 50 (Remove store_c4 pool_c4 3%nat).2 store_c4 "P2"
  = Crash "index out of range".
Proof.
  apply (Remove_then_GetConnectionForNode_panics store_c4 store_c4 50 pool_c4 3%nat
           [3%nat; 4%nat]).
  - reflexivity.
  - apply (bool_decide_unpack _). vm_compute. reflexivity.
  - reflexivity.
  - reflexivity.
Defined.

(** ** Adding sessions *)

Lemma conns_at_append_conns (p : ConnectionPool) (n k : string) (cs : list ptr) :
  conns_at (append_conns p n cs) k =
  if bool_decide (k = n) then conns_at p n ++ cs else conns_at p k.
Proof.
  unfold conns_at, append_conns. simpl. case_bool_decide as Hk.
  - subst. by rewrite lookup_insert_eq.
  - by rewrite lookup_insert_ne.
Qed.

Lemma conns_at_ensure_node_any (p : ConnectionPool) (n k : string) :
  conns_at (ensure_node p n) k = conns_at p k.
Proof.
  destruct (decide (k = n)) as [->|Hk]; [apply conns_at_ensure_node|].
  unfold conns_at, ensure_node. destruct (nodeConnections p !! n); [done|].
  simpl. by rewrite lookup_insert_ne.
Qed.

(** X3.  [Add] puts the connection at the end of the bucket of its node
    and nowhere else, so the pool grows by exactly one.  A node that had no
    bucket gets its cursor set to 0 and is appended to the ordered list;
    for a node that had one, cursors and ordered list stay as they were.
    [Add] keeps the invariant of the pool. *)
Theorem Add_appends (st : Store) (p : ConnectionPool) (conn : ptr) :
  let nodeID := NodeID (st conn) in
  let p' := Add st p conn in
  conns_at p' nodeID = conns_at p nodeID ++ [conn] /\
  (forall n, n <> nodeID -> conns_at p' n = conns_at p n /\
                            cursor_at p' n = cursor_at p n) /\
  Size p' = Size p + 1 /\
  (nodeConnections p !! nodeID = None ->
   nodeRoundRobinIndices p' !! nodeID = Some 0 /\
   nodeOrder p' = nodeOrder p ++ [nodeID]) /\
  (is_Some (nodeConnections p !! nodeID) ->
   nodeRoundRobinIndices p' = nodeRoundRobinIndices p /\
   nodeOrder p' = nodeOrder p) /\
  nodeOrderIndex p' = nodeOrderIndex p /\
  (pool_inv p -> pool_inv p').
Proof.
  intros nodeID p'. unfold p', Add. fold nodeID.
  split.
  { rewrite conns_at_append_conns, bool_decide_eq_true_2 by done.
    by rewrite conns_at_ensure_node. }
  split.
  { intros n Hn. rewrite conns_at_append_conns, bool_decide_eq_false_2 by done.
    rewrite conns_at_ensure_node_any. split; [done|].
    unfold cursor_at, append_conns, ensure_node.
    destruct (nodeConnections p !! nodeID); simpl; [done|].
    by rewrite lookup_insert_ne. }
  split.
  { rewrite Size_append_conns, Size_ensure_node. reflexivity. }
  split.
  { intros Hnone. unfold append_conns, ensure_node. rewrite Hnone. simpl.
    by rewrite lookup_insert_eq. }
  split.
  { intros [old Hold]. unfold append_conns, ensure_node. by rewrite Hold. }
  split.
  { unfold append_conns, ensure_node. by destruct (nodeConnections p !! nodeID). }
  intros [Ho Hc]. split.
  - by apply order_ok_append_conns, order_ok_ensure_node.
  - by apply cursors_ok_append_conns, cursors_ok_ensure_node.
Qed.

(** ** Listing sessions *)

Lemma GetAllConnections_from (kvs : list (string * list ptr)) (acc : list ptr) :
  foldl (fun result kv => result ++ kv.2) acc kvs = acc ++ concat kvs.*2.
Proof.
  revert acc. induction kvs as [|kv kvs IH]; intros acc; simpl.
  - by rewrite app_nil_r.
  - rewrite IH. by rewrite <- app_assoc.
Qed.

Lemma len_concat_total (kvs : list (string * list ptr)) :
  len (concat kvs.*2) = total kvs.
Proof.
  induction kvs as [|kv kvs IH]; [done|].
  rewrite fmap_cons. simpl. rewrite len_app, IH. lia.
Qed.

Lemma elem_of_concat_buckets (kvs : list (string * list ptr)) (conn : ptr) :
  conn ∈ concat kvs.*2 <-> exists kv, kv ∈ kvs /\ conn ∈ kv.2.
Proof.
  induction kvs as [|kv kvs IH].
  - split; [intros H; by apply not_elem_of_nil in H|].
    intros (kv & H & _). by apply not_elem_of_nil in H.
  - rewrite fmap_cons. simpl. rewrite elem_of_app, IH. split.
    + intros [H|(kv' & H1 & H2)]; [exists kv; split; [left | done]|].
      exists kv'. split; [by right | done].
    + intros (kv' & H1 & H2). apply elem_of_cons in H1 as [->|H1]; [by left|].
      right. by exists kv'.
Qed.

(** X4.  Whatever the order in which the buckets are visited,
    [GetAllConnections] returns as many sessions as [Size] counts, and a
    session is in the result exactly when some bucket of the pool holds
    it. *)
Theorem GetAllConnections_all (p : ConnectionPool) (kvs : list (string * list ptr)) :
  visits (nodeConnections p) kvs ->
  len (GetAllConnections kvs) = Size p /\
  forall conn,
    conn ∈ GetAllConnections kvs <->
    exists nodeID conns, nodeConnections p !! nodeID = Some conns /\ conn ∈ conns.
Proof.
  intros Hv. unfold GetAllConnections. rewrite GetAllConnections_from, app_nil_l.
  split.
  - rewrite len_concat_total, Size_total. by apply total_perm.
  - intros conn. rewrite elem_of_concat_buckets. unfold visits in Hv. split.
    + intros ([n l] & Hkv & Hc). exists n, l. split; [|done].
      apply elem_of_map_to_list. by rewrite <- Hv.
    + intros (n & l & Hl & Hc). exists (n, l). split; [|done].
      rewrite Hv. by apply elem_of_map_to_list.
Qed.

Lemma GetAllConnections_all_witness :
  len (GetAllConnections (map_to_list (nodeConnections pool_c6))) = Size pool_c6.
Proof.
  apply (GetAllConnections_all pool_c6 (map_to_list (nodeConnections pool_c6))).
  unfold visits. reflexivity.
Defined.

Lemma GetIdleConnections_inner (st : Store) (now t : Z) (conns acc : list ptr) :
  foldl (fun idle conn => if is_idle st now t conn then idle ++ [conn] else idle)
        acc conns
  = acc ++ filter (fun c => is_idle st now t c = true) conns.
Proof.
  revert acc. induction conns as [|c conns IH]; intros acc; simpl.
  - by rewrite app_nil_r.
  - rewrite IH. destruct (is_idle st now t c) eqn:Hc.
    + rewrite filter_cons_True by done. by rewrite <- app_assoc.
    + rewrite filter_cons_False by (rewrite Hc; done). done.
Qed.

Lemma GetIdleConnections_from (st : Store) (now t : Z)
    (kvs : list (string * list ptr)) (acc : list ptr) :
  foldl (fun idle kv =>
           foldl (fun idle conn =>
                    if is_idle st now t conn then idle ++ [conn] else idle)
                 idle kv.2)
        acc kvs
  = acc ++ filter (fun c => is_idle st now t c = true) (concat kvs.*2).
Proof.
  revert acc. induction kvs as [|kv kvs IH]; intros acc; simpl.
  - by rewrite app_nil_r.
  - rewrite IH, GetIdleConnections_inner, filter_app. by rewrite <- app_assoc.
Qed.

(** X5.  For one and the same visiting order, [GetIdleConnections] returns
    the sessions of [GetAllConnections] whose last use lies more than the
    timeout back, in the same order and with the same multiplicity; the
    other sessions are left out. *)
Theorem GetIdleConnections_filter (st : Store) (now idleTimeout : Z)
    (kvs : list (string * list ptr)) :
  GetIdleConnections st now idleTimeout kvs =
  filter (fun c => is_idle st now idleTimeout c = true) (GetAllConnections kvs).
Proof.
  unfold GetIdleConnections, GetAllConnections.
  by rewrite GetIdleConnections_from, GetAllConnections_from, !app_nil_l.
Qed.

(** ** Rounds of [GetConnectionForNode] *)

Lemma GetConnectionForNode_hit (now : Z) (p : ConnectionPool) (st : Store)
    (nodeID : string) (conns : list ptr) :
  nodeConnections p !! nodeID = Some conns ->
  0 <= cursor_at p nodeID < len conns ->
  exists conn,
    conns !! Z.to_nat (cursor_at p nodeID) = Some conn /\
    GetConnectionForNode now p st nodeID =
    Done (Ok conn,
          mkPool (nodeConnections p)
                 (<[nodeID := (cursor_at p nodeID + 1) mod len conns]>
                    (nodeRoundRobinIndices p))
                 (nodeOrder p) (nodeOrderIndex p)
                 (isWritePool p) (maxPool p) (maxWritePool p) (nodeHTTPClients p),
          store_set st conn (set_LastUsed (st conn) now)).
Proof.
  intros Hsome Hcur.
  destruct (index_in_range conns (cursor_at p nodeID) Hcur) as (conn & Hix & Hlk).
  exists conn. split; [done|].
  unfold GetConnectionForNode. rewrite Hsome.
  destruct (Z.eqb_spec (len conns) 0) as [H0|_]; [lia|].
  rewrite Hix. by rewrite Z.rem_mod_nonneg by lia.
Qed.

(** X6.  Calls of [GetConnectionForNode] on a node whose cursor is in range
    never fail and go round the bucket: call number [j] returns the session
    at position (cursor + j) modulo the bucket size.  The buckets and the
    node-level order are not touched, the other nodes keep their cursors,
    and after as many calls as the bucket has sessions every session has
    been returned exactly once, in bucket order starting at the cursor. *)
Theorem GetConnectionForNode_round (nows : list Z) (p : ConnectionPool) (st : Store)
    (nodeID : string) (conns : list ptr) :
  nodeConnections p !! nodeID = Some conns ->
  0 <= cursor_at p nodeID < len conns ->
  exists rs p' st',
    GetConnectionForNode_calls nows p st nodeID = Done (rs, p', st') /\
    length rs = length nows /\
    (forall j, (j < length nows)%nat ->
       rs !! j = Ok <$> conns !! Z.to_nat ((cursor_at p nodeID + Z.of_nat j)
                                            mod len conns)) /\
    nodeConnections p' = nodeConnections p /\
    nodeOrder p' = nodeOrder p /\
    nodeOrderIndex p' = nodeOrderIndex p /\
    cursor_at p' nodeID = (cursor_at p nodeID + len nows) mod len conns /\
    (forall n, n <> nodeID -> cursor_at p' n = cursor_at p n) /\
    (length nows = length conns ->
     rs = Ok <$> (drop (Z.to_nat (cursor_at p nodeID)) conns ++
                  take (Z.to_nat (cursor_at p nodeID)) conns)).
Proof.
  intros Hsome Hcur.
  assert (exists rs p' st',
    GetConnectionForNode_calls nows p st nodeID = Done (rs, p', st') /\
    length rs = length nows /\
    (forall j, (j < length nows)%nat ->
       rs !! j = Ok <$> conns !! Z.to_nat ((cursor_at p nodeID + Z.of_nat j)
                                            mod len conns)) /\
    nodeConnections p' = nodeConnections p /\
    nodeOrder p' = nodeOrder p /\
    nodeOrderIndex p' = nodeOrderIndex p /\
    cursor_at p' nodeID = (cursor_at p nodeID + len nows) mod len conns /\
    (forall n, n <> nodeID -> cursor_at p' n = cursor_at p n)) as Hmain.
  { clear -Hsome Hcur. revert p st Hsome Hcur.
    induction nows as [|now nows IH]; intros p st Hsome Hcur.
    - exists [], p, st. simpl. split; [done|]. split; [done|].
      split; [intros j Hj; lia|]. split; [done|]. split; [done|]. split; [done|].
      split; [|done]. rewrite len_nil, Z.add_0_r, Z.mod_small; lia.
    - destruct (GetConnectionForNode_hit now p st nodeID conns Hsome Hcur)
        as (conn & Hlk & Hcall).
      set (p1 := mkPool (nodeConnections p)
                   (<[nodeID := (cursor_at p nodeID + 1) mod len conns]>
                      (nodeRoundRobinIndices p))
                   (nodeOrder p) (nodeOrderIndex p)
                   (isWritePool p) (maxPool p) (maxWritePool p) (nodeHTTPClients p))
        in *.
      assert (cursor_at p1 nodeID = (cursor_at p nodeID + 1) mod len conns) as Hc1.
      { unfold cursor_at at 1. simpl. by rewrite lookup_insert_eq. }
      pose proof (Z.mod_pos_bound (cursor_at p nodeID + 1) (len conns) ltac:(lia))
        as Hb.
      destruct (IH p1 (store_set st conn (set_LastUsed (st conn) now)))
        as (rs & p' & st' & Hcalls & Hlen & Hrs & Hm & Ho & Hi & Hc & Hf).
      { done. }
      { rewrite Hc1. lia. }
      exists (Ok conn :: rs), p', st'. simpl. rewrite Hcall. simpl.
      rewrite Hcalls. simpl. split; [done|]. split; [by rewrite Hlen|].
      split.
      { intros [|j] Hj; simpl.
        - rewrite Z.add_0_r, Z.mod_small by lia. by rewrite Hlk.
        - rewrite Hrs by lia. rewrite Hc1, Zplus_mod_idemp_l.
          replace (cursor_at p nodeID + 1 + Z.of_nat j)
            with (cursor_at p nodeID + Z.of_nat (S j)) by lia.
          done. }
      split; [done|]. split; [done|]. split; [done|]. split.
      { rewrite Hc, Hc1, Zplus_mod_idemp_l. f_equal. unfold len. simpl. lia. }
      intros n Hn. rewrite Hf by done. unfold cursor_at. simpl.
      by rewrite lookup_insert_ne. }
  destruct Hmain as (rs & p' & st' & H1 & H2 & H3 & H4 & H5 & H6 & H7 & H8).
  exists rs, p', st'. do 8 (split; [done|]).
  intros Hfull. apply list_eq. intros j.
  destruct (decide (j < length nows)%nat) as [Hj|Hj].
  - rewrite H3 by done. rewrite list_lookup_fmap. f_equal.
    assert (Z.to_nat (cursor_at p nodeID) `mod` length conns
            = Z.to_nat (cursor_at p nodeID))%nat as Hmod.
    { apply Nat.mod_small. unfold len in Hcur. lia. }
    pose proof (lookup_rotate_r conns (Z.to_nat (cursor_at p nodeID)) j
                  ltac:(lia)) as Hrot.
    unfold rotate in Hrot. rewrite Hmod in Hrot. rewrite Hrot.
    unfold rotate_nat_add. rewrite Z2Nat.id by lia. reflexivity.
  - rewrite (lookup_ge_None_2 rs) by lia.
    symmetry. apply lookup_ge_None_2.
    rewrite length_fmap, length_app, length_drop, length_take. lia.
Qed.

Lemma GetConnectionForNode_round_witness :
  exists p' st',
    GetConnectionForNode_calls [10; 20; 30] pool_c6 store_c6 "P1"
    = Done ([Ok 3%nat; Ok 1%nat; Ok 2%nat], p', st') /\
    cursor_at p' "P1" = 2.
Proof.
  destruct (GetConnectionForNode_round [10; 20; 30] pool_c6 store_c6 "P1"
              [1%nat; 2%nat; 3%nat])
    as (rs & p' & st' & H1 & _ & _ & _ & _ & _ & H7 & _ & H9).
  - reflexivity.
  - by vm_compute.
  - exists p', st'. rewrite (H9 eq_refl) in H1. split; [exact H1 | exact H7].
Defined.

(** ** [GetConnection] under the invariant *)

Lemma GetConnection_at_hit (now : Z) (p : ConnectionPool) (st : Store) (i : Z)
    (nodeID : string) :
  0 <= nodeOrderIndex p -> 0 <= i -> 0 < len (nodeOrder p) ->
  scanned p i = Some nodeID ->
  0 <= cursor_at p nodeID < len (conns_at p nodeID) ->
  exists conn,
    conns_at p nodeID !! Z.to_nat (cursor_at p nodeID) = Some conn /\
    GetConnection_at now p st i =
    Some (Done (Ok conn,
                served p ((nodeOrderIndex p + i) mod len (nodeOrder p)) nodeID,
                store_set st conn (set_LastUsed (st conn) now))).
Proof.
  intros Hidx Hi Hn Hs Hcur.
  destruct (index_in_range (conns_at p nodeID) (cursor_at p nodeID) Hcur)
    as (conn & Hix & Hlk).
  exists conn. split; [done|].
  destruct (GetConnection_at_node now p st i Hidx Hi Hn) as (n' & Hs' & Hix').
  rewrite Hs in Hs'. injection Hs' as <-.
  unfold GetConnection_at. rewrite Hix'.
  assert ((0 <? len (conns_at p nodeID)) = true) as -> by (apply Z.ltb_lt; lia).
  rewrite Hix.
  pose proof (Z.mod_pos_bound (nodeOrderIndex p + i) (len (nodeOrder p)) Hn).
  rewrite (Z.rem_mod_nonneg (nodeOrderIndex p + i)) by lia.
  rewrite !Z.rem_mod_nonneg by lia.
  reflexivity.
Qed.


Lemma scanned_elem (p : ConnectionPool) (i : Z) (n : string) :
  scanned p i = Some n -> n ∈ nodeOrder p.
Proof. unfold scanned. apply list_elem_of_lookup_2. Qed.




(** ** A round of [GetConnection] over the nodes *)

Lemma GetConnection_head (now : Z) (p : ConnectionPool) (st : Store) :
  0 <= nodeOrderIndex p -> 0 < len (nodeOrder p) ->
  (forall n, n ∈ nodeOrder p -> 0 <= cursor_at p n < len (conns_at p n)) ->
  exists n conn,
    nodeOrder p !! Z.to_nat (nodeOrderIndex p mod len (nodeOrder p)) = Some n /\
    conns_at p n !! Z.to_nat (cursor_at p n) = Some conn /\
    GetConnection now p st =
    Done (Ok conn, served p (nodeOrderIndex p mod len (nodeOrder p)) n,
          store_set st conn (set_LastUsed (st conn) now)).
Proof.
  intros Hidx HL Hcur.
  destruct (GetConnection_at_node now p st 0) as (n & Hs & _); try lia.
  destruct (GetConnection_at_hit now p st 0 n) as (conn & Hlk & Hat); try lia.
  { done. }
  { apply Hcur. by eapply scanned_elem. }
  exists n, conn. unfold scanned in Hs. rewrite Z.add_0_r in Hs, Hat.
  split; [done|]. split; [done|].
  unfold GetConnection.
  destruct (Z.eqb_spec (len (nodeOrder p)) 0) as [H0|_]; [lia|].
  apply GetConnection_scan_hit with (i := 0).
  - unfold len in *. lia.
  - intros j Hj. lia.
  - done.
Qed.

Lemma GetConnection_calls_round (nows : list Z) (p : ConnectionPool) (st : Store) :
  0 <= nodeOrderIndex p ->
  NoDup (nodeOrder p) ->
  (forall n, n ∈ nodeOrder p -> 0 <= cursor_at p n < len (conns_at p n)) ->
  (length nows <= length (nodeOrder p))%nat ->
  0 < len (nodeOrder p) ->
  exists rs p' st',
    GetConnection_calls nows p st = Done (rs, p', st') /\
    length rs = length nows /\
    (forall j, (j < length nows)%nat ->
       exists n conn,
         nodeOrder p !! Z.to_nat ((nodeOrderIndex p + Z.of_nat j)
                                   mod len (nodeOrder p)) = Some n /\
         conns_at p n !! Z.to_nat (cursor_at p n) = Some conn /\
         rs !! j = Some (Ok conn)) /\
    nodeConnections p' = nodeConnections p /\
    nodeOrder p' = nodeOrder p /\
    nodeOrderIndex p' mod len (nodeOrder p)
      = (nodeOrderIndex p + len nows) mod len (nodeOrder p) /\
    (nows <> [] -> 0 <= nodeOrderIndex p' < len (nodeOrder p)).
Proof.
  revert p st. induction nows as [|now nows IH]; intros p st Hidx Hnd Hcur Hk HL.
  - exists [], p, st. simpl. split; [done|]. split; [done|].
    split; [intros j Hj; lia|]. split; [done|]. split; [done|].
    split; [|done]. by rewrite len_nil, Z.add_0_r.
  - destruct (GetConnection_head now p st Hidx HL Hcur) as (n0 & c0 & Hn0 & Hc0 & Hcall).
    set (L := len (nodeOrder p)) in *.
    set (p1 := served p (nodeOrderIndex p mod L) n0) in *.
    pose proof (Z.mod_pos_bound (nodeOrderIndex p) L HL) as Hb0.
    pose proof (Z.mod_pos_bound (nodeOrderIndex p mod L + 1) L HL) as Hb1.
    assert (n0 ∈ nodeOrder p) as Hin0 by (by eapply list_elem_of_lookup_2).
    assert (forall n, conns_at p1 n = conns_at p n) as Hconns by done.
    assert (cursor_at p1 n0 = (cursor_at p n0 + 1) mod len (conns_at p n0)) as Hcur0.
    { unfold cursor_at at 1. simpl. by rewrite lookup_insert_eq. }
    assert (forall n, n <> n0 -> cursor_at p1 n = cursor_at p n) as Hcurne.
    { intros n Hn. unfold cursor_at. simpl. by rewrite lookup_insert_ne. }
    destruct (IH p1 (store_set st c0 (set_LastUsed (st c0) now)))
      as (rs & p' & st' & Hcalls & Hlen & Hrs & Hm & Ho & Hi & Hrange).
    { simpl. fold L. lia. }
    { done. }
    { intros n Hn. rewrite Hconns. destruct (decide (n = n0)) as [->|Hne].
      - rewrite Hcur0. apply Z.mod_pos_bound. specialize (Hcur n0 Hin0). lia.
      - rewrite Hcurne by done. by apply Hcur. }
    { simpl in *. lia. }
    { done. }
    exists (Ok c0 :: rs), p', st'. simpl. rewrite Hcall. simpl. rewrite Hcalls. simpl.
    split; [done|]. split; [by rewrite Hlen|].
    assert (nodeOrderIndex p1 = (nodeOrderIndex p mod L + 1) mod L) as Hidx1 by done.
    split.
    { intros [|j] Hj.
      - exists n0, c0. rewrite Z.add_0_r. by split.
      - destruct (Hrs j ltac:(lia)) as (n & conn & Hn & Hconn & Hr).
        change (len (nodeOrder p1)) with L in Hn.
        change (nodeOrder p1) with (nodeOrder p) in Hn.
        rewrite Hidx1, Zplus_mod_idemp_l, <- Z.add_assoc, Zplus_mod_idemp_l in Hn.
        replace (nodeOrderIndex p + (1 + Z.of_nat j))
          with (nodeOrderIndex p + Z.of_nat (S j)) in Hn by lia.
        exists n, conn. split; [done|]. split; [|done].
        rewrite Hconns in Hconn. rewrite Hcurne in Hconn; [done|].
        intros ->.
        pose proof (NoDup_lookup _ _ _ _ Hnd Hn Hn0) as Heq.
        pose proof (Z.mod_pos_bound (nodeOrderIndex p + Z.of_nat (S j)) L HL).
        assert ((nodeOrderIndex p + Z.of_nat (S j)) mod L = nodeOrderIndex p mod L)
          as Heq' by lia.
        assert (Z.of_nat (S j) mod L = 0) as Hz.
        { replace (Z.of_nat (S j))
            with (nodeOrderIndex p + Z.of_nat (S j) - nodeOrderIndex p) by lia.
          rewrite Zminus_mod, Heq', Z.sub_diag. by apply Z.mod_0_l; lia. }
        rewrite Z.mod_small in Hz; [lia|]. unfold L, len. simpl in Hj, Hk. lia. }
    split; [done|]. split; [done|]. split.
    { change (len (nodeOrder p1)) with L in Hi. rewrite Hi, Hidx1.
      rewrite Zplus_mod_idemp_l, <- Z.add_assoc, Zplus_mod_idemp_l.
      f_equal. unfold len. simpl. lia. }
    intros _. destruct nows as [|now' nows'].
    + simpl in Hcalls. injection Hcalls as <- <- <-. rewrite Hidx1. lia.
    + apply Hrange. done.
Qed.

(** X8.  Node-level round-robin.  In a pool whose ordered nodes are
    distinct and all hold sessions, with cursors in range, a run of at most
    as many [GetConnection] calls as there are nodes never fails, and call
    number [j] is served by the node at position (node cursor + j) modulo
    the node count, with the session under that node's cursor: no node is
    served twice before every node has been served once.  Afterwards the
    node cursor has advanced by the number of calls, modulo the node
    count, and the buckets and the ordered list are as before. *)
Theorem GetConnection_node_round (nows : list Z) (p : ConnectionPool) (st : Store) :
  0 <= nodeOrderIndex p ->
  NoDup (nodeOrder p) ->
  (forall n, n ∈ nodeOrder p -> 0 <= cursor_at p n < len (conns_at p n)) ->
  (length nows <= length (nodeOrder p))%nat ->
  nows <> [] ->
  exists rs p' st',
    GetConnection_calls nows p st = Done (rs, p', st') /\
    length rs = length nows /\
    (forall j, (j < length nows)%nat ->
       exists n conn,
         nodeOrder p !! Z.to_nat ((nodeOrderIndex p + Z.of_nat j)
                                   mod len (nodeOrder p)) = Some n /\
         conns_at p n !! Z.to_nat (cursor_at p n) = Some conn /\
         rs !! j = Some (Ok conn)) /\
    nodeConnections p' = nodeConnections p /\
    nodeOrder p' = nodeOrder p /\
    nodeOrderIndex p' = (nodeOrderIndex p + len nows) mod len (nodeOrder p).
Proof.
  intros Hidx Hnd Hcur Hk Hne.
  assert (0 < len (nodeOrder p)) as HL.
  { destruct nows; [done|]. unfold len. simpl in Hk. lia. }
  destruct (GetConnection_calls_round nows p st Hidx Hnd Hcur Hk HL)
    as (rs & p' & st' & H1 & H2 & H3 & H4 & H5 & H6 & H7).
  exists rs, p', st'. do 5 (split; [done|]).
  rewrite <- H6. symmetry. apply Z.mod_small. by apply H7.
Qed.

Lemma GetConnection_node_round_witness :
  exists p' st',
    GetConnection_calls [10; 20] pool_c4 store_c4 = Done ([Ok 4%nat; Ok 1%nat], p', st') /\
    nodeOrderIndex p' = 1.
Proof.
  destruct (GetConnection_node_round [10; 20] pool_c4 store_c4)
    as (rs & p' & st' & H1 & _ & _ & _ & _ & H6).
  - by vm_compute.
  - apply (bool_decide_unpack _). vm_compute. reflexivity.
  - intros n Hn. apply list_elem_of_lookup_1 in Hn as [[|[|i]] Hi];
      [injection Hi as <-; by vm_compute..|discriminate Hi].
  - simpl. lia.
  - discriminate.
  - exists p', st'. split; [|exact H6].
    rewrite H1. vm_compute in H1. injection H1 as <- _ _. reflexivity.
Defined.

(** ** What the reaper reports *)

Lemma reap_node_count (st : Store) (now t m : Z) (acc : Z * ConnectionPool)
    (kv : string * list ptr) :
  nodeConnections acc.2 !! kv.1 = Some kv.2 ->
  let r := reap_node st now t m acc kv in
  r.1 - acc.1 = Size acc.2 - Size r.2 /\ acc.1 <= r.1.
Proof.
  intros Hb. unfold reap_node.
  destruct (len kv.2 <=? m); [simpl; lia|].
  pose proof (split_idle_len st now t kv.2) as Hsplit.
  set (active := (split_idle st now t kv.2).1) in *.
  set (idle := (split_idle st now t kv.2).2) in *.
  set (willRemove := Z.min (len idle) (wrap64 (len kv.2 - m))).
  destruct (Z.leb_spec willRemove 0) as [|Hpos]; [simpl; lia|].
  set (new := if 0 <? len idle - willRemove
              then active ++ take (Z.to_nat (len idle - willRemove)) idle
              else active).
  assert (len new = len kv.2 - willRemove) as Hnew.
  { unfold new. destruct (Z.ltb_spec 0 (len idle - willRemove)).
    - rewrite len_app. unfold len at 2. rewrite length_take.
      unfold len in *. lia.
    - unfold willRemove in *. lia. }
  destruct (Z.eqb_spec (len new) 0); simpl; rewrite !Size_total; simpl.
  - rewrite total_delete, Hb. simpl. lia.
  - rewrite total_insert, Hb. simpl. lia.
Qed.

Lemma reap_fold_count (st : Store) (now t m : Z) (kvs : list (string * list ptr))
    (acc : Z * ConnectionPool) :
  NoDup kvs.*1 ->
  (forall kv, kv ∈ kvs -> nodeConnections acc.2 !! kv.1 = Some kv.2) ->
  let r := foldl (reap_node st now t m) acc kvs in
  r.1 - acc.1 = Size acc.2 - Size r.2 /\ acc.1 <= r.1.
Proof.
  revert acc. induction kvs as [|kv kvs IH]; intros acc Hnd Hb; simpl; [lia|].
  rewrite fmap_cons in Hnd. apply NoDup_cons in Hnd as [Hnotin Hnd].
  destruct (reap_node_count st now t m acc kv) as [H1 H2].
  { apply Hb. left. }
  destruct (IH (reap_node st now t m acc kv) Hnd) as [H3 H4].
  { intros kv' Hin.
    destruct (reap_node_frame st now t m acc kv kv'.1) as [-> _].
    - intros Heq. apply Hnotin. rewrite <- Heq.
      apply list_elem_of_fmap. by exists kv'.
    - apply Hb. by right. }
  simpl in *. lia.
Qed.

(** X9.  Whatever order the buckets are visited in, the number that
    [RemoveIdleConnections] returns is exactly the number of sessions the
    pool has lost: the size before minus the size after.  It is never
    negative, so the pool never grows. *)
Theorem RemoveIdleConnections_count (st : Store) (now idleTimeout minSizePerNode : Z)
    (kvs : list (string * list ptr)) (p : ConnectionPool) :
  visits (nodeConnections p) kvs ->
  let r := RemoveIdleConnections st now idleTimeout minSizePerNode kvs p in
  r.1 = Size p - Size r.2 /\ 0 <= r.1.
Proof.
  intros Hv. unfold RemoveIdleConnections. unfold visits in Hv.
  destruct (reap_fold_count st now idleTimeout minSizePerNode kvs (0, p)) as [H1 H2].
  - rewrite Hv. apply NoDup_fst_map_to_list.
  - intros [k conns] Hin. simpl. apply elem_of_map_to_list. by rewrite <- Hv.
  - simpl in *. lia.
Qed.

Lemma RemoveIdleConnections_count_witness :
  let r := RemoveIdleConnections store_c6 1000 300 2
             (map_to_list (nodeConnections pool_c6)) pool_c6 in
  r.1 = Size pool_c6 - Size r.2 /\ 0 <= r.1.
Proof.
  apply (RemoveIdleConnections_count store_c6 1000 300 2
           (map_to_list (nodeConnections pool_c6)) pool_c6).
  unfold visits. reflexivity.
Defined.

(** ** A second sweep at the same instant *)

Lemma reap_node_skip (st : Store) (now t m : Z) (acc : Z * ConnectionPool)
    (kv : string * list ptr) :
  reap_bucket st now t m kv.2 = None -> reap_node st now t m acc kv = acc.
Proof.
  unfold reap_bucket, reap_node.
  destruct (len kv.2 <=? m); [done|]. simpl.
  by destruct (Z.min _ _ <=? 0).
Qed.

Lemma filter_idle_active (st : Store) (now t : Z) (conns : list ptr) :
  filter (fun c => is_idle st now t c = true)
         (filter (fun c => is_idle st now t c = false) conns) = [].
Proof.
  induction conns as [|c conns IH]; [done|].
  destruct (is_idle st now t c) eqn:Hc.
  - rewrite (filter_cons_False (fun c => is_idle st now t c = false)); [done|].
    by rewrite Hc.
  - rewrite (filter_cons_True (fun c => is_idle st now t c = false)) by done.
    rewrite filter_cons_False; [done|]. by rewrite Hc.
Qed.

Lemma reap_bucket_settled (st : Store) (now t m : Z) (conns new : list ptr) :
  - 2 ^ 63 <= m -> len conns < 2 ^ 63 ->
  reap_bucket st now t m conns = Some new ->
  reap_bucket st now t m new = None.
Proof.
  intros Hm Hlen. unfold reap_bucket.
  destruct (Z.leb_spec (len conns) m) as [|Hgt]; [done|].
  rewrite split_idle_filter. simpl.
  pose proof (split_idle_len st now t conns) as Hsplit.
  rewrite split_idle_filter in Hsplit. simpl in Hsplit.
  set (active := filter (fun c => is_idle st now t c = false) conns) in *.
  set (idle := filter (fun c => is_idle st now t c = true) conns) in *.
  set (willRemove := Z.min (len idle) (wrap64 (len conns - m))).
  destruct (Z.leb_spec willRemove 0) as [|Hpos]; [done|].
  intros [= <-].
  pose proof (len_nonneg active). pose proof (len_nonneg idle).
  assert (wrap64 (len conns - m) = len conns - m) as Hw.
  { destruct (Z.lt_ge_cases (len conns - m) (2 ^ 63)) as [Hs|Hb].
    - apply wrap64_id. lia.
    - exfalso. assert (wrap64 (len conns - m) = len conns - m - 2 ^ 64) as Hneg.
      { unfold wrap64.
        replace (len conns - m + 2 ^ 63)
          with ((len conns - m - 2 ^ 63) + 1 * 2 ^ 64) by lia.
        rewrite Z.mod_add by lia. rewrite Z.mod_small; lia. }
      unfold willRemove in Hpos. lia. }
  assert (len (take (Z.to_nat (len idle - willRemove)) idle) = len idle - willRemove)
    as Htake.
  { unfold len at 1. rewrite length_take. unfold len in *. lia. }
  set (new := active ++ take (Z.to_nat (len idle - willRemove)) idle).
  assert (len new = len conns - willRemove) as Hnew.
  { unfold new. rewrite len_app, Htake. lia. }
  destruct (Z.leb_spec (len new) m) as [|Hgt']; [done|].
  assert (willRemove = len idle) as Hall by (unfold willRemove in *; lia).
  assert (new = active) as ->.
  { unfold new. rewrite Hall, Z.sub_diag. simpl. by rewrite app_nil_r. }
  rewrite split_idle_filter. simpl. unfold active at 1 3 5.
  rewrite filter_idle_active, len_nil.
  destruct (Z.leb_spec (Z.min 0 (wrap64 (len active - m))) 0) as [|Hbad]; [done|].
  lia.
Qed.

Lemma reap_fold_skip (st : Store) (now t m : Z) (kvs : list (string * list ptr))
    (acc : Z * ConnectionPool) :
  (forall kv, kv ∈ kvs -> reap_bucket st now t m kv.2 = None) ->
  foldl (reap_node st now t m) acc kvs = acc.
Proof.
  induction kvs as [|kv kvs IH]; intros Hall; simpl; [done|].
  rewrite reap_node_skip by (apply Hall; left).
  apply IH. intros kv' Hin. apply Hall. by right.
Qed.

(** X10.  A second sweep at the same instant takes nothing.  With the
    minimum and the bucket sizes in the range of an int, running
    [RemoveIdleConnections] again on the pool it has just left, at the same
    time and with the same timeout and minimum, returns 0 and leaves that
    pool exactly as it is, whatever order the two sweeps visit the buckets
    in: one sweep already removes everything the rule allows. *)
Theorem RemoveIdleConnections_twice (st : Store) (now idleTimeout minSizePerNode : Z)
    (kvs kvs' : list (string * list ptr)) (p : ConnectionPool) :
  - 2 ^ 63 <= minSizePerNode ->
  (forall n, SizeForNode p n < 2 ^ 63) ->
  visits (nodeConnections p) kvs ->
  let p1 := (RemoveIdleConnections st now idleTimeout minSizePerNode kvs p).2 in
  visits (nodeConnections p1) kvs' ->
  RemoveIdleConnections st now idleTimeout minSizePerNode kvs' p1 = (0, p1).
Proof.
  intros Hm Hsz Hv p1 Hv'. unfold RemoveIdleConnections at 1.
  apply reap_fold_skip. intros [k c'] Hin. simpl.
  unfold visits in Hv, Hv'. rewrite Hv' in Hin.
  apply elem_of_map_to_list in Hin.
  assert (NoDup kvs.*1) as Hnd by (rewrite Hv; apply NoDup_fst_map_to_list).
  destruct (nodeConnections p !! k) as [conns|] eqn:Hk.
  - assert ((k, conns) ∈ kvs) as Hkv by (rewrite Hv; by apply elem_of_map_to_list).
    destruct (reap_fold_at st now idleTimeout minSizePerNode kvs (0, p) k conns Hnd Hkv)
      as (acc1 & Hb1 & _ & _ & Hb2 & _).
    simpl in Hb1. fold (RemoveIdleConnections st now idleTimeout minSizePerNode kvs p)
      in Hb2. fold p1 in Hb2. rewrite Hin in Hb2.
    rewrite reap_node_bucket in Hb2. simpl in Hb2.
    destruct (reap_bucket st now idleTimeout minSizePerNode conns) as [new|] eqn:Hrb.
    + destruct (reaped_pool_at acc1.2 k new) as (_ & Hnil & Hsome & _).
      destruct (decide (new = [])) as [Hn|Hn].
      * destruct (Hnil Hn) as [Hnone _]. congruence.
      * rewrite (Hsome Hn) in Hb2. injection Hb2 as ->.
        apply (reap_bucket_settled st now idleTimeout minSizePerNode conns);
          [done | | done].
        specialize (Hsz k). unfold SizeForNode in Hsz. by rewrite Hk in Hsz.
    + rewrite Hb1, Hk in Hb2. by injection Hb2 as ->.
  - destruct (reap_fold_frame st now idleTimeout minSizePerNode kvs (0, p) k)
      as [Hf _].
    + rewrite Hv. intros Hin'. apply elem_of_keys in Hin' as [x Hx]. congruence.
    + simpl in Hf.
      fold (RemoveIdleConnections st now idleTimeout minSizePerNode kvs p) in Hf.
      fold p1 in Hf. congruence.
Qed.

Lemma RemoveIdleConnections_twice_witness :
  let p1 := (RemoveIdleConnections store_c6 1000 300 2
               (map_to_list (nodeConnections pool_c6)) pool_c6).2 in
  RemoveIdleConnections store_c6 1000 300 2 (map_to_list (nodeConnections p1)) p1
  = (0, p1).
Proof.
  apply (RemoveIdleConnections_twice store_c6 1000 300 2
           (map_to_list (nodeConnections pool_c6))).
  - by vm_compute.
  - intros n. unfold SizeForNode, pool_c6. simpl.
    destruct (decide (n = "P1")) as [->|H1]; [by vm_compute|].
    destruct (decide (n = "P2")) as [->|H2]; [by vm_compute|].
    rewrite lookup_insert_ne, lookup_singleton_ne by done. done.
  - unfold visits. reflexivity.
  - unfold visits. reflexivity.
Defined.

(** ** The invariant through the operations of the pool *)

Lemma pool_inv_GetConnectionForNode (now : Z) (p : ConnectionPool) (st : Store)
    (nodeID : string) (r : result ptr) (p' : ConnectionPool) (st' : Store) :
  pool_inv p -> GetConnectionForNode now p st nodeID = Done (r, p', st') -> pool_inv p'.
Proof.
  intros [Ho [Hidx Hcur]]. unfold GetConnectionForNode.
  destruct (nodeConnections p !! nodeID) as [conns|] eqn:Hb; [|by intros [= _ <- _]].
  destruct (Z.eqb_spec (len conns) 0) as [|Hne]; [by intros [= _ <- _]|].
  destruct (index conns (cursor_at p nodeID)) as [conn|] eqn:Hix; [|done].
  intros [= _ <- _]. apply index_Some in Hix as [Hrange _].
  split; [done|]. split; [done|]. intros n. unfold cursor_at, conns_at. simpl.
  destruct (decide (n = nodeID)) as [->|Hn].
  - rewrite lookup_insert_eq, Hb. simpl.
    fold (cursor_at p nodeID).
    rewrite Z.rem_mod_nonneg by lia.
    pose proof (Z.mod_pos_bound (cursor_at p nodeID + 1) (len conns) ltac:(lia)).
    split; [lia|]. split; [intros _; lia|]. intros ->. by rewrite len_nil in Hne.
  - rewrite lookup_insert_ne by done. apply Hcur.
Qed.

Lemma reap_keeps_cursor (st : Store) (now idleTimeout minSizePerNode : Z)
    (kvs : list (string * list ptr)) (p : ConnectionPool) :
  visits (nodeConnections p) kvs ->
  NoDup (nodeOrder p) ->
  forall (nodeID : string) (conns : list ptr),
    nodeConnections p !! nodeID = Some conns ->
    let p' := (RemoveIdleConnections st now idleTimeout minSizePerNode kvs p).2 in
    let conns' := conns_at p' nodeID in
    (conns' <> conns -> len conns' <= cursor_at p nodeID -> cursor_at p' nodeID = 0) /\
    (conns' <> [] -> cursor_at p nodeID < len conns' ->
     cursor_at p' nodeID = cursor_at p nodeID) /\
    (conns <> [] -> conns' = [] -> nodeID ∉ nodeOrder p') /\
    (conns' <> [] -> nodeConnections p' !! nodeID = Some conns') /\
    (conns' = conns ->
     nodeConnections p' !! nodeID = Some conns /\
     cursor_at p' nodeID = cursor_at p nodeID).
Proof.
  intros Hv Hnd nodeID conns Hconns p' conns'.
  assert (NoDup kvs.*1) as Hkeys.
  { unfold visits in Hv. rewrite Hv. apply NoDup_fst_map_to_list. }
  assert ((nodeID, conns) ∈ kvs) as Hin.
  { unfold visits in Hv. rewrite Hv. by apply elem_of_map_to_list. }
  destruct (reap_fold_at st now idleTimeout minSizePerNode kvs (0, p) nodeID conns
              Hkeys Hin)
    as (acc1 & Hc1 & Hi1 & Ho1 & Hc & Hi & Ho).
  fold (RemoveIdleConnections st now idleTimeout minSizePerNode kvs p) in Hc, Hi, Ho.
  fold p' in Hc, Hi, Ho. simpl in Hc1, Hi1, Ho1.
  rewrite reap_node_bucket in Hc, Hi, Ho. simpl in Hc, Hi, Ho.
  assert (cursor_at acc1.2 nodeID = cursor_at p nodeID) as Hcur1
    by (unfold cursor_at; by rewrite Hi1).
  assert (NoDup (nodeOrder acc1.2)) as Hnd1 by (exact (sublist_NoDup _ _ Hnd Ho1)).
  destruct (reap_bucket st now idleTimeout minSizePerNode conns) as [new|] eqn:Hb.
  - destruct (reap_bucket_Some _ _ _ _ _ _ Hb) as (Hsub & Hgone & Hkept & Hmin & Hlt).
    destruct (reaped_pool_at acc1.2 nodeID new) as (Hat & Hempty & Hsome & Hcur).
    assert (conns' = new) as Hconns'.
    { unfold conns', conns_at. rewrite Hc. exact Hat. }
    assert (cursor_at p' nodeID =
            if (len new =? 0) || (len new <=? cursor_at p nodeID)
            then 0 else cursor_at p nodeID) as Hcur'.
    { unfold cursor_at at 1. rewrite Hi. fold (cursor_at (reaped_pool acc1.2 nodeID new) nodeID).
      by rewrite Hcur, Hcur1. }
    rewrite Hconns'. repeat split; try done.
    + intros _ Hle. rewrite Hcur'.
      destruct (Z.leb_spec (len new) (cursor_at p nodeID)); [|lia].
      by rewrite orb_true_r.
    + intros Hne Hle. rewrite Hcur'.
      destruct (Z.leb_spec (len new) (cursor_at p nodeID)); [lia|].
      destruct (Z.eqb_spec (len new) 0) as [H0|]; [|done].
      by apply len_nil_iff in H0.
    + intros _ H0. destruct (Hempty H0) as (_ & _ & Hnot). intros Hx.
      apply (Hnot Hnd1). by apply (sublist_subseteq _ _ Ho).
    + intros Hne. rewrite Hc. by apply Hsome.
    + exfalso. rewrite H in Hlt. lia.
    + exfalso. rewrite H in Hlt. lia.
  - assert (conns' = conns) as Hconns'.
    { unfold conns', conns_at. by rewrite Hc, Hc1, Hconns. }
    rewrite Hconns'. repeat split; try done.
    + intros _ _. unfold cursor_at. by rewrite Hi, Hi1.
    + intros _. by rewrite Hc, Hc1.
    + by rewrite Hc, Hc1.
    + unfold cursor_at. by rewrite Hi, Hi1.
Qed.

Lemma pool_inv_reaped (st : Store) (now idleTimeout minSizePerNode : Z)
    (kvs : list (string * list ptr)) (p : ConnectionPool) :
  visits (nodeConnections p) kvs ->
  pool_inv p ->
  pool_inv (RemoveIdleConnections st now idleTimeout minSizePerNode kvs p).2.
Proof.
  intros Hv [[Hnd Hin] [Hidx Hcur]].
  pose proof (reap_keeps_cursor st now idleTimeout minSizePerNode kvs p Hv Hnd)
    as Hreap.
  set (p' := (RemoveIdleConnections st now idleTimeout minSizePerNode kvs p).2) in *.
  assert (nodeOrder p' `sublist_of` nodeOrder p) as Hsub
    by apply reap_fold_order.
  assert (forall n, nodeConnections p !! n = None ->
            nodeConnections p' !! n = None /\
            nodeRoundRobinIndices p' !! n = nodeRoundRobinIndices p !! n) as Hframe.
  { intros n Hn.
    destruct (reap_fold_frame st now idleTimeout minSizePerNode kvs (0, p) n)
      as [H1 H2].
    { unfold visits in Hv. rewrite Hv, elem_of_keys, Hn. by intros [? ?]. }
    simpl in H1, H2. rewrite Hn in H1. by split. }
  assert (0 <= nodeOrderIndex p') as Hidx'
    by (by apply reap_fold_index).
  split; [split|split].
  - exact (sublist_NoDup _ _ Hnd Hsub).
  - intros n Hn. apply (sublist_subseteq _ _ Hsub) in Hn as Hn0.
    destruct (Hin n Hn0) as [conns Hconns].
    destruct (Hreap n conns Hconns) as (_ & _ & Hempty & Hsome & Hsame).
    destruct (decide (conns_at p' n = [])) as [Hnil|Hne]; [|rewrite (Hsome Hne); eauto].
    destruct (decide (conns = [])) as [->|Hc].
    + destruct (Hsame Hnil) as [-> _]. eauto.
    + by pose proof (Hempty Hc Hnil).
  - exact Hidx'.
  - intros n. destruct (Hcur n) as (H0 & Hlt & Hz).
    destruct (nodeConnections p !! n) as [conns|] eqn:Hconns.
    + assert (conns_at p n = conns) as Hat by (unfold conns_at; by rewrite Hconns).
      rewrite Hat in Hlt, Hz.
      destruct (Hreap n conns Hconns)
        as (Hreset & Hkeep & Hempty & _ & Hsame).
      destruct (decide (conns_at p' n = conns)) as [Heq|Hneq].
      * destruct (Hsame Heq) as [_ ->]. rewrite Heq. repeat split; done.
      * destruct (Z.le_gt_cases (len (conns_at p' n)) (cursor_at p n)) as [Hle|Hgt].
        -- rewrite (Hreset Hneq Hle). split; [done|]. split; [|done].
           intros Hne. destruct (conns_at p' n); [done|]. unfold len. simpl. lia.
        -- assert (conns_at p' n <> []) as Hne.
           { intros Hnil. rewrite Hnil in Hgt. len_lia. }
           rewrite (Hkeep Hne ltac:(lia)). split; [done|]. split; [intros _; lia | done].
    + destruct (Hframe n Hconns) as [Hc' Hi'].
      unfold conns_at, cursor_at in *. rewrite Hc', Hi'. rewrite Hconns in Hlt, Hz.
      repeat split; done.
Qed.

(** X11.  The invariant of the pool (the ordered nodes are distinct and
    each has a bucket; the node cursor is not negative; every per-node
    cursor points into its bucket, and is 0 where there is no session) is
    kept by [AddBatch], by every [GetConnection] and [GetConnectionForNode]
    that returns, by [RemoveIdleConnections] in whatever order it visits
    the buckets, and by [Clear]. *)
Theorem pool_inv_kept (st : Store) (now : Z) (p : ConnectionPool) :
  pool_inv p ->
  (forall kvs conns, pool_inv (AddBatch st kvs p conns)) /\
  (forall r p' st', GetConnection now p st = Done (r, p', st') -> pool_inv p') /\
  (forall nodeID r p' st',
     GetConnectionForNode now p st nodeID = Done (r, p', st') -> pool_inv p') /\
  (forall idleTimeout minSizePerNode kvs,
     visits (nodeConnections p) kvs ->
     pool_inv (RemoveIdleConnections st now idleTimeout minSizePerNode kvs p).2) /\
  pool_inv (Clear p).
Proof.
  intros Hinv. split; [|split; [|split; [|split]]].
  - intros kvs conns. by apply pool_inv_AddBatch.
  - intros r p' st'. by apply pool_inv_GetConnection.
  - intros nodeID r p' st'. by apply pool_inv_GetConnectionForNode.
  - intros t m kvs Hv. by apply pool_inv_reaped.
  - apply pool_inv_Clear.
Qed.

Lemma pool_inv_kept_witness :
  pool_inv (RemoveIdleConnections store_c6 1000 300 2
              (map_to_list (nodeConnections pool_c6)) pool_c6).2.
Proof.
  destruct (pool_inv_kept store_c6 1000 pool_c6) as (_ & _ & _ & H & _).
  - split; split.
    + apply (bool_decide_unpack _). vm_compute. reflexivity.
    + intros n Hn. apply list_elem_of_lookup_1 in Hn as [[|[|i]] Hi];
        [injection Hi as <-; by eexists..|discriminate Hi].
    + by vm_compute.
    + intros n. unfold cursor_at, conns_at, pool_c6. simpl.
      destruct (decide (n = "P1")) as [->|H1]; [by vm_compute|].
      destruct (decide (n = "P2")) as [->|H2]; [by vm_compute|].
      rewrite !lookup_insert_ne, !lookup_singleton_ne by done. simpl. done.
  - apply H. unfold visits. reflexivity.
Defined.

(** ** A batch and one-by-one additions *)

Lemma conns_at_Add (st : Store) (p : ConnectionPool) (conn : ptr) (n : string) :
  conns_at (Add st p conn) n =
  conns_at p n ++ (if bool_decide (NodeID (st conn) = n) then [conn] else []).
Proof.
  unfold Add. rewrite conns_at_append_conns.
  destruct (decide (n = NodeID (st conn))) as [->|Hn].
  - rewrite !bool_decide_eq_true_2 by done. by rewrite conns_at_ensure_node.
  - rewrite !bool_decide_eq_false_2 by done.
    by rewrite conns_at_ensure_node_any, app_nil_r.
Qed.

Lemma conns_at_Adds (st : Store) (conns : list ptr) (p : ConnectionPool) (n : string) :
  conns_at (foldl (Add st) p conns) n =
  conns_at p n ++ filter (fun c => NodeID (st c) = n) conns.
Proof.
  revert p. induction conns as [|c conns IH]; intros p; simpl.
  - by rewrite app_nil_r.
  - rewrite IH, conns_at_Add, <- app_assoc. f_equal.
    case_bool_decide as Hc.
    + by rewrite filter_cons_True.
    + by rewrite filter_cons_False.
Qed.

Lemma group_by_node_from (st : Store) (conns : list ptr)
    (acc : gmap string (list ptr)) (n : string) :
  default [] (foldl (fun acc conn =>
                       let nodeID := NodeID (st conn) in
                       <[nodeID := default [] (acc !! nodeID) ++ [conn]]> acc)
                    acc conns !! n)
  = default [] (acc !! n) ++ filter (fun c => NodeID (st c) = n) conns.
Proof.
  revert acc. induction conns as [|c conns IH]; intros acc; simpl.
  - by rewrite app_nil_r.
  - rewrite IH. destruct (decide (NodeID (st c) = n)) as [Hc|Hc].
    + rewrite filter_cons_True by done. subst n.
      rewrite lookup_insert_eq. simpl. by rewrite <- app_assoc.
    + rewrite filter_cons_False by done. by rewrite lookup_insert_ne.
Qed.

Lemma conns_at_AddBatch_loop (kvs : list (string * list ptr)) (p : ConnectionPool)
    (n : string) :
  NoDup kvs.*1 ->
  conns_at (AddBatch_loop p kvs) n =
  conns_at p n ++ default [] ((list_to_map kvs : gmap string (list ptr)) !! n).
Proof.
  revert p. induction kvs as [|kv kvs IH]; intros p Hnd.
  - simpl. by rewrite lookup_empty, app_nil_r.
  - rewrite fmap_cons in Hnd. apply NoDup_cons in Hnd as [Hnotin Hnd].
    unfold AddBatch_loop in *. simpl. rewrite IH by done.
    rewrite conns_at_append_conns. case_bool_decide as Hn.
    + subst n. rewrite conns_at_ensure_node, lookup_insert_eq.
      rewrite (proj1 (not_elem_of_list_to_map kvs kv.1)) by done.
      simpl. by rewrite app_nil_r.
    + rewrite conns_at_ensure_node_any, lookup_insert_ne by done. done.
Qed.

(** X12.  [AddBatch] appends to the bucket of every node the sessions of
    the batch that belong to that node, in the order of the batch, whatever
    order the grouped batch is visited in; bucket by bucket the result is
    the one of adding the sessions one at a time with [Add]. *)
Theorem AddBatch_as_Adds (st : Store) (kvs : list (string * list ptr))
    (p : ConnectionPool) (conns : list ptr) :
  visits (group_by_node st conns) kvs ->
  forall n,
    conns_at (AddBatch st kvs p conns) n
      = conns_at p n ++ filter (fun c => NodeID (st c) = n) conns /\
    conns_at (AddBatch st kvs p conns) n = conns_at (foldl (Add st) p conns) n.
Proof.
  intros Hv n. rewrite conns_at_Adds.
  assert (conns_at (AddBatch st kvs p conns) n
          = conns_at p n ++ filter (fun c => NodeID (st c) = n) conns) as H;
    [|by split].
  unfold AddBatch. destruct (Z.eqb_spec (len conns) 0) as [H0|_].
  { apply len_nil_iff in H0 as ->. by rewrite filter_nil, app_nil_r. }
  unfold visits in Hv.
  assert (NoDup kvs.*1) as Hnd by (rewrite Hv; apply NoDup_fst_map_to_list).
  rewrite conns_at_AddBatch_loop by done. f_equal.
  rewrite (list_to_map_proper kvs (map_to_list (group_by_node st conns))) by done.
  rewrite list_to_map_to_list. unfold group_by_node.
  rewrite group_by_node_from. by rewrite lookup_empty.
Qed.

Lemma AddBatch_as_Adds_witness :
  conns_at (AddBatch store_c7 (map_to_list (group_by_node store_c7 [5%nat; 7%nat; 6%nat]))
              pool_c4 [5%nat; 7%nat; 6%nat]) "P1"
  = conns_at (foldl (Add store_c7) pool_c4 [5%nat; 7%nat; 6%nat]) "P1".
Proof.
  apply (AddBatch_as_Adds store_c7
           (map_to_list (group_by_node store_c7 [5%nat; 7%nat; 6%nat]))
           pool_c4 [5%nat; 7%nat; 6%nat]).
  unfold visits. reflexivity.
Defined.

(** * Further properties of the dispatcher *)

(** ** The auto-refresh block *)

Lemma sendHttpRequest_no_401 (conn : ptr) (method endpoint : string)
    (data : option JSON) (config : ClientConfig) (withToken : bool) (w : World) :
  no_401_with_error w ->
  let r := sendHttpRequest conn method endpoint data config withToken w in
  no_401_with_error r.2 /\ (is_Some r.1.2 -> is_unauthorized r.1.1 = false).
Proof.
  intros Hw. unfold sendHttpRequest.
  destruct (createHttpRequest _ _ _ _ _ _) as [req|e]; simpl; [|done].
  unfold Do. unfold no_401_with_error in *.
  destruct (script w) as [|r rest]; simpl.
  - split; [apply Forall_nil_2 | done].
  - apply Forall_cons in Hw as [Hr Hrest]. by split.
Qed.

Lemma sendRequestToPool_body_refresh_dead
    (leader : bool -> Client -> World -> outcome (result JSON * Client * World))
    (c : Client) (conn : option ptr) (method endpoint : string) (body : option JSON)
    (withToken fallback : bool) (w : World) :
  no_401_with_error w ->
  (forall c' w', no_401_with_error w' -> leader true c' w' = leader false c' w') ->
  sendRequestToPool_body leader c conn method endpoint body withToken AUTO_REFRESH
                         fallback w =
  sendRequestToPool_body leader c conn method endpoint body withToken NO_REFRESH
                         fallback w.
Proof.
  intros Hw Hleader. unfold sendRequestToPool_body.
  destruct conn as [conn|]; [|done].
  destruct (getAndCheckToken _ _); [done|].
  destruct (sendHttpRequest_no_401 conn method endpoint body (Config c) withToken w Hw)
    as [Hw1 Hresp].
  destruct (sendHttpRequest conn method endpoint body (Config c) withToken w)
    as [[resp err] w1]. simpl in *.
  destruct err as [err|]; [|done].
  rewrite (Hresp ltac:(eauto)). rewrite !andb_false_r. simpl.
  destruct (fallback && negb (bool_decide (leaderConn c = Some conn))); [|done].
  destruct withToken; simpl; [|done]. unfold AUTO_REFRESH, NO_REFRESH.
  by rewrite Hleader.
Qed.

(** X13.  As long as the transport never returns an error together with a
    401 response (with net/http an error carries a nil response, or the
    last redirect), the auto-refresh flag changes nothing: with
    [AUTO_REFRESH] the dispatcher returns the same result, sends the same
    requests and leaves the same state as with [NO_REFRESH], on the
    connection it is given and on the leader fallback alike.  No refresh
    and no reconnect is ever attempted. *)
Theorem sendRequestToPool_refresh_dead (c : Client) (conn : option ptr)
    (method endpoint : string) (body : option JSON) (withToken fallback : bool)
    (w : World) :
  no_401_with_error w ->
  sendRequestToPool c conn method endpoint body withToken AUTO_REFRESH fallback w =
  sendRequestToPool c conn method endpoint body withToken NO_REFRESH fallback w.
Proof.
  intros Hw. unfold sendRequestToPool.
  apply sendRequestToPool_body_refresh_dead; [done|].
  intros c' w' Hw'. unfold sendRequestToLeader.
  apply sendRequestToPool_body_refresh_dead; [|done].
  by destruct (leaderConn c').
Qed.

Lemma sendRequestToPool_refresh_dead_witness :
  sendRequestToPool client_c1 (Some 1%nat) "POST" "/db/api/query" None
                    WITH_TOKEN AUTO_REFRESH FALLBACK_LEADER world_c1 =
  sendRequestToPool client_c1 (Some 1%nat) "POST" "/db/api/query" None
                    WITH_TOKEN NO_REFRESH FALLBACK_LEADER world_c1.
Proof.
  apply sendRequestToPool_refresh_dead.
  unfold no_401_with_error. simpl.
  repeat (apply Forall_cons; split; [intros [e He]; discriminate He|]).
  apply Forall_nil_2.
Defined.

(** ** How many requests one call can send *)

Lemma sends_at_most_refl (n : nat) (w : World) : sends_at_most n w w.
Proof. exists []. split; [by rewrite app_nil_r | simpl; lia]. Qed.

Lemma sends_at_most_trans (a b : nat) (w w1 w2 : World) :
  sends_at_most a w w1 -> sends_at_most b w1 w2 -> sends_at_most (a + b) w w2.
Proof.
  intros (n1 & H1 & L1) (n2 & H2 & L2). exists (n1 ++ n2).
  split; [by rewrite H2, H1, app_assoc|]. rewrite length_app. lia.
Qed.

Lemma sends_at_most_le (a b : nat) (w w' : World) :
  (a <= b)%nat -> sends_at_most a w w' -> sends_at_most b w w'.
Proof. intros Hab (n & H & L). exists n. split; [done | lia]. Qed.

Ltac sends_le a := apply (sends_at_most_le a); [lia | done].

Lemma sendHttpRequest_sends (conn : ptr) (method endpoint : string)
    (data : option JSON) (config : ClientConfig) (withToken : bool) (w : World) :
  let r := sendHttpRequest conn method endpoint data config withToken w in
  sends_at_most 1 w r.2 /\ (is_Some r.1.1 -> sent r.2 <> sent w).
Proof.
  unfold sendHttpRequest.
  destruct (createHttpRequest _ _ _ _ _ _) as [req|e]; simpl.
  - set (req' := if _ && _ then _ else req). unfold Do.
    assert (forall l : list Request, l ++ [req'] <> l) as Hne.
    { intros l Hl. apply (f_equal length) in Hl. rewrite length_app in Hl.
      simpl in Hl. lia. }
    destruct (script w) as [|r rest]; simpl.
    + split; [by exists [req'] | intros _; apply Hne].
    + split; [by exists [req'] | intros _; apply Hne].
  - split; [apply sends_at_most_refl | by intros [? ?]].
Qed.

Lemma newOrRefreshToken_sends (conn : ptr) (config : ClientConfig) (refresh : bool)
    (w w' : World) (e : option string) :
  newOrRefreshToken conn config refresh w = Done (e, w') -> sends_at_most 1 w w'.
Proof.
  unfold newOrRefreshToken.
  set (rr := sendHttpRequest conn "POST" "/db/refresh" _ config NO_TOKEN w).
  set (rc := sendHttpRequest conn "POST" "/db/connect" _ config NO_TOKEN w).
  assert (sends_at_most 1 w rr.2) as Hrr by apply sendHttpRequest_sends.
  assert (sends_at_most 1 w rc.2) as Hrc by apply sendHttpRequest_sends.
  assert (forall (resp : option Response) (w1 : World),
            sends_at_most 1 w w1 ->
            (data ← getAndCheckResponseData resp;
             match data with
             | Err err => Done (Some err, w1)
             | Ok data =>
                 match convertDataToToken data with
                 | (_, Some err) => Done (Some err, w1)
                 | (tokenObj, None) =>
                     Done (None,
                           with_store w1
                             (store_set (store w1) conn
                                (set_Token (store w1 conn) tokenObj (clock w1))))
                 end
             end) = Done (e, w') -> sends_at_most 1 w w') as Htail.
  { intros resp w1 Hw1. destruct resp as [resp|]; [|discriminate]. simpl.
    destruct (Body resp) as [env|]; simpl; [|by intros [= _ <-]].
    destruct (Status env =? http_StatusOK); simpl; [|by intros [= _ <-]].
    destruct (convertDataToToken (Data env)) as [tok [err|]];
      by intros [= _ <-]. }
  destruct refresh.
  - destruct (String.eqb _ ""); simpl;
      [intros [= _ <-]; apply sends_at_most_refl|].
    destruct (rr.1.2); simpl.
    + destruct (rr.1.1); simpl; [|discriminate]. by intros [= _ <-].
    + apply Htail, Hrr.
  - destruct (rc.1.2); simpl; [by intros [= _ <-]|]. apply Htail, Hrc.
Qed.

Lemma tryRefreshAndRenew_sends (conn : ptr) (config : ClientConfig)
    (w w' : World) (e : option string) :
  tryRefreshAndRenew conn config w = Done (e, w') -> sends_at_most 2 w w'.
Proof.
  unfold tryRefreshAndRenew.
  destruct (newOrRefreshToken conn config true w) as [[e1 w1]|] eqn:H1; [|done].
  simpl. apply newOrRefreshToken_sends in H1.
  destruct e1 as [e1|].
  - intros H2. apply newOrRefreshToken_sends in H2.
    apply (sends_at_most_trans 1%nat 1%nat w w1 w'); done.
  - intros [= _ <-]. sends_le 1%nat.
Qed.

Lemma getAndCheckResponseData_Ok (resp : option Response) (d : JSON) :
  getAndCheckResponseData resp = Done (Ok d) -> is_Some resp.
Proof. destruct resp; [eauto | discriminate]. Qed.

Lemma sendRequestToPool_body_sends
    (leader : bool -> Client -> World -> outcome (result JSON * Client * World))
    (k : nat) (c : Client) (conn : option ptr) (method endpoint : string)
    (body : option JSON) (withToken autorefresh fallback : bool) (w : World)
    (r : result JSON) (c' : Client) (w' : World) :
  (forall ar c0 w0 r0 c1 w1,
     leader ar c0 w0 = Done (r0, c1, w1) ->
     sends_at_most k w0 w1 /\ (forall d, r0 = Ok d -> sent w1 <> sent w0)) ->
  sendRequestToPool_body leader c conn method endpoint body withToken autorefresh
                         fallback w = Done (r, c', w') ->
  sends_at_most (4 + k) w w' /\
  (fallback = false \/ conn = leaderConn c -> sends_at_most 4 w w') /\
  (forall d, r = Ok d -> sent w' <> sent w).
Proof.
  intros Hleader. unfold sendRequestToPool_body.
  destruct conn as [conn|].
  2:{ intros [= <- <- <-]. split; [apply sends_at_most_refl|].
    split; [intros _; apply sends_at_most_refl | done]. }
  destruct (getAndCheckToken _ _).
  { intros [= <- <- <-]. split; [apply sends_at_most_refl|].
    split; [intros _; apply sends_at_most_refl | done]. }
  destruct (sendHttpRequest_sends conn method endpoint body (Config c) withToken w)
    as [Hs1 Hne1].
  destruct (sendHttpRequest conn method endpoint body (Config c) withToken w)
    as [[resp err] w1]. simpl in *.
  assert (forall w2, sends_at_most 3 w1 w2 -> sends_at_most 4 w w2) as Hfour.
  { intros w2 H2. apply (sends_at_most_trans 1%nat 3%nat w w1 w2); done. }
  assert (forall w2, sends_at_most 3 w1 w2 -> sent w1 <> sent w -> sent w2 <> sent w)
    as Hgrow.
  { intros w2 (n2 & H2 & _) Hne. destruct Hs1 as (n1 & H1 & _).
    rewrite H2, H1, <- app_assoc. rewrite H1 in Hne.
    intros Heq. apply Hne. rewrite <- (app_nil_r (sent w)) in Heq at 2.
    apply app_inv_head in Heq. apply app_eq_nil in Heq as [-> _].
    by rewrite app_nil_r. }
  destruct err as [err|].
  2:{ destruct (getAndCheckResponseData resp) as [data|] eqn:Hd; [|done]. simpl.
      intros [= <- <- <-].
      assert (sends_at_most 4 w w1) as H4 by (apply Hfour, sends_at_most_refl).
      split; [sends_le 4%nat|]. split; [done|].
      intros d ->. apply Hne1. by eapply getAndCheckResponseData_Ok. }
  set (ar := if negb withToken && autorefresh then false else autorefresh).
  destruct (ar && is_unauthorized resp && withToken) eqn:Hcond.
  - destruct (tryRefreshAndRenew conn (Config c) w1) as [[rerr wr]|] eqn:Htry; [|done].
    apply tryRefreshAndRenew_sends in Htry. simpl.
    destruct rerr as [e|]; simpl.
    + destruct (fallback && negb (bool_decide (leaderConn c = Some conn))) eqn:Hfb.
      * destruct (leader ar c wr) as [[[data cl] w3]|] eqn:Hl; [|done]. simpl.
        destruct (Hleader _ _ _ _ _ _ Hl) as [Hk Hok].
        assert (sends_at_most (4 + k) w w3) as Hall.
        { apply (sends_at_most_trans 4%nat k w wr w3); [|done].
          apply Hfour. sends_le 2%nat. }
        apply andb_true_iff in Hfb as [-> Hnl].
        apply negb_true_iff, bool_decide_eq_false in Hnl.
        assert (forall d, data = Ok d -> sent w3 <> sent w) as Hok'.
        { intros d ->. specialize (Hok d eq_refl).
          destruct Hk as (n3 & H3 & _). destruct Htry as (n2 & H2 & _).
          destruct Hs1 as (n1 & H1 & _). rewrite H3 in Hok |- *.
          rewrite H2, H1, <- !app_assoc.
          intros Heq. rewrite <- (app_nil_r (sent w)) in Heq at 2.
          apply app_inv_head in Heq. apply app_eq_nil in Heq as [_ Heq].
          apply app_eq_nil in Heq as [_ ->]. by rewrite app_nil_r in Hok. }
        destruct data as [d|le]; intros [= <- <- <-].
        -- split; [done|]. split; [intros [?|?]; congruence|]. intros d' _.
           by apply (Hok' d).
        -- split; [done|]. split; [intros [?|?]; congruence | done].
      * intros [= <- <- <-].
        assert (sends_at_most 4 w wr) as H4
          by (apply Hfour; sends_le 2%nat).
        split; [sends_le 4%nat|]. by split.
    + destruct (sendHttpRequest_sends conn method endpoint body (Config c) withToken wr)
        as [Hs2 Hne2].
      destruct (sendHttpRequest conn method endpoint body (Config c) withToken wr)
        as [[resp2 err2] w2]. simpl in *.
      assert (sends_at_most 3 w1 w2) as H3
        by (apply (sends_at_most_trans 2%nat 1%nat w1 wr w2); done).
      assert (sends_at_most 4 w w2) as H4 by (by apply Hfour).
      destruct err2 as [e2|].
      * destruct resp2; [|done]. simpl. intros [= <- <- <-].
        split; [sends_le 4%nat|]. by split.
      * simpl.
        destruct (getAndCheckResponseData resp2) as [data|] eqn:Hd; [|done]. simpl.
        intros [= <- <- <-].
        split; [sends_le 4%nat|]. split; [done|].
        intros d ->. apply getAndCheckResponseData_Ok in Hd.
        specialize (Hne2 Hd).
        destruct Hs2 as (n3 & Hn3 & _). destruct Htry as (n2 & Hn2 & _).
        destruct Hs1 as (n1 & Hn1 & _). rewrite Hn3 in Hne2 |- *.
        rewrite Hn2, Hn1, <- !app_assoc.
        intros Heq. rewrite <- (app_nil_r (sent w)) in Heq at 2.
        apply app_inv_head in Heq. apply app_eq_nil in Heq as [_ Heq].
        apply app_eq_nil in Heq as [_ ->]. by rewrite app_nil_r in Hne2.
  - simpl.
    destruct (fallback && negb (bool_decide (leaderConn c = Some conn))) eqn:Hfb.
    + destruct (leader ar c w1) as [[[data cl] w3]|] eqn:Hl; [|done]. simpl.
      destruct (Hleader _ _ _ _ _ _ Hl) as [Hk Hok].
      assert (sends_at_most (4 + k) w w3) as Hall.
      { apply (sends_at_most_trans 4%nat k w w1 w3); [|done].
        apply Hfour, sends_at_most_refl. }
      apply andb_true_iff in Hfb as [-> Hnl].
      apply negb_true_iff, bool_decide_eq_false in Hnl.
      assert (forall d, data = Ok d -> sent w3 <> sent w) as Hok'.
      { intros d ->. specialize (Hok d eq_refl).
        destruct Hk as (n3 & H3 & _). destruct Hs1 as (n1 & H1 & _).
        rewrite H3 in Hok |- *. rewrite H1, <- !app_assoc.
        intros Heq. rewrite <- (app_nil_r (sent w)) in Heq at 2.
        apply app_inv_head in Heq. apply app_eq_nil in Heq as [_ ->].
        by rewrite app_nil_r in Hok. }
      destruct data as [d|le]; intros [= <- <- <-].
      * split; [done|]. split; [intros [?|?]; congruence|]. intros d' _.
        by apply (Hok' d).
      * split; [done|]. split; [intros [?|?]; congruence | done].
    + intros [= <- <- <-].
      assert (sends_at_most 4 w w1) as H4 by (apply Hfour, sends_at_most_refl).
      split; [sends_le 4%nat|]. by split.
Qed.

(** X14.  One call of the dispatcher hands at most eight requests to the
    transport (the request, a refresh, a reconnect and a retry on the given
    connection, and the same four on the leader), and at most four when the
    fallback is off or the connection is the leader's: there is no retry
    loop.  The requests recorded before the call stay recorded, in order,
    and a call that returns data has sent at least one request. *)
Theorem sendRequestToPool_sends (c : Client) (conn : option ptr)
    (method endpoint : string) (body : option JSON)
    (withToken autorefresh fallback : bool) (w : World)
    (r : result JSON) (c' : Client) (w' : World) :
  sendRequestToPool c conn method endpoint body withToken autorefresh fallback w
    = Done (r, c', w') ->
  sends_at_most 8 w w' /\
  (fallback = false \/ conn = leaderConn c -> sends_at_most 4 w w') /\
  (forall d, r = Ok d -> sent w' <> sent w).
Proof.
  unfold sendRequestToPool.
  apply (sendRequestToPool_body_sends _ 4%nat).
  intros ar c0 w0 r0 c1 w1. unfold sendRequestToLeader.
  set (cw := match leaderConn c0 with Some _ => _ | None => _ end).
  assert (sent cw.2 = sent w0) as Hcw by (unfold cw; by destruct (leaderConn c0)).
  intros Hl.
  apply (sendRequestToPool_body_sends _ 0%nat) in Hl as (_ & H4 & Hok).
  - specialize (H4 (or_introl eq_refl)). destruct H4 as (n & Hn & Ln).
    rewrite Hcw in Hn, Hok. split; [by exists n | done].
  - intros ? ? ? ? ? ? [= <- <- <-]. split; [apply sends_at_most_refl | done].
Qed.

Lemma sendRequestToPool_sends_witness :
  exists w',
    sendRequestToPool client_c1 (Some 1%nat) "POST" "/db/api/query" None
                      WITH_TOKEN AUTO_REFRESH NO_FALLBACK world_c1
      = Done (Err "request error: token expired", client_c1, w') /\
    sends_at_most 4 world_c1 w'.
Proof.
  eexists. split; [reflexivity|].
  eapply (sendRequestToPool_sends client_c1 (Some 1%nat) "POST" "/db/api/query" None
            WITH_TOKEN AUTO_REFRESH NO_FALLBACK world_c1).
  - reflexivity.
  - by left.
Defined.

(** * Further properties of the connections *)

(** ** A granted token *)

Lemma convertDataToToken_nonempty (data : JSON) (tok : TokenTable) :
  convertDataToToken data = (tok, None) -> Token tok <> "" /\ Refresh tok <> "".
Proof.
  destruct data as [| | | | |m]; try discriminate. simpl.
  destruct (String.eqb (str_field "token" m) "") eqn:Ht; [discriminate|].
  destruct (String.eqb (str_field "refresh" m) "") eqn:Hr; [discriminate|].
  simpl. intros [= <-]. split; by apply String.eqb_neq.
Qed.

Lemma sendHttpRequest_no_token (conn : ptr) (method endpoint : string)
    (data : option JSON) (config : ClientConfig) (w : World) :
  let r := sendHttpRequest conn method endpoint data config NO_TOKEN w in
  r.1.2 = None ->
  exists rest,
    script w = (r.1.1, None) :: rest /\
    store r.2 = store w /\ clock r.2 = clock w /\ script r.2 = rest /\
    sent r.2 = sent w ++ [mkRequest method (URL (store w conn) +:+ endpoint) data
                                    (APIKey config) (ClientID config) None].
Proof.
  unfold sendHttpRequest, createHttpRequest, Do.
  destruct (requestOk w method _); simpl; [|discriminate].
  destruct (script w) as [|[resp err] rest]; simpl; [discriminate|].
  intros ->. by exists rest.
Qed.

(** X15.  [newOrRefreshToken] returns nil only when the transport returned
    a response without error whose envelope has status 200 and whose data
    yields a token pair with both parts non-empty.  Then exactly one POST
    was sent, to [/db/refresh] with the connection's refresh token or to
    [/db/connect] with the configured credentials, carrying the API key and
    client id but no bearer token; the connection gets the new pair and the
    current time as its last refresh, and nothing else in the store
    changes. *)
Theorem newOrRefreshToken_renews (conn : ptr) (config : ClientConfig)
    (refresh : bool) (w w' : World) :
  newOrRefreshToken conn config refresh w = Done (None, w') ->
  exists resp env rest tok,
    script w = (Some resp, None) :: rest /\
    Body resp = Some env /\
    Status env = http_StatusOK /\
    convertDataToToken (Data env) = (tok, None) /\
    Token tok <> "" /\ Refresh tok <> "" /\
    store w' = store_set (store w) conn (set_Token (store w conn) tok (clock w)) /\
    script w' = rest /\
    sent w' = sent w ++
      [mkRequest "POST"
         (URL (store w conn) +:+ (if refresh then "/db/refresh" else "/db/connect"))
         (Some (if refresh
                then JObj [("refresh_token", JStr (Refresh (ConnToken (store w conn))))]
                else userCredentialsFromConfig config))
         (APIKey config) (ClientID config) None] /\
    (refresh = true -> Refresh (ConnToken (store w conn)) <> "").
Proof.
  unfold newOrRefreshToken.
  assert (forall (resp : option Response) (w1 : World),
            (data ← getAndCheckResponseData resp;
             match data with
             | Err err => Done (Some err, w1)
             | Ok data =>
                 match convertDataToToken data with
                 | (_, Some err) => Done (Some err, w1)
                 | (tokenObj, None) =>
                     Done (None,
                           with_store w1
                             (store_set (store w1) conn
                                (set_Token (store w1 conn) tokenObj (clock w1))))
                 end
             end) = Done (None, w') ->
            exists r env tok,
              resp = Some r /\ Body r = Some env /\ Status env = http_StatusOK /\
              convertDataToToken (Data env) = (tok, None) /\
              w' = with_store w1
                     (store_set (store w1) conn
                        (set_Token (store w1 conn) tok (clock w1)))) as Htail.
  { intros resp w1. destruct resp as [r|]; [|discriminate]. simpl.
    destruct (Body r) as [env|] eqn:Hb; simpl; [|discriminate].
    destruct (Z.eqb_spec (Status env) http_StatusOK) as [Hs|]; simpl; [|discriminate].
    destruct (convertDataToToken (Data env)) as [tok [err|]] eqn:Hc; [discriminate|].
    intros [= <-]. by exists r, env, tok. }
  destruct refresh.
  - destruct (String.eqb _ "") eqn:Href; simpl; [discriminate|].
    apply String.eqb_neq in Href.
    pose proof (sendHttpRequest_no_token conn "POST" "/db/refresh"
                  (Some (JObj [("refresh_token",
                                JStr (Refresh (ConnToken (store w conn))))]))
                  config w) as Hsend.
    destruct (sendHttpRequest conn "POST" "/db/refresh" _ config NO_TOKEN w)
      as [[resp err] w1]. simpl in *.
    destruct err as [err|]; simpl.
    { destruct resp; discriminate. }
    destruct (Hsend eq_refl) as (rest & Hscript & Hst & Hclk & Hrest & Hsent).
    intros H. apply Htail in H as (r & env & tok & -> & Hb & Hs & Hc & ->).
    destruct (convertDataToToken_nonempty _ _ Hc) as [Ht Hr].
    exists r, env, rest, tok. simpl. rewrite Hst, Hclk. repeat split; done.
  - pose proof (sendHttpRequest_no_token conn "POST" "/db/connect"
                  (Some (userCredentialsFromConfig config)) config w) as Hsend.
    destruct (sendHttpRequest conn "POST" "/db/connect" _ config NO_TOKEN w)
      as [[resp err] w1]. simpl in *.
    destruct err as [err|]; simpl; [discriminate|].
    destruct (Hsend eq_refl) as (rest & Hscript & Hst & Hclk & Hrest & Hsent).
    intros H. apply Htail in H as (r & env & tok & -> & Hb & Hs & Hc & ->).
    destruct (convertDataToToken_nonempty _ _ Hc) as [Ht Hr].
    exists r, env, rest, tok. simpl. rewrite Hst, Hclk. repeat split; done.
Qed.

Lemma newOrRefreshToken_renews_witness :
  exists w',
    newOrRefreshToken 0%nat (mkClientConfig "http://leader" "k" "id" "admin" "admin")
                      CALL_CONNECT world_c5 = Done (None, w') /\
    ConnToken (store w' 0%nat) = mkTokenTable "t2" "r2" /\
    rURL <$> sent w' = ["http://leader/db/connect"].
Proof.
  eexists. split; [reflexivity|].
  destruct (newOrRefreshToken_renews 0%nat
              (mkClientConfig "http://leader" "k" "id" "admin" "admin")
              CALL_CONNECT world_c5 _ eq_refl)
    as (resp & env & rest & tok & H1 & H2 & H3 & H4 & _ & _ & H7 & _ & H9 & _).
  split; reflexivity.
Defined.

(** ** Refresh, then renew *)

Lemma newOrRefreshToken_None (conn : ptr) (config : ClientConfig) (refresh : bool)
    (w w' : World) :
  newOrRefreshToken conn config refresh w = Done (None, w') ->
  exists tok,
    Token tok <> "" /\ Refresh tok <> "" /\
    store w' = store_set (store w) conn (set_Token (store w conn) tok (clock w)).
Proof.
  unfold newOrRefreshToken.
  set (rr := sendHttpRequest conn "POST" "/db/refresh" _ config NO_TOKEN w).
  set (rc := sendHttpRequest conn "POST" "/db/connect" _ config NO_TOKEN w).
  assert (forall (resp : option Response) (w1 : World),
            store w1 = store w -> clock w1 = clock w ->
            (data ← getAndCheckResponseData resp;
             match data with
             | Err err => Done (Some err, w1)
             | Ok data =>
                 match convertDataToToken data with
                 | (_, Some err) => Done (Some err, w1)
                 | (tokenObj, None) =>
                     Done (None,
                           with_store w1
                             (store_set (store w1) conn
                                (set_Token (store w1 conn) tokenObj (clock w1))))
                 end
             end) = Done (None, w') ->
            exists tok,
              Token tok <> "" /\ Refresh tok <> "" /\
              store w' = store_set (store w) conn (set_Token (store w conn) tok (clock w)))
    as Htail.
  { intros resp w1 Hst Hclk. destruct resp as [r|]; [|discriminate]. simpl.
    destruct (Body r) as [env|]; simpl; [|discriminate].
    destruct (Status env =? http_StatusOK); simpl; [|discriminate].
    destruct (convertDataToToken (Data env)) as [tok [err|]] eqn:Hc; [discriminate|].
    intros [= <-]. destruct (convertDataToToken_nonempty _ _ Hc).
    exists tok. simpl. by rewrite Hst, Hclk. }
  assert (forall m e d, clock (sendHttpRequest conn m e d config NO_TOKEN w).2 = clock w)
    as Hclock.
  { intros m e d. unfold sendHttpRequest.
    destruct (createHttpRequest _ _ _ _ _ _); [|done]. unfold Do.
    by destruct (script w). }
  destruct refresh.
  - destruct (String.eqb _ ""); simpl; [discriminate|].
    destruct (rr.1.2); simpl.
    + destruct (rr.1.1); discriminate.
    + apply Htail; [apply sendHttpRequest_store | apply Hclock].
  - destruct (rc.1.2); simpl; [discriminate|].
    apply Htail; [apply sendHttpRequest_store | apply Hclock].
Qed.

(** X16.  [tryRefreshAndRenew] sends at most two requests.  When it
    returns nil the connection holds a token pair with both parts
    non-empty, stamped with the current time, and nothing else in the store
    has changed.  When it returns an error, that error is the one of the
    reconnect attempt (a refresh error is never reported) and the store,
    so the old token pair, is as it was. *)
Theorem tryRefreshAndRenew_outcome (conn : ptr) (config : ClientConfig)
    (w w' : World) (err : option string) :
  tryRefreshAndRenew conn config w = Done (err, w') ->
  sends_at_most 2 w w' /\
  (err = None ->
   exists tok,
     Token tok <> "" /\ Refresh tok <> "" /\
     store w' = store_set (store w) conn (set_Token (store w conn) tok (clock w))) /\
  (forall e, err = Some e ->
     store w' = store w /\
     exists w1, store w1 = store w /\
                newOrRefreshToken conn config CALL_CONNECT w1 = Done (Some e, w')).
Proof.
  intros Hrun. split; [by eapply tryRefreshAndRenew_sends|].
  unfold tryRefreshAndRenew in Hrun.
  destruct (newOrRefreshToken conn config true w) as [[e1 w1]|] eqn:H1; [|done].
  simpl in Hrun. destruct e1 as [e1|].
  - pose proof (newOrRefreshToken_error_store _ _ _ _ _ _ H1) as Hst1.
    assert (clock w1 = clock w) as Hclk.
    { revert H1. unfold newOrRefreshToken, sendHttpRequest, createHttpRequest, Do.
      destruct (String.eqb _ ""); simpl; [by intros [= _ <-]|].
      destruct (requestOk w "POST" _); simpl; [|discriminate].
      destruct (script w) as [|[resp er] rest]; simpl; [discriminate|].
      destruct er as [er|]; simpl.
      + destruct resp; [|discriminate]. by intros [= _ <-].
      + destruct resp as [r|]; [|discriminate]. simpl.
        destruct (Body r) as [env|]; simpl; [|by intros [= _ <-]].
        destruct (Status env =? http_StatusOK); simpl; [|by intros [= _ <-]].
        destruct (convertDataToToken (Data env)) as [tok [er|]]; [|discriminate].
        by intros [= _ <-]. }
    split.
    + intros ->. apply newOrRefreshToken_None in Hrun as (tok & Ht & Hr & Hst).
      exists tok. rewrite Hst1, Hclk in Hst. by repeat split.
    + intros e ->. split.
      * apply newOrRefreshToken_error_store in Hrun. congruence.
      * by exists w1.
  - injection Hrun as <- <-. split.
    + intros _. by apply newOrRefreshToken_None in H1.
    + intros e He. discriminate He.
Qed.

Lemma tryRefreshAndRenew_outcome_witness :
  exists w',
    tryRefreshAndRenew 1%nat (mkClientConfig "http://leader" "k" "id" "admin" "admin")
                       world_c1 = Done (None, w') /\
    sends_at_most 2 world_c1 w' /\
    ConnToken (store w' 1%nat) = mkTokenTable "t2" "r2".
Proof.
  eexists. split; [reflexivity|].
  destruct (tryRefreshAndRenew_outcome 1%nat
              (mkClientConfig "http://leader" "k" "id" "admin" "admin")
              world_c1 _ _ eq_refl) as (H1 & _ & _).
  split; [exact H1 | reflexivity].
Defined.



(** * Properties of the usage tracking *)

Lemma stats_at_getOrCreate (c : Client) (nodeID : string) (isWrite : bool) (now : Z) :
  let sc := getOrCreateNodeStats c nodeID isWrite now in
  stats_at sc.2 isWrite nodeID = Some sc.1 /\
  (forall b n, (b, n) <> (isWrite, nodeID) -> stats_at sc.2 b n = stats_at c b n) /\
  match stats_at c isWrite nodeID with
  | Some s => sc.1 = s /\ sc.2 = c
  | None => sc.1 = mkStats nodeID 0 0 0 0 [] (UsageWindowSize (poolConfig c)) now 0 0
  end.
Proof.
  unfold getOrCreateNodeStats, stats_at.
  destruct isWrite.
  - destruct (statsPerNodeWrite c !! nodeID) as [s|] eqn:Hs; simpl.
    + by rewrite Hs.
    + rewrite lookup_insert_eq. split; [done|]. split; [|done].
      intros [] n Hn; [|done]. rewrite lookup_insert_ne; [done|]. congruence.
  - destruct (statsPerNodeRead c !! nodeID) as [s|] eqn:Hs; simpl.
    + by rewrite Hs.
    + rewrite lookup_insert_eq. split; [done|]. split; [|done].
      intros [] n Hn; [done|]. rewrite lookup_insert_ne; [done|]. congruence.
Qed.

Lemma stats_at_put_stats (c : Client) (nodeID : string) (isWrite : bool)
    (s : ConnectionStats) :
  stats_at (put_stats c nodeID isWrite s) isWrite nodeID = Some s /\
  (forall b n, (b, n) <> (isWrite, nodeID) ->
               stats_at (put_stats c nodeID isWrite s) b n = stats_at c b n) /\
  readPool (put_stats c nodeID isWrite s) = readPool c /\
  writePool (put_stats c nodeID isWrite s) = writePool c /\
  poolConfig (put_stats c nodeID isWrite s) = poolConfig c.
Proof.
  unfold put_stats, stats_at. destruct isWrite; simpl.
  - rewrite lookup_insert_eq. split; [done|]. split; [|done].
    intros [] n Hn; [|done]. rewrite lookup_insert_ne; [done|]. congruence.
  - rewrite lookup_insert_eq. split; [done|]. split; [|done].
    intros [] n Hn; [done|]. rewrite lookup_insert_ne; [done|]. congruence.
Qed.

(** X18.  With a window size that is not negative, and a history that
    fits its window (as every history that [recordNodeUsage] leaves does),
    [recordNodeUsage] never panics and leaves the node with a history that
    again fits the window: the last entries, in order, of the old history
    followed by the current time, so the current time is its newest entry
    whenever the window is not 0.  The statistics of every other node and intent, the pools and
    the configuration are untouched. *)
Theorem recordNodeUsage_window (c : Client) (nodeID : string) (isWrite : bool) (now : Z) :
  0 <= UsageWindowSize (poolConfig c) ->
  (forall s, stats_at c isWrite nodeID = Some s ->
             0 <= HistoryWindow s /\ len (UsageHistory s) <= HistoryWindow s) ->
  exists c' s',
    recordNodeUsage c nodeID isWrite now = Done c' /\
    stats_at c' isWrite nodeID = Some s' /\
    0 <= HistoryWindow s' /\
    len (UsageHistory s') <= HistoryWindow s' /\
    UsageHistory s' `suffix_of`
      (default [] (UsageHistory <$> stats_at c isWrite nodeID) ++ [now]) /\
    len (UsageHistory s') =
      Z.min (HistoryWindow s')
            (len (default [] (UsageHistory <$> stats_at c isWrite nodeID)) + 1) /\
    (0 < HistoryWindow s' -> last (UsageHistory s') = Some now) /\
    (forall b n, (b, n) <> (isWrite, nodeID) -> stats_at c' b n = stats_at c b n) /\
    readPool c' = readPool c /\ writePool c' = writePool c /\
    poolConfig c' = poolConfig c.
Proof.
  intros Hcfg Hold. unfold recordNodeUsage.
  destruct (stats_at_getOrCreate c nodeID isWrite now) as (Hat & Hframe & Hcase).
  destruct (getOrCreateNodeStats_pools c nodeID isWrite now) as (Hrp & Hwp & Hpc & _).
  set (sc := getOrCreateNodeStats c nodeID isWrite now) in *.
  assert (0 <= HistoryWindow sc.1 /\
          len (UsageHistory sc.1) <= HistoryWindow sc.1 /\
          UsageHistory sc.1 = default [] (UsageHistory <$> stats_at c isWrite nodeID))
    as (Hw & Hfit & Hh).
  { destruct (stats_at c isWrite nodeID) as [s|].
    - destruct Hcase as [-> _]. destruct (Hold s eq_refl). by repeat split.
    - rewrite Hcase. simpl. by repeat split. }
  rewrite <- Hh. clear Hh Hcase Hold.
  set (h := UsageHistory sc.1 ++ [now]).
  assert (len h = len (UsageHistory sc.1) + 1) as Hlen
    by (unfold h; rewrite len_app; reflexivity).
  pose proof (len_nonneg (UsageHistory sc.1)) as Hnn.
  destruct (Z.ltb_spec (HistoryWindow sc.1) (len h)) as [Hlt|Hge].
  - rewrite wrap64_id by lia.
    assert ((0 <=? len h - HistoryWindow sc.1)
            && (len h - HistoryWindow sc.1 <=? len h) = true) as ->.
    { apply andb_true_iff. split; [apply Z.leb_le | apply Z.leb_le]; lia. }
    destruct (stats_at_put_stats sc.2 nodeID isWrite
                (set_UsageHistory sc.1
                   (drop (Z.to_nat (len h - HistoryWindow sc.1)) h)))
      as (Hp1 & Hp2 & Hp3 & Hp4 & Hp5).
    eexists _, _. split; [reflexivity|]. split; [exact Hp1|]. simpl.
    assert (len (drop (Z.to_nat (len h - HistoryWindow sc.1)) h)
            = HistoryWindow sc.1) as Hd.
    { unfold len at 1. rewrite length_drop. unfold len in *. lia. }
    split; [done|]. split; [lia|]. split; [apply suffix_drop|].
    split; [lia|]. split.
    { intros Hpos. unfold h. rewrite drop_app_le.
      - by rewrite last_snoc.
      - unfold len in *. rewrite length_app in *. simpl in *. lia. }
    split; [intros b n Hn; rewrite Hp2 by done; by apply Hframe|].
    split; [congruence|]. split; congruence.
  - destruct (stats_at_put_stats sc.2 nodeID isWrite (set_UsageHistory sc.1 h))
      as (Hp1 & Hp2 & Hp3 & Hp4 & Hp5).
    eexists _, _. split; [reflexivity|]. split; [exact Hp1|]. simpl.
    split; [done|]. split; [lia|]. split; [done|]. split; [lia|].
    split; [intros _; unfold h; by rewrite last_snoc|].
    split; [intros b n Hn; rewrite Hp2 by done; by apply Hframe|].
    split; [congruence|]. split; congruence.
Qed.

Lemma recordNodeUsage_window_witness :
  exists c' s',
    recordNodeUsage client_c9 "P1" IS_READ 1000 = Done c' /\
    stats_at c' IS_READ "P1" = Some s' /\
    UsageHistory s' = [1000].
Proof.
  destruct (recordNodeUsage_window client_c9 "P1" IS_READ 1000)
    as (c' & s' & H1 & H2 & _).
  - by vm_compute.
  - intros s Hs. vm_compute in Hs. injection Hs as <-. by vm_compute.
  - exists c', s'. split; [exact H1|]. split; [exact H2|].
    vm_compute in H1. injection H1 as <-. vm_compute in H2. by injection H2 as <-.
Defined.

(** ** The counter of requests in flight *)






(** ** Scale-up requests are spaced *)



(** * Scale-up of the read pool *)



(** * Connecting and closing *)

(** X22.  [Close] returns exactly when the reaper was never started or its
    done-channel is still open; otherwise it panics on the channel before
    anything is cleared.  When it returns, both pools are empty, the leader
    connection is dropped and the client is disconnected, while the
    configuration, the statistics of the nodes, the cluster status and the
    (stopped) timer reference are kept: a started reaper leaves its
    done-channel closed behind. *)
Theorem Close_outcome (c : Client) :
  match Close c with
  | Done c1 =>
      (cleanupTimer c = None \/ cleanupDone c = ChOpen) /\
      readPool c1 = Clear (readPool c) /\ writePool c1 = Clear (writePool c) /\
      Size (readPool c1) = 0 /\ Size (writePool c1) = 0 /\
      leaderConn c1 = None /\ Connected c1 = false /\
      Config c1 = Config c /\ poolConfig c1 = poolConfig c /\
      statsPerNodeRead c1 = statsPerNodeRead c /\
      statsPerNodeWrite c1 = statsPerNodeWrite c /\
      status c1 = status c /\
      (cleanupTimer c = None -> cleanupTimer c1 = None /\ cleanupDone c1 = cleanupDone c) /\
      (forall t, cleanupTimer c = Some t ->
                 cleanupTimer c1 = Some (mkTimer false (running t && fired t)) /\
                 cleanupDone c1 = ChClosed)
  | Crash e =>
      cleanupTimer c <> None /\
      (cleanupDone c = ChClosed /\ e = "close of closed channel" \/
       cleanupDone c = ChNil /\ e = "close of nil channel")
  end.
Proof.
  destruct c as [cfg con l rp wp pc sr sw st t d].
  unfold Close, CloseConnections. simpl.
  destruct t as [[run fd]|]; simpl.
  - destruct d; simpl.
    + split; [done|]. right. by split.
    + split; [by right|]. do 11 (split; [done|]). split; [done|].
      intros t' [= <-]. simpl. by destruct run, fd.
    + split; [done|]. left. by split.
  - split; [by left|]. do 11 (split; [done|]). split; [done|].
    intros t' Ht. discriminate Ht.
Qed.

Lemma sendRequestToLeader_client (c : Client) (method endpoint : string)
    (body : option JSON) (withToken autorefresh : bool) (w : World)
    (r : result JSON) (c1 : Client) (w1 : World) :
  sendRequestToLeader c method endpoint body withToken autorefresh w = Done (r, c1, w1) ->
  (is_Some (leaderConn c) -> c1 = c) /\
  is_Some (leaderConn c1) /\
  c1 = with_leaderConn c (leaderConn c1).
Proof.
  unfold sendRequestToLeader. intros H.
  apply sendRequestToPool_body_client in H. subst c1.
  destruct c as [cfg con l rp wp pc sr sw st t d]. simpl.
  destruct l as [l|]; simpl; [by eauto|].
  split; [by intros [? ?]|]. by eauto.
Qed.

(** X23.  A [Connect] that fails on a client that was not connected ends
    in one of two states.  Either the login itself failed: the client is
    still not connected and only its leader connection may have been
    created.  Or the login was granted and the status request of the pool
    initialization failed: the error is the status error, but the client is
    left marked connected, so every further [Connect] is turned down as
    already connected without a request being sent. *)
Theorem Connect_failure (c : Client) (username password : string) (w : World)
    (e : string) (c' : Client) (w' : World) :
  Connected c = false ->
  Connect c username password w = Done (Some e, c', w') ->
  (Connected c' = false /\ c' = with_leaderConn c (leaderConn c')) \/
  (Connected c' = true /\
   c' = with_Connected (with_leaderConn c (leaderConn c')) true /\
   (exists e', e = "failed to get status for pool initialization: " +:+ e') /\
   forall u2 p2 w2,
     Connect c' u2 p2 w2
     = Done (Some "already connected, no need to call again", c', w2)).
Proof.
  intros Hcon. unfold Connect at 1. rewrite Hcon.
  destruct (sendRequestToLeader c "POST" "/db/connect" _ NO_TOKEN DEFAULT_AUTO_REFRESH w)
    as [[[data c1] w1]|] eqn:Hl; [|done]. simpl.
  apply sendRequestToLeader_client in Hl as (_ & [l Hl1] & Hc1).
  assert (Connected c1 = false) as Hcon1 by (rewrite Hc1; done).
  destruct data as [data|e1].
  2:{ intros [= <- <- <-]. by left. }
  destruct (convertDataToToken data) as [tok [e1|]].
  { intros [= <- <- <-]. by left. }
  rewrite Hl1. unfold InitializePool, getStatusWithoutLock.
  set (c2 := with_Connected c1 true).
  set (w2 := with_store w1 _).
  destruct (sendRequestToLeader c2 "GET" "/db/api/status" None WITH_TOKEN NO_REFRESH w2)
    as [[[data2 c3] w3]|] eqn:Hs; [|done]. simpl.
  apply sendRequestToLeader_client in Hs as (Hsame & _ & _).
  assert (c3 = c2) as -> by (apply Hsame; unfold c2; simpl; rewrite Hl1; eauto).
  assert (forall e', Done (Some ("failed to get status for pool initialization: " +:+ e'),
                           c2, w3) = Done (Some e, c', w') ->
          (Connected c' = false /\ c' = with_leaderConn c (leaderConn c')) \/
          (Connected c' = true /\
           c' = with_Connected (with_leaderConn c (leaderConn c')) true /\
           (exists e', e = "failed to get status for pool initialization: " +:+ e') /\
           forall u2 p2 w2,
             Connect c' u2 p2 w2
             = Done (Some "already connected, no need to call again", c', w2)))
    as Hfail.
  { intros e' [= <- <- <-]. right. split; [done|]. split.
    - unfold c2. rewrite Hc1 at 1. reflexivity.
    - split; [by eexists|]. intros u2 p2 w4. reflexivity. }
  destruct data2 as [[| | | | |statusData]|e2]; simpl; try apply Hfail.
  destruct (initialize_node _ _ _ _ _ _) as [[c4 w4]|]; [|done]. simpl.
  destruct (initialize_peers _ _ _) as [[c5 w5]|]; [|done]. simpl.
  discriminate.
Qed.

Lemma Connect_failure_witness :
  let cw := NewClient (mkClientConfig "http://leader" "k" "id" "admin" "admin")
                      (mkPoolConfig 5 10 1 10 300 60 3600 3 100 true) world_boot in
  let w := mkWorld (store cw.2) (next cw.2) (nextClient cw.2) (clock cw.2)
                   (requestOk cw.2) [(Some granted, None)] [] in
  exists c' w',
    Connect cw.1 "admin" "admin" w
    = Done (Some "failed to get status for pool initialization: api-call failed, err: connection refused",
            c', w') /\
    Connected c' = true /\
    Connect c' "admin" "admin" w'
    = Done (Some "already connected, no need to call again", c', w').
Proof.
  intros cw w. eexists _, _. split; [reflexivity|].
  destruct (Connect_failure cw.1 "admin" "admin" w _ _ _ eq_refl eq_refl)
    as [[H _]|(H1 & _ & _ & H3)].
  - discriminate H.
  - split; [exact H1 | apply H3].
Defined.

(** ** A granted [Connect], and connecting again after [Close] *)

Lemma getOrCreateNodeStats_fields (c : Client) (n : string) (isWrite : bool) (now : Z) :
  let c' := (getOrCreateNodeStats c n isWrite now).2 in
  Config c' = Config c /\ Connected c' = Connected c /\ leaderConn c' = leaderConn c /\
  cleanupTimer c' = cleanupTimer c /\ cleanupDone c' = cleanupDone c.
Proof.
  unfold getOrCreateNodeStats.
  destruct isWrite; [destruct (statsPerNodeWrite c !! n) | destruct (statsPerNodeRead c !! n)];
    done.
Qed.

Lemma scaleUpNode_fields (c : Client) (conn : ptr) (isWrite : bool) (w : World)
    (c' : Client) (w' : World) :
  scaleUpNode c conn isWrite w = Done (c', w') ->
  Config c' = Config c /\ Connected c' = Connected c /\ leaderConn c' = leaderConn c /\
  cleanupTimer c' = cleanupTimer c /\ cleanupDone c' = cleanupDone c.
Proof.
  unfold scaleUpNode.
  destruct (findMaxPoolsByNodeID c (NodeID (store w conn))) as [m|e]; simpl; [|done].
  destruct (Z.min _ _ <=? 0) eqn:Hadd.
  { by intros [= <- <-]. }
  unfold createPoolConnections. rewrite Hadd.
  match goal with
  | |- context [createPoolConnections_loop c ?u ?n0 ?m0 ?l0 ?k [] w] =>
      pose proof (createPoolConnections_loop_world u n0 m0 l0 k c [] w) as Hloop;
      destruct (createPoolConnections_loop c u n0 m0 l0 k [] w)
        as [[[connections c1] w1]|e]; simpl; [|done]
  end.
  destruct Hloop as ((mr & mw & Hc1) & _ & _).
  destruct (0 <? len connections).
  - match goal with
    | |- context [getOrCreateNodeStats ?c2 ?n0 ?b ?t] =>
        destruct (getOrCreateNodeStats_fields c2 n0 b t) as (H1 & H2 & H3 & H4 & H5)
    end.
    simpl in H1, H2, H3, H4, H5.
    intros [= <- <-]. unfold put_stats.
    destruct isWrite; simpl; rewrite H1, H2, H3, H4, H5; simpl; by rewrite Hc1.
  - intros [= <- <-]. by rewrite Hc1.
Qed.

Lemma initialize_node_fields (c : Client) (url nodeID mode : string) (leader : bool)
    (w : World) (c' : Client) (w' : World) :
  initialize_node c url nodeID mode leader w = Done (c', w') ->
  status c' = status c /\ poolConfig c' = poolConfig c /\
  Config c' = Config c /\ Connected c' = Connected c /\ leaderConn c' = leaderConn c /\
  cleanupTimer c' = cleanupTimer c /\ cleanupDone c' = cleanupDone c.
Proof.
  unfold initialize_node.
  destruct (scaleUpNode c _ IS_WRITE _) as [[c1 w1]|] eqn:H1; simpl; [|done].
  intros H2.
  destruct (scaleUpNode_frame _ _ _ _ _ _ H1) as (Hs1 & Hp1 & _).
  destruct (scaleUpNode_frame _ _ _ _ _ _ H2) as (Hs2 & Hp2 & _).
  destruct (scaleUpNode_fields _ _ _ _ _ _ H1) as (A1 & B1 & C1 & D1 & E1).
  destruct (scaleUpNode_fields _ _ _ _ _ _ H2) as (A2 & B2 & C2 & D2 & E2).
  repeat split; congruence.
Qed.

Lemma initialize_peers_fields (peers : list PeerStatus) (c : Client)
    (w : World) (c' : Client) (w' : World) :
  initialize_peers c peers w = Done (c', w') ->
  status c' = status c /\ poolConfig c' = poolConfig c /\
  Config c' = Config c /\ Connected c' = Connected c /\ leaderConn c' = leaderConn c /\
  cleanupTimer c' = cleanupTimer c /\ cleanupDone c' = cleanupDone c.
Proof.
  revert c w. induction peers as [|peer peers IH]; intros c w; simpl.
  - by intros [= <- <-].
  - destruct (initialize_node c _ _ _ _ w) as [[c1 w1]|] eqn:H1; simpl; [|done].
    intros H2. apply initialize_node_fields in H1. apply IH in H2.
    destruct H1 as (? & ? & ? & ? & ? & ? & ?).
    destruct H2 as (? & ? & ? & ? & ? & ? & ?).
    repeat split; congruence.
Qed.

Lemma Connect_granted (c : Client) (username password : string) (w : World)
    (c' : Client) (w' : World) :
  Connected c = false ->
  Connect c username password w = Done (None, c', w') ->
  Connected c' = true /\ is_Some (status c') /\ is_Some (leaderConn c') /\
  Config c' = Config c /\ poolConfig c' = poolConfig c /\
  (cleanupTimer c = None ->
   cleanupTimer c' = Some (mkTimer true false) /\ cleanupDone c' = ChOpen) /\
  (forall t, cleanupTimer c = Some t ->
             cleanupTimer c' = Some t /\ cleanupDone c' = cleanupDone c).
Proof.
  intros Hcon. unfold Connect. rewrite Hcon.
  destruct (sendRequestToLeader c "POST" "/db/connect" _ NO_TOKEN DEFAULT_AUTO_REFRESH w)
    as [[[data c1] w1]|] eqn:Hl; [|done]. simpl.
  apply sendRequestToLeader_client in Hl as (_ & [l Hl1] & Hc1).
  destruct data as [data|e1]; [|done].
  destruct (convertDataToToken data) as [tok [e1|]]; [done|].
  rewrite Hl1. unfold InitializePool, getStatusWithoutLock.
  set (c2 := with_Connected c1 true).
  set (w2 := with_store w1 _).
  destruct (sendRequestToLeader c2 "GET" "/db/api/status" None WITH_TOKEN NO_REFRESH w2)
    as [[[data2 c3] w3]|] eqn:Hs; [|done]. simpl.
  apply sendRequestToLeader_client in Hs as (Hsame & _ & _).
  assert (c3 = c2) as -> by (apply Hsame; unfold c2; simpl; rewrite Hl1; eauto).
  destruct data2 as [[| | | | |statusData]|e2]; simpl; try done.
  destruct (initialize_node _ _ _ _ _ _) as [[c4 w4]|] eqn:H4; [|done]. simpl.
  destruct (initialize_peers _ _ _) as [[c5 w5]|] eqn:H5; [|done]. simpl.
  apply initialize_node_fields in H4 as (S4 & P4 & A4 & B4 & C4 & D4 & E4).
  apply initialize_peers_fields in H5 as (S5 & P5 & A5 & B5 & C5 & D5 & E5).
  simpl in S4, P4, A4, B4, C4, D4, E4.
  assert (Config c1 = Config c /\ poolConfig c1 = poolConfig c /\
          cleanupTimer c1 = cleanupTimer c /\ cleanupDone c1 = cleanupDone c)
    as (F1 & F2 & F3 & F4) by (rewrite Hc1; done).
  intros [= <- <-].
  destruct (cleanupTimer c5) as [t5|] eqn:Ht5; simpl.
  - split; [congruence|]. split; [rewrite S5, S4; by eexists|].
    split; [rewrite C5, C4, Hl1; by eexists|].
    split; [congruence|]. split; [congruence|]. split.
    + intros Hn. congruence.
    + intros t Ht. split; congruence.
  - split; [congruence|]. split; [rewrite S5, S4; by eexists|].
    split; [rewrite C5, C4, Hl1; by eexists|].
    split; [congruence|]. split; [congruence|]. split; [done|].
    intros t Ht. congruence.
Qed.

(** X25.  A client cannot be used again after [Close].  If the reaper was
    running when the client was closed, a later [Connect] that is granted
    does not start it again: the timer stays stopped and the done-channel
    closed, so idle sessions are never reaped any more, and the next
    [Close] panics on the closed channel. *)
Theorem Connect_after_Close (c c0 : Client) (t : Timer) (username password : string)
    (w : World) (c' : Client) (w' : World) :
  cleanupTimer c = Some t ->
  Close c = Done c0 ->
  Connect c0 username password w = Done (None, c', w') ->
  Connected c' = true /\
  (exists t', cleanupTimer c' = Some t' /\ running t' = false) /\
  cleanupDone c' = ChClosed /\
  Close c' = Crash "close of closed channel".
Proof.
  intros Ht Hclose Hconn.
  assert (Connected c0 = false /\ cleanupDone c0 = ChClosed /\
          exists t0, cleanupTimer c0 = Some t0 /\ running t0 = false)
    as (Hcon0 & Hd0 & t0 & Ht0 & Hrun0).
  { destruct c as [cfg con l rp wp pc sr sw st tm d]. simpl in Ht. subst tm.
    unfold Close, CloseConnections in Hclose. simpl in Hclose.
    destruct d; simpl in Hclose; try discriminate Hclose.
    injection Hclose as <-. simpl. split; [done|]. split; [done|].
    eexists. split; [reflexivity|]. by destruct (running t). }
  destruct (Connect_granted c0 username password w c' w' Hcon0 Hconn)
    as (Hcon' & _ & _ & _ & _ & _ & Hkeep).
  destruct (Hkeep t0 Ht0) as [Ht' Hd'].
  split; [done|]. split; [by exists t0|]. split; [congruence|].
  destruct c' as [cfg con l rp wp pc sr sw st tm d]. simpl in *. subst tm.
  rewrite Hd0 in Hd'. subst d. reflexivity.
Qed.

Lemma Connect_after_Close_witness :
  exists c0 c' w',
    Close client_c9 = Done c0 /\
    Connect c0 "admin" "admin" world_boot = Done (None, c', w') /\
    Close c' = Crash "close of closed channel".
Proof.
  let r0 := eval vm_compute in (Close client_c9) in
  match r0 with
  | Done ?c0 =>
      let r1 := eval vm_compute in (Connect c0 "admin" "admin" world_boot) in
      match r1 with
      | Done (None, ?c', ?w') =>
          exists c0, c', w';
          split; [vm_compute; reflexivity|];
          split; [vm_compute; reflexivity|];
          apply (Connect_after_Close client_c9 c0 (mkTimer true false)
                   "admin" "admin" world_boot c' w');
          vm_compute; reflexivity
      end
  end.
Defined.

(** ** The requests of a granted [Connect] *)

Lemma sendRequestToLeader_Ok (c : Client) (l : ptr) (method endpoint : string)
    (body : option JSON) (withToken autorefresh : bool) (w : World)
    (d : JSON) (c1 : Client) (w1 : World) :
  leaderConn c = Some l ->
  withToken = false \/ autorefresh = false ->
  sendRequestToLeader c method endpoint body withToken autorefresh w
    = Done (Ok d, c1, w1) ->
  c1 = c /\ store w1 = store w /\ next w1 = next w /\ clock w1 = clock w /\
  requestOk w1 = requestOk w /\
  (withToken = true -> Token (ConnToken (store w l)) <> "") /\
  sent w1 = sent w ++
    [mkRequest method (URL (store w l) +:+ endpoint) body
               (APIKey (Config c)) (ClientID (Config c))
               (if withToken
                then Some ("Bearer " +:+ Token (ConnToken (store w l)))
                else None)].
Proof.
  intros Hl Hnr. unfold sendRequestToLeader. rewrite Hl. simpl. rewrite Hl.
  unfold sendRequestToPool_body, getAndCheckToken.
  assert ((if negb withToken && autorefresh then false else autorefresh) = false)
    as -> by (destruct Hnr as [-> | ->]; by destruct withToken || by destruct autorefresh).
  destruct withToken.
  - destruct (String.eqb (Token (ConnToken (store w l))) "") eqn:Htok; [done|].
    apply String.eqb_neq in Htok.
    unfold sendHttpRequest, createHttpRequest, Do. simpl.
    apply String.eqb_neq in Htok. rewrite Htok. simpl.
    destruct (requestOk w method _); simpl; [|done].
    destruct (script w) as [|[resp err] rest]; simpl; [done|].
    destruct err as [err|]; simpl; [done|].
    destruct (getAndCheckResponseData resp) as [[d'|e']|]; simpl; try done.
    intros [= <- <- <-]. apply String.eqb_neq in Htok. by repeat split.
  - unfold sendHttpRequest, createHttpRequest, Do. simpl.
    destruct (requestOk w method _); simpl; [|done].
    destruct (script w) as [|[resp err] rest]; simpl; [done|].
    destruct err as [err|]; simpl; [done|].
    destruct (getAndCheckResponseData resp) as [[d'|e']|]; simpl; try done.
    intros [= <- <- <-]. by repeat split.
Qed.

Lemma createPoolConnections_loop_sent (nodeURL nodeID nodeMode : string)
    (isLeader : bool) (n : nat) (c : Client) (connections : list ptr) (w : World)
    (r : list ptr) (c1 : Client) (w1 : World) :
  createPoolConnections_loop c nodeURL nodeID nodeMode isLeader n connections w
    = Done (r, c1, w1) ->
  sent w `prefix_of` sent w1.
Proof.
  revert c connections w. induction n as [|n IH]; intros c connections w; simpl.
  - by intros [= _ _ <-].
  - unfold createAndConnectNewConnection.
    set (pre := if NodeUseMultiClient (poolConfig c) then _ else _).
    assert (sent pre.2 = sent w) as Hpre.
    { unfold pre. destruct (NodeUseMultiClient (poolConfig c)); [done|].
      unfold getOrCreateNodeHTTPClient.
      by destruct (nodeHTTPClients (readPool c) !! nodeID). }
    destruct pre as [[conn c0] w0]. simpl in Hpre.
    destruct (newOrRefreshToken conn (Config c0) CALL_CONNECT w0) as [[err w2]|] eqn:Hn;
      simpl; [|done].
    apply newOrRefreshToken_sends in Hn as (new & Hnew & _).
    assert (sent w `prefix_of` sent w2) as Hp
      by (exists new; by rewrite Hnew, Hpre).
    destruct err; simpl; intros H; apply IH in H; by etrans.
Qed.

Lemma scaleUpNode_sent (c : Client) (conn : ptr) (isWrite : bool) (w : World)
    (c' : Client) (w' : World) :
  scaleUpNode c conn isWrite w = Done (c', w') -> sent w `prefix_of` sent w'.
Proof.
  unfold scaleUpNode.
  destruct (findMaxPoolsByNodeID c (NodeID (store w conn))) as [m|e]; simpl; [|done].
  destruct (Z.min _ _ <=? 0) eqn:Hadd.
  { by intros [= _ <-]. }
  unfold createPoolConnections. rewrite Hadd.
  match goal with
  | |- context [createPoolConnections_loop c ?u ?n0 ?m0 ?l0 ?k [] w] =>
      pose proof (createPoolConnections_loop_sent u n0 m0 l0 k c [] w) as Hloop;
      destruct (createPoolConnections_loop c u n0 m0 l0 k [] w)
        as [[[connections c1] w1]|e]; simpl; [|done]
  end.
  specialize (Hloop _ _ _ eq_refl).
  by destruct (0 <? len connections); intros [= _ <-].
Qed.

Lemma initialize_node_sent (c : Client) (url nodeID mode : string) (leader : bool)
    (w : World) (c' : Client) (w' : World) :
  initialize_node c url nodeID mode leader w = Done (c', w') ->
  sent w `prefix_of` sent w'.
Proof.
  unfold initialize_node.
  destruct (scaleUpNode c _ IS_WRITE _) as [[c1 w1]|] eqn:H1; simpl; [|done].
  intros H2. apply scaleUpNode_sent in H1, H2. simpl in H1. by etrans.
Qed.

Lemma initialize_peers_sent (peers : list PeerStatus) (c : Client)
    (w : World) (c' : Client) (w' : World) :
  initialize_peers c peers w = Done (c', w') -> sent w `prefix_of` sent w'.
Proof.
  revert c w. induction peers as [|peer peers IH]; intros c w; simpl.
  - by intros [= _ <-].
  - destruct (initialize_node c _ _ _ _ w) as [[c1 w1]|] eqn:H1; simpl; [|done].
    intros H2. apply initialize_node_sent in H1. apply IH in H2. by etrans.
Qed.

(** X24.  A [Connect] that returns nil on a client that was not connected
    leaves it connected, with the cluster status recorded, a leader
    connection and the client and pool configuration it had.  If the reaper
    had never been started it is now running with an open done-channel; if
    a timer reference was already there, it and the done-channel are left
    exactly as they were.  On a client that has its leader connection, the
    first request sent is the login, a POST of the credentials to
    [/db/connect] without a bearer token, and the second is the GET of
    [/db/api/status] under the token that the login was granted; the
    warm-up of the pools follows. *)
Theorem Connect_success (c : Client) (username password : string) (w : World)
    (c' : Client) (w' : World) :
  Connected c = false ->
  Connect c username password w = Done (None, c', w') ->
  Connected c' = true /\ is_Some (status c') /\ is_Some (leaderConn c') /\
  Config c' = Config c /\ poolConfig c' = poolConfig c /\
  (cleanupTimer c = None ->
   cleanupTimer c' = Some (mkTimer true false) /\ cleanupDone c' = ChOpen) /\
  (forall t, cleanupTimer c = Some t ->
             cleanupTimer c' = Some t /\ cleanupDone c' = cleanupDone c) /\
  (forall l, leaderConn c = Some l ->
     exists tok more,
       Token tok <> "" /\ Refresh tok <> "" /\
       sent w' = sent w ++
         [mkRequest "POST" (URL (store w l) +:+ "/db/connect")
                    (Some (userCredentialsDefault c username password))
                    (APIKey (Config c)) (ClientID (Config c)) None;
          mkRequest "GET" (URL (store w l) +:+ "/db/api/status") None
                    (APIKey (Config c)) (ClientID (Config c))
                    (Some ("Bearer " +:+ Token tok))] ++ more).
Proof.
  intros Hcon Hrun.
  destruct (Connect_granted c username password w c' w' Hcon Hrun)
    as (H1 & H2 & H3 & H4 & H5 & H6 & H7).
  do 7 (split; [done|]).
  intros l Hl. revert Hrun. unfold Connect. rewrite Hcon.
  destruct (sendRequestToLeader c "POST" "/db/connect" _ NO_TOKEN DEFAULT_AUTO_REFRESH w)
    as [[[data c1] w1]|] eqn:Hlogin; [|done]. simpl.
  destruct data as [data|e1]; [|done].
  apply (sendRequestToLeader_Ok c l) in Hlogin
    as (-> & Hst1 & _ & _ & Hok1 & _ & Hsent1); [|done|by left].
  destruct (convertDataToToken data) as [tok [e1|]] eqn:Htok; [done|].
  destruct (convertDataToToken_nonempty _ _ Htok) as [Ht Hr].
  rewrite Hl. unfold InitializePool, getStatusWithoutLock.
  set (c2 := with_Connected c true).
  set (w2 := with_store w1 _).
  destruct (sendRequestToLeader c2 "GET" "/db/api/status" None WITH_TOKEN NO_REFRESH w2)
    as [[[data2 c3] w3]|] eqn:Hs; [|done]. simpl.
  destruct data2 as [[| | | | |statusData]|e2]; simpl; try done.
  apply (sendRequestToLeader_Ok c2 l) in Hs
    as (-> & _ & _ & _ & _ & _ & Hsent3); [|done|by right].
  destruct (initialize_node _ _ _ _ _ _) as [[c4 w4]|] eqn:H4'; [|done]. simpl.
  destruct (initialize_peers _ _ _) as [[c5 w5]|] eqn:H5'; [|done]. simpl.
  apply initialize_node_sent in H4'. apply initialize_peers_sent in H5'.
  intros [= _ <-].
  assert (sent w3 `prefix_of` sent w5) as [more Hmore] by (by etrans).
  exists tok, more. split; [done|]. split; [done|].
  rewrite Hmore, Hsent3. unfold w2 at 1. simpl. rewrite Hsent1.
  unfold w2. simpl. unfold store_set. rewrite Nat.eqb_refl. simpl.
  rewrite Hst1. unfold NO_TOKEN. by rewrite <- !app_assoc.
Qed.

Lemma Connect_success_witness :
  exists c0 w0 c' w',
    NewClient (mkClientConfig "http://leader" "k" "id" "admin" "admin")
              (mkPoolConfig 5 10 1 10 300 60 3600 3 100 true) world_boot = (c0, w0) /\
    Connect c0 "admin" "admin" w0 = Done (None, c', w') /\
    Connected c' = true /\
    cleanupTimer c' = Some (mkTimer true false).
Proof.
  let r0 := eval vm_compute in
              (NewClient (mkClientConfig "http://leader" "k" "id" "admin" "admin")
                         (mkPoolConfig 5 10 1 10 300 60 3600 3 100 true) world_boot) in
  match r0 with
  | (?c0, ?w0) =>
      let r1 := eval vm_compute in (Connect c0 "admin" "admin" w0) in
      match r1 with
      | Done (None, ?c', ?w') =>
          exists c0, w0, c', w';
          split; [vm_compute; reflexivity|];
          split; [vm_compute; reflexivity|];
          destruct (Connect_success c0 "admin" "admin" w0 c' w')
            as (H1 & _ & _ & _ & _ & H6 & _);
          [vm_compute; reflexivity | vm_compute; reflexivity |];
          split; [exact H1 | apply H6; vm_compute; reflexivity]
      end
  end.
Defined.

(** * Round trips *)

(** ** Adding a session and removing it again *)

Lemma find_conn_snoc (conn : ptr) (l : list ptr) :
  conn ∉ l -> find_conn conn (l ++ [conn]) = Some (length l).
Proof.
  induction l as [|c l IH]; intros Hnot; simpl.
  - by rewrite Nat.eqb_refl.
  - apply not_elem_of_cons in Hnot as [Hne Hnot].
    destruct (Nat.eqb_spec c conn) as [->|_]; [done|].
    by rewrite IH.
Qed.

Lemma cut_snoc {A} (l : list A) (x : A) : cut (length l) (l ++ [x]) = l.
Proof.
  unfold cut. rewrite take_app_length.
  rewrite drop_ge by (rewrite length_app; simpl; lia).
  by rewrite app_nil_r.
Qed.

Lemma find_node_snoc (n : string) (l : list string) :
  n ∉ l -> find_node n (l ++ [n]) = Some (length l).
Proof.
  induction l as [|m l IH]; intros Hnot; simpl.
  - by rewrite String.eqb_refl.
  - apply not_elem_of_cons in Hnot as [Hne Hnot].
    destruct (String.eqb_spec m n) as [->|_]; [done|].
    by rewrite IH.
Qed.

(** X26.  Adding a session and removing it again gives the pool back.  In
    a pool whose bucket for the node does not hold the session yet and is
    not an empty list, where a node without bucket has no cursor and is not
    in the ordered list, and whose node cursor is in range, [Remove] after
    [Add] returns true and leaves buckets, cursors, ordered list and node
    cursor exactly as they were before the [Add].  Only the write pool
    differs in one case: when the session was the first of its node, the
    transport registered for the node is gone. *)
Theorem Add_then_Remove (st : Store) (p : ConnectionPool) (conn : ptr) :
  let nodeID := NodeID (st conn) in
  conn ∉ conns_at p nodeID ->
  nodeConnections p !! nodeID <> Some [] ->
  (nodeConnections p !! nodeID = None ->
   nodeRoundRobinIndices p !! nodeID = None /\ nodeID ∉ nodeOrder p) ->
  nodeOrderIndex p < len (nodeOrder p) \/ nodeOrder p = [] ->
  Remove st (Add st p conn) conn =
  (true,
   with_clients p
     (if isWritePool p && bool_decide (nodeConnections p !! nodeID = None)
      then delete nodeID (nodeHTTPClients p) else nodeHTTPClients p)).
Proof.
  intros nodeID Hnot Hne Hnew Hidx. unfold Add, Remove. fold nodeID.
  unfold append_conns at 1. simpl. rewrite lookup_insert_eq.
  rewrite conns_at_ensure_node.
  rewrite (find_conn_snoc conn (conns_at p nodeID) Hnot), cut_snoc.
  destruct (nodeConnections p !! nodeID) as [conns|] eqn:Hb.
  - assert (conns_at p nodeID = conns) as Hc by (unfold conns_at; by rewrite Hb).
    rewrite Hc. destruct (Z.eqb_spec (len conns) 0) as [H0|_].
    { apply len_nil_iff in H0. congruence. }
    unfold ensure_node. rewrite Hb. simpl.
    rewrite insert_insert_eq, (insert_id _ _ _ Hb).
    rewrite andb_false_r. by destruct p.
  - assert (conns_at p nodeID = []) as Hc by (unfold conns_at; by rewrite Hb).
    rewrite Hc. simpl. destruct (Hnew eq_refl) as [Hcur Hord].
    unfold ensure_node. rewrite Hb. simpl.
    unfold drop_from_order. rewrite (find_node_snoc nodeID (nodeOrder p) Hord), cut_snoc.
    rewrite ?andb_true_r.
    rewrite !delete_insert_eq.
    rewrite (delete_id _ _ Hb), (delete_id _ _ Hcur).
    assert ((len (nodeOrder p) <=? nodeOrderIndex p) && (0 <? len (nodeOrder p)) = false)
      as ->.
    { destruct Hidx as [Hlt | ->].
      - apply andb_false_iff. left. apply Z.leb_gt. lia.
      - by rewrite andb_false_r. }
    by destruct p.
Qed.

Lemma Add_then_Remove_witness :
  Remove store_c4 (Add store_c4 pool_c4 7%nat) 7%nat = (true, pool_c4).
Proof.
  rewrite (Add_then_Remove store_c4 pool_c4 7%nat).
  - reflexivity.
  - apply (bool_decide_unpack _). vm_compute. reflexivity.
  - discriminate.
  - intros H. discriminate H.
  - left. by vm_compute.
Defined.

(** * The sessions that a scale-up creates *)

Lemma sendHttpRequest_world (conn : ptr) (method endpoint : string)
    (data : option JSON) (config : ClientConfig) (withToken : bool) (w : World) :
  let r := sendHttpRequest conn method endpoint data config withToken w in
  next r.2 = next w /\ nextClient r.2 = nextClient w /\ clock r.2 = clock w.
Proof.
  unfold sendHttpRequest. destruct (createHttpRequest _ _ _ _ _ _); [|done].
  unfold Do. by destruct (script w).
Qed.

Lemma newOrRefreshToken_world (conn : ptr) (config : ClientConfig) (refresh : bool)
    (w w' : World) (e : option string) :
  newOrRefreshToken conn config refresh w = Done (e, w') ->
  next w' = next w /\ nextClient w' = nextClient w /\ clock w' = clock w.
Proof.
  unfold newOrRefreshToken.
  set (rr := sendHttpRequest conn "POST" "/db/refresh" _ config NO_TOKEN w).
  set (rc := sendHttpRequest conn "POST" "/db/connect" _ config NO_TOKEN w).
  assert (next rr.2 = next w /\ nextClient rr.2 = nextClient w /\ clock rr.2 = clock w)
    as Hrr by apply sendHttpRequest_world.
  assert (next rc.2 = next w /\ nextClient rc.2 = nextClient w /\ clock rc.2 = clock w)
    as Hrc by apply sendHttpRequest_world.
  assert (forall (resp : option Response) (w1 : World),
            next w1 = next w /\ nextClient w1 = nextClient w /\ clock w1 = clock w ->
            (data ← getAndCheckResponseData resp;
             match data with
             | Err err => Done (Some err, w1)
             | Ok data =>
                 match convertDataToToken data with
                 | (_, Some err) => Done (Some err, w1)
                 | (tokenObj, None) =>
                     Done (None,
                           with_store w1
                             (store_set (store w1) conn
                                (set_Token (store w1 conn) tokenObj (clock w1))))
                 end
             end) = Done (e, w') ->
            next w' = next w /\ nextClient w' = nextClient w /\ clock w' = clock w)
    as Htail.
  { intros resp w1 Hw1. destruct resp as [resp|]; [|discriminate]. simpl.
    destruct (Body resp) as [env|]; simpl; [|by intros [= _ <-]].
    destruct (Status env =? http_StatusOK); simpl; [|by intros [= _ <-]].
    destruct (convertDataToToken (Data env)) as [tok [err|]];
      by intros [= _ <-]. }
  destruct refresh.
  - destruct (String.eqb _ ""); simpl; [by intros [= _ <-]|].
    destruct (rr.1.2); simpl.
    + destruct (rr.1.1); simpl; [|discriminate]. by intros [= _ <-].
    + apply Htail, Hrr.
  - destruct (rc.1.2); simpl; [by intros [= _ <-]|]. apply Htail, Hrc.
Qed.

Lemma createAndConnectNewConnection_session (c : Client) (url nodeID mode : string)
    (leader : bool) (w : World) (r : result ptr) (c1 : Client) (w1 : World) :
  createAndConnectNewConnection c url nodeID mode leader w = Done (r, c1, w1) ->
  next w1 = S (next w) /\
  (nextClient w <= nextClient w1)%nat /\
  (forall a, a <> next w -> store w1 a = store w a) /\
  same_but_clients c c1 /\
  (forall conn, r = Ok conn ->
     conn = next w /\ logged_in (Config c) url nodeID leader (store w1 conn)) /\
  (if NodeUseMultiClient (poolConfig c)
   then HTTPClient (store w1 (next w)) = nextClient w /\
        nextClient w1 = S (nextClient w)
   else nodeHTTPClients (readPool c1) !! nodeID = Some (HTTPClient (store w1 (next w))) /\
        (forall h, nodeHTTPClients (readPool c) !! nodeID = Some h ->
                   HTTPClient (store w1 (next w)) = h)).
Proof.
  unfold createAndConnectNewConnection.
  set (pre := if NodeUseMultiClient (poolConfig c) then _ else _).
  assert (exists c0 w0 h,
            pre = (next w, c0, w0) /\ same_but_clients c c0 /\
            next w0 = S (next w) /\ (nextClient w <= nextClient w0)%nat /\
            store w0 = store_set (store w) (next w)
                         (mkConnection (if String.eqb url "" then ServerURL (Config c)
                                        else url)
                                       (mkTokenTable "" "") (node_or_leader nodeID)
                                       leader
                                       (if String.eqb mode "" then "rw" else mode)
                                       h (clock w) (clock w) (clock w)) /\
            (if NodeUseMultiClient (poolConfig c)
             then h = nextClient w /\ nextClient w0 = S (nextClient w)
             else nodeHTTPClients (readPool c0) !! nodeID = Some h /\
                  (forall h', nodeHTTPClients (readPool c) !! nodeID = Some h' -> h = h')))
    as (c0 & w0 & h & -> & Hsame & Hnx & Hnc & Hst & Hh).
  { subst pre. destruct (NodeUseMultiClient (poolConfig c)).
    - eexists _, _, _. split; [reflexivity|].
      split; [apply same_but_clients_refl|]. simpl.
      split; [done|]. split; [simpl; lia|]. split; [reflexivity|]. done.
    - pose proof (getOrCreateNodeHTTPClient_inv c nodeID w) as H. simpl in H.
      unfold getOrCreateNodeHTTPClient in *.
      destruct (nodeHTTPClients (readPool c) !! nodeID) as [hc|] eqn:Hhc; simpl in *.
      + eexists _, _, _. split; [reflexivity|]. split; [by apply H|].
        split; [done|]. split; [simpl; lia|]. split; [reflexivity|].
        split; [done|]. by intros h' [= <-].
      + eexists _, _, _. split; [reflexivity|]. split; [by apply H|].
        split; [done|]. split; [simpl; lia|]. split; [reflexivity|].
        simpl. rewrite lookup_insert_eq. split; [done|]. intros h' Hh'. discriminate Hh'. }
  assert (Config c0 = Config c) as Hcfg.
  { destruct Hsame as (mr & mw & ->). done. }
  destruct (newOrRefreshToken (next w) (Config c0) CALL_CONNECT w0)
    as [[err w2]|] eqn:Hn; simpl; [|done].
  destruct (newOrRefreshToken_world _ _ _ _ _ _ Hn) as (Hnx2 & Hnc2 & Hclk2).
  assert (forall a, a <> next w -> store w0 a = store w a) as Hold0.
  { intros a Ha. rewrite Hst. unfold store_set.
    by destruct (Nat.eqb_spec a (next w)). }
  destruct err as [e|].
  - apply newOrRefreshToken_error_store in Hn.
    intros [= <- <- <-]. split; [congruence|]. split; [lia|].
    split; [intros a Ha; rewrite Hn; by apply Hold0|]. split; [done|].
    split; [intros conn Hc; discriminate Hc|].
    rewrite Hn, Hst. unfold store_set. rewrite Nat.eqb_refl. simpl.
    destruct (NodeUseMultiClient (poolConfig c)).
    + destruct Hh as [-> Hh]. split; [done | congruence].
    + destruct Hh as [Hh1 Hh2]. split; [done|]. intros h' Hh'. by apply Hh2.
  - apply newOrRefreshToken_None in Hn as (tok & Ht & Hr & Hst2).
    intros [= <- <- <-]. split; [congruence|]. split; [lia|].
    split.
    { intros a Ha. rewrite Hst2. unfold store_set at 1.
      destruct (Nat.eqb_spec a (next w)); [done|]. by apply Hold0. }
    split; [done|].
    assert (store w2 (next w) = set_Token (store w0 (next w)) tok (clock w0)) as Hnew.
    { rewrite Hst2. unfold store_set at 1. by rewrite Nat.eqb_refl. }
    assert (store w0 (next w) =
            mkConnection (if String.eqb url "" then ServerURL (Config c) else url)
                         (mkTokenTable "" "") (node_or_leader nodeID) leader
                         (if String.eqb mode "" then "rw" else mode)
                         h (clock w) (clock w) (clock w)) as Hnew0.
    { rewrite Hst. unfold store_set. by rewrite Nat.eqb_refl. }
    split.
    { intros conn [= <-]. split; [done|]. rewrite Hnew, Hnew0.
      unfold logged_in. simpl. done. }
    rewrite Hnew, Hnew0. simpl.
    destruct (NodeUseMultiClient (poolConfig c)).
    + destruct Hh as [-> Hh]. split; [done | congruence].
    + destruct Hh as [Hh1 Hh2]. split; [done|]. intros h' Hh'. by apply Hh2.
Qed.

Lemma createPoolConnections_loop_sessions (url nodeID mode : string) (leader : bool)
    (n : nat) (c : Client) (connections : list ptr) (w : World)
    (conns' : list ptr) (c1 : Client) (w1 : World) :
  createPoolConnections_loop c url nodeID mode leader n connections w
    = Done (conns', c1, w1) ->
  (forall a, a ∈ connections -> (a < next w)%nat) ->
  NoDup connections ->
  next w1 = (next w + n)%nat /\
  (nextClient w <= nextClient w1)%nat /\
  (forall a, (a < next w)%nat -> store w1 a = store w a) /\
  same_but_clients c c1 /\
  NoDup conns' /\
  exists added,
    conns' = connections ++ added /\
    (length added <= n)%nat /\
    (forall a, a ∈ added ->
       (next w <= a < next w1)%nat /\
       logged_in (Config c) url nodeID leader (store w1 a)) /\
    (if NodeUseMultiClient (poolConfig c)
     then NoDup ((fun a => HTTPClient (store w1 a)) <$> added) /\
          forall a, a ∈ added ->
            (nextClient w <= HTTPClient (store w1 a) < nextClient w1)%nat
     else (forall a, a ∈ added ->
             nodeHTTPClients (readPool c1) !! nodeID = Some (HTTPClient (store w1 a))) /\
          (forall h, nodeHTTPClients (readPool c) !! nodeID = Some h ->
                     nodeHTTPClients (readPool c1) !! nodeID = Some h)).
Proof.
  revert c connections w. induction n as [|n IH]; intros c connections w; simpl.
  - intros [= <- <- <-] Hlt Hnd. split; [lia|]. split; [lia|]. split; [done|].
    split; [apply same_but_clients_refl|]. split; [done|].
    exists []. rewrite app_nil_r. split; [done|]. split; [simpl; lia|].
    split; [intros a Ha; by apply not_elem_of_nil in Ha|].
    destruct (NodeUseMultiClient (poolConfig c)).
    + split; [apply NoDup_nil_2 | intros a Ha; by apply not_elem_of_nil in Ha].
    + split; [intros a Ha; by apply not_elem_of_nil in Ha | done].
  - destruct (createAndConnectNewConnection c url nodeID mode leader w)
      as [[[r c0] w0]|] eqn:Hstep; simpl; [|done].
    apply createAndConnectNewConnection_session in Hstep
      as (Hnx0 & Hnc0 & Hold0 & Hsame0 & Hok0 & Hh0).
    assert (Config c0 = Config c /\ poolConfig c0 = poolConfig c) as [Hcfg Hpc].
    { destruct Hsame0 as (mr & mw & ->). done. }
    intros Hrun Hlt Hnd.
    assert (forall a, (a < next w)%nat -> a <> next w) as Hne by (intros; lia).
    destruct r as [conn|err].
    + destruct (Hok0 conn eq_refl) as [-> Hlog].
      apply IH in Hrun as (Hnx & Hnc & Hold & Hsame & Hnd' & added & -> & Hlen & Hadd & Ht).
      2:{ intros a Ha. apply elem_of_app in Ha as [Ha|Ha]; [specialize (Hlt a Ha); lia|].
          apply list_elem_of_singleton in Ha as ->. lia. }
      2:{ apply NoDup_app. split; [done|]. split; [|apply NoDup_singleton].
          intros a Ha Ha'. apply list_elem_of_singleton in Ha' as ->.
          specialize (Hlt _ Ha). lia. }
      assert (store w1 (next w) = store w0 (next w)) as Hkeep by (apply Hold; lia).
      split; [lia|]. split; [lia|].
      split; [intros a Ha; rewrite Hold by lia; apply Hold0; lia|].
      split; [by eapply same_but_clients_trans|]. split; [done|].
      exists (next w :: added). rewrite <- app_assoc. split; [done|].
      split; [simpl; lia|]. split.
      { intros a Ha. apply elem_of_cons in Ha as [->|Ha].
        - split; [lia|]. by rewrite Hkeep.
        - destruct (Hadd a Ha) as [Hr Hl]. split; [lia|]. by rewrite <- Hcfg. }
      rewrite Hpc in Ht. destruct (NodeUseMultiClient (poolConfig c)).
      * destruct Hh0 as [Hh Hnc']. destruct Ht as [Hndh Hrange].
        split.
        { rewrite fmap_cons. apply NoDup_cons. split; [|done].
          rewrite Hkeep, Hh. intros Hin.
          apply list_elem_of_fmap in Hin as (a & Ha & Hin).
          specialize (Hrange a Hin). lia. }
        intros a Ha. apply elem_of_cons in Ha as [->|Ha].
        -- rewrite Hkeep, Hh. lia.
        -- specialize (Hrange a Ha). lia.
      * destruct Hh0 as [Hreg Hreuse]. destruct Ht as [Hshare Hpersist].
        split.
        { intros a Ha. apply elem_of_cons in Ha as [->|Ha]; [|by apply Hshare].
          rewrite Hkeep. by apply Hpersist. }
        intros h Hh. apply Hpersist. rewrite Hreg. f_equal. by apply Hreuse.
    + apply IH in Hrun as (Hnx & Hnc & Hold & Hsame & Hnd' & added & -> & Hlen & Hadd & Ht).
      2:{ intros a Ha. specialize (Hlt a Ha). lia. }
      2:{ done. }
      split; [lia|]. split; [lia|].
      split; [intros a Ha; rewrite Hold by lia; apply Hold0; lia|].
      split; [by eapply same_but_clients_trans|]. split; [done|].
      exists added. split; [done|]. split; [lia|]. split.
      { intros a Ha. destruct (Hadd a Ha) as [Hr Hl]. split; [lia|]. by rewrite <- Hcfg. }
      rewrite Hpc in Ht. destruct (NodeUseMultiClient (poolConfig c)).
      * destruct Hh0 as [Hh Hnc']. destruct Ht as [Hndh Hrange].
        split; [done|]. intros a Ha. specialize (Hrange a Ha). lia.
      * destruct Hh0 as [Hreg Hreuse]. destruct Ht as [Hshare Hpersist].
        split; [done|].
        intros h Hh. apply Hpersist. rewrite Hreg. f_equal. by apply Hreuse.
Qed.

(** X27.  [createPoolConnections] makes one attempt per requested session
    and returns the sessions whose login was granted, at most [count] of
    them and none when [count] is not positive.  Every returned session is
    a fresh, distinct object that holds a token pair with both parts
    non-empty and carries the node id (["0"] for an empty one), the URL
    (the server URL for an empty one) and the leader flag it was created
    for.  Every session that existed before is left exactly as it was, and
    the client changes in the per-node transports of its pools at most. *)
Theorem createPoolConnections_sessions (c : Client) (url nodeID mode : string)
    (leader : bool) (count : Z) (w : World)
    (conns : list ptr) (c1 : Client) (w1 : World) :
  createPoolConnections c url nodeID mode leader count w = Done (conns, c1, w1) ->
  len conns <= Z.max 0 count /\
  NoDup conns /\
  next w1 = (next w + Z.to_nat count)%nat /\
  (forall a, a ∈ conns ->
     (next w <= a < next w1)%nat /\
     logged_in (Config c) url nodeID leader (store w1 a)) /\
  (forall a, (a < next w)%nat -> store w1 a = store w a) /\
  same_but_clients c c1.
Proof.
  unfold createPoolConnections. destruct (Z.leb_spec count 0) as [Hle|Hgt].
  - intros [= <- <- <-]. rewrite len_nil. split; [lia|]. split; [apply NoDup_nil_2|].
    split; [lia|]. split; [intros a Ha; by apply not_elem_of_nil in Ha|].
    split; [done | apply same_but_clients_refl].
  - intros Hrun. apply createPoolConnections_loop_sessions in Hrun
      as (Hnx & _ & Hold & Hsame & Hnd & added & -> & Hlen & Hadd & _).
    + simpl in *. split; [unfold len; lia|]. split; [exact Hnd|].
      split; [exact Hnx|]. split; [exact Hadd|]. split; [exact Hold | exact Hsame].
    + intros a Ha. by apply not_elem_of_nil in Ha.
    + apply NoDup_nil_2.
Qed.

Lemma createPoolConnections_sessions_witness :
  exists c1 w1,
    createPoolConnections client_c5 "http://leader" "P1" "rw" true 2 world_c5
      = Done ([1%nat; 2%nat], c1, w1) /\
    next w1 = 3%nat /\
    ConnToken (store w1 2%nat) = mkTokenTable "t2" "r2".
Proof.
  let r := eval vm_compute in
             (createPoolConnections client_c5 "http://leader" "P1" "rw" true 2 world_c5) in
  match r with
  | Done (?conns, ?c1, ?w1) =>
      exists c1, w1;
      split; [vm_compute; reflexivity|];
      destruct (createPoolConnections_sessions client_c5 "http://leader" "P1" "rw" true 2
                  world_c5 conns c1 w1) as (_ & _ & Hnx & _);
      [vm_compute; reflexivity|];
      split; [exact Hnx | vm_compute; reflexivity]
  end.
Defined.

(** X28.  The transports of the sessions of one batch.  With
    [NodeUseMultiClient] every session of the batch has a transport of its
    own.  Without it all sessions of the batch use one and the same
    transport, the one registered for the node in the read pool, and a
    transport that was registered there before the call is the one that is
    used: no second transport is made for a node. *)
Theorem createPoolConnections_transport (c : Client) (url nodeID mode : string)
    (leader : bool) (count : Z) (w : World)
    (conns : list ptr) (c1 : Client) (w1 : World) :
  createPoolConnections c url nodeID mode leader count w = Done (conns, c1, w1) ->
  if NodeUseMultiClient (poolConfig c)
  then NoDup ((fun a => HTTPClient (store w1 a)) <$> conns)
  else (forall a, a ∈ conns ->
          nodeHTTPClients (readPool c1) !! nodeID = Some (HTTPClient (store w1 a))) /\
       (forall a b, a ∈ conns -> b ∈ conns ->
          HTTPClient (store w1 a) = HTTPClient (store w1 b)) /\
       (forall h a, nodeHTTPClients (readPool c) !! nodeID = Some h -> a ∈ conns ->
          HTTPClient (store w1 a) = h).
Proof.
  unfold createPoolConnections. destruct (Z.leb_spec count 0) as [Hle|Hgt].
  - intros [= <- <- <-]. destruct (NodeUseMultiClient (poolConfig c)).
    + apply NoDup_nil_2.
    + split; [|split]; intros; exfalso; by eapply not_elem_of_nil.
  - intros Hrun. apply createPoolConnections_loop_sessions in Hrun
      as (_ & _ & _ & _ & _ & added & -> & _ & _ & Ht).
    + simpl. destruct (NodeUseMultiClient (poolConfig c)); [by destruct Ht|].
      destruct Ht as [Hshare Hpersist]. split; [done|]. split.
      * intros a b Ha Hb. pose proof (Hshare a Ha) as H1.
        rewrite (Hshare b Hb) in H1. congruence.
      * intros h a Hh Ha. pose proof (Hshare a Ha) as H1.
        rewrite (Hpersist h Hh) in H1. congruence.
    + intros a Ha. by apply not_elem_of_nil in Ha.
    + apply NoDup_nil_2.
Qed.

Lemma createPoolConnections_transport_witness :
  exists c1 w1,
    createPoolConnections client_shared "http://leader" "P1" "rw" true 2 world_c5
      = Done ([1%nat; 2%nat], c1, w1) /\
    HTTPClient (store w1 1%nat) = HTTPClient (store w1 2%nat).
Proof.
  let r := eval vm_compute in
             (createPoolConnections client_shared "http://leader" "P1" "rw" true 2
                                    world_c5) in
  match r with
  | Done (?conns, ?c1, ?w1) =>
      exists c1, w1;
      split; [vm_compute; reflexivity|];
      pose proof (createPoolConnections_transport client_shared "http://leader" "P1"
                    "rw" true 2 world_c5 conns c1 w1) as H;
      change (NodeUseMultiClient (poolConfig client_shared)) with false in H;
      destruct H as (_ & H & _);
      [vm_compute; reflexivity|];
      apply (H 1%nat 2%nat); apply (bool_decide_unpack _); vm_compute; reflexivity
  end.
Defined.

(** * No sessions after [Close] *)

(** X29.  Once a client has been closed, no session can be obtained from
    it.  [getReadConnection] and [getWriteConnection] find their pool
    empty and run the pool initialization, whose status request is turned
    down before it is sent because the leader connection made for it holds
    no token; so both return their no-connections error, no request reaches
    the transport and no goroutine is started. *)
Theorem no_connection_after_Close (c c0 : Client) (w : World) :
  Close c = Done c0 ->
  (exists c1 w1,
     getReadConnection c0 w = Done (Err "no read connections available", c1, w1, []) /\
     sent w1 = sent w /\ script w1 = script w /\
     Size (readPool c1) = 0 /\ Size (writePool c1) = 0) /\
  (exists c1 w1,
     getWriteConnection c0 w = Done (Err "no write connections available", c1, w1, []) /\
     sent w1 = sent w /\ script w1 = script w /\
     Size (readPool c1) = 0 /\ Size (writePool c1) = 0).
Proof.
  intros Hclose.
  assert (leaderConn c0 = None /\ readPool c0 = Clear (readPool c) /\
          writePool c0 = Clear (writePool c)) as (Hl & Hr & Hw).
  { destruct c as [cfg con l rp wp pc sr sw st tm d].
    unfold Close, CloseConnections in Hclose. simpl in Hclose.
    destruct tm as [tm|]; simpl in Hclose.
    - destruct d; simpl in Hclose; try discriminate Hclose.
      by injection Hclose as <-.
    - by injection Hclose as <-. }
  assert (exists c1 w1,
            InitializePool c0 w =
            Done (Some ("failed to get status for pool initialization: " +:+
                        "authentication required but no token available for 0"),
                  c1, w1) /\
            sent w1 = sent w /\ script w1 = script w /\
            readPool c1 = readPool c0 /\ writePool c1 = writePool c0)
    as (c1 & w1 & Hinit & Hsent & Hscript & Hr1 & Hw1).
  { unfold InitializePool, getStatusWithoutLock, sendRequestToLeader.
    rewrite Hl. simpl. unfold store_set. rewrite Nat.eqb_refl. simpl.
    eexists _, _. split; [reflexivity|]. by repeat split. }
  assert (Size (readPool c0) = 0) as Hsr by (by rewrite Hr).
  assert (Size (writePool c0) = 0) as Hsw by (by rewrite Hw).
  split.
  - exists c1, w1. unfold getReadConnection. rewrite Hsr. simpl. rewrite Hinit. simpl.
    split; [done|]. split; [done|]. split; [done|]. by rewrite Hr1, Hw1.
  - exists c1, w1. unfold getWriteConnection. rewrite Hsw. simpl. rewrite Hinit. simpl.
    split; [done|]. split; [done|]. split; [done|]. by rewrite Hr1, Hw1.
Qed.

Lemma no_connection_after_Close_witness :
  exists c0 c1 w1,
    Close client_c9 = Done c0 /\
    getReadConnection c0 world_c9
      = Done (Err "no read connections available", c1, w1, []) /\
    sent w1 = sent world_c9.
Proof.
  let r0 := eval vm_compute in (Close client_c9) in
  match r0 with
  | Done ?c0 =>
      destruct (no_connection_after_Close client_c9 c0 world_c9)
        as [(c1 & w1 & H1 & H2 & _) _];
      [vm_compute; reflexivity|];
      exists c0, c1, w1;
      split; [vm_compute; reflexivity|];
      split; [exact H1 | exact H2]
  end.
Defined.

(** * The resolved pool configuration *)

